(** * go-envreader: [ReadEnv], a typed reader of environment variables

    The repository is one generic Go function,

      func ReadEnv[T any](key string, defaultValue T) (T, error)

    (package [envreader], file [env.go]).  It fetches a variable with
    [os.Getenv], returns the default when the value is empty, and otherwise
    switches on the dynamic type of the zero value of [T] to pick one of
    [strconv.Atoi], [strconv.ParseInt], [strconv.ParseBool] or
    [strconv.ParseFloat], wrapping a parse failure with [fmt.Errorf] and [%w].

    The development is a shallow embedding.  [ReadEnv] itself is translated
    line by line in [Module envreader].  The functions of Go's standard
    library it calls are modelled in modules named after their packages
    ([utf8], [strconv], [errors], [fmt], [os]); they follow the library's
    sources and documented behaviour.  Go strings are byte strings, here
    [string] (a list of [ascii] bytes); Go's fixed-width integers are [Z]
    with the wrap-around written out; [float64] is an IEEE-754 binary64 value
    of [SpecFloat.spec_float]. *)

From Stdlib Require Import ZArith Lia Bool List Ascii String SpecFloat.
From Stdlib Require Import DecimalString.
From stdpp Require Import base option gmap strings.

Local Open Scope Z_scope.
#[local] Set Warnings "-register-all".

(** ** Bytes and byte strings *)

(** [s[i]] as a number, and back ([byte(b)] truncates to eight bits). *)
Definition byte (c : ascii) : Z := Z.of_N (N_of_ascii c).
Definition char (b : Z) : ascii := ascii_of_N (Z.to_N (b mod 256)).
Definition str1 (b : Z) : string := String (char b) EmptyString.

(** Character constants used by the parsers, by their ASCII codes. *)
Definition c_dquote : Z := 34.
Definition c_plus : Z := 43.
Definition c_minus : Z := 45.
Definition c_dot : Z := 46.
Definition c_0 : Z := 48.
Definition c_9 : Z := 57.
Definition c_backslash : Z := 92.
Definition c_underscore : Z := 95.
Definition c_a : Z := 97.
Definition c_b : Z := 98.
Definition c_e : Z := 101.
Definition c_f : Z := 102.
Definition c_o : Z := 111.
Definition c_p : Z := 112.
Definition c_x : Z := 120.
Definition c_z : Z := 122.

Definition between (lo hi b : Z) : bool := (lo <=? b) && (b <=? hi).

(** [len(s)] *)
Definition len (s : string) : Z := Z.of_nat (String.length s).

(** [s[:n]] for [0 <= n <= len(s)] *)
Definition prefix (n : Z) (s : string) : string := String.substring 0 (Z.to_nat n) s.

(** Unsigned and signed fixed-width wrap-around. *)
Definition wrapU (bits z : Z) : Z := z mod 2 ^ bits.
Definition wrapS (bits z : Z) : Z := (z + 2 ^ (bits - 1)) mod 2 ^ bits - 2 ^ (bits - 1).
Definition uint64 (z : Z) : Z := wrapU 64 z.
Definition int64 (z : Z) : Z := wrapS 64 z.
Definition maxUint64 : Z := 2 ^ 64 - 1.

(** ** The platform

    Two things the code depends on are fixed by the Go toolchain rather than
    by the repository: the width of [int] ([strconv.IntSize], 32 or 64), and
    the Unicode tables behind [strconv.IsPrint] for runes above Latin-1.
    Both are parameters of the model. *)
Variant IntWidth := W32 | W64.

Class Platform := {
  intWidth : IntWidth;
  (** [strconv.IsPrint] on runes above [0xFF] (the tables [isPrint16],
      [isNotPrint16], [isPrint32], [isNotPrint32] of the library). *)
  isPrintTable : Z -> bool
}.

Definition intSize `{Platform} : Z :=
  match intWidth with W32 => 32 | W64 => 64 end.

(** [int(z)] *)
Definition int `{Platform} (z : Z) : Z := wrapS intSize z.

(** ** Errors

    Go's [error] values that can arise here.  [ErrSyntax] and [ErrRange] are
    the two package-level sentinels of [strconv]; [errorString] is the value
    [errors.New] and a [fmt.Errorf] without [%w] allocate; [NumError] is
    [*strconv.NumError]; [wrapError] is the [*fmt.wrapError] that
    [fmt.Errorf] builds for a format with one [%w]. *)
Inductive error :=
| ErrSyntax
| ErrRange
| errorString (s : string)
| NumError (Func Num : string) (Err : error)
| wrapError (msg : string) (err : error).

(** ** Package unicode/utf8 *)
Module utf8.

Definition RuneError : Z := 65533.
Definition RuneSelf : Z := 128.
Definition MaxRune : Z := 1114111.

(** A continuation byte [10xxxxxx]. *)
Definition cont (b : Z) : bool := between 128 191 b.

(** The range accepted for the second byte of a sequence that starts with
    [b0] (the library's [acceptRanges]), [None] when [b0] starts no sequence. *)
Definition second (b0 : Z) : option (Z * Z) :=
  if between 194 223 b0 then Some (128, 191)
  else if b0 =? 224 then Some (160, 191)
  else if between 225 236 b0 then Some (128, 191)
  else if b0 =? 237 then Some (128, 159)
  else if between 238 239 b0 then Some (128, 191)
  else if b0 =? 240 then Some (144, 191)
  else if between 241 243 b0 then Some (128, 191)
  else if b0 =? 244 then Some (128, 143)
  else None.

(** [utf8.DecodeRuneInString(s)]: the rune and its width in bytes. *)
Definition DecodeRuneInString (s : string) : Z * Z :=
  match s with
  | EmptyString => (RuneError, 0)
  | String a0 s1 =>
    let b0 := byte a0 in
    if b0 <? RuneSelf then (b0, 1)
    else
      match second b0, s1 with
      | Some (lo, hi), String a1 s2 =>
        let b1 := byte a1 in
        if negb (between lo hi b1) then (RuneError, 1)
        else if b0 <? 224 then
          (Z.lor (Z.shiftl (Z.land b0 31) 6) (Z.land b1 63), 2)
        else
          match s2 with
          | String a2 s3 =>
            let b2 := byte a2 in
            if negb (cont b2) then (RuneError, 1)
            else if b0 <? 240 then
              (Z.lor (Z.lor (Z.shiftl (Z.land b0 15) 12)
                            (Z.shiftl (Z.land b1 63) 6))
                     (Z.land b2 63), 3)
            else
              match s3 with
              | String a3 _ =>
                let b3 := byte a3 in
                if negb (cont b3) then (RuneError, 1)
                else
                  (Z.lor (Z.lor (Z.lor (Z.shiftl (Z.land b0 7) 18)
                                       (Z.shiftl (Z.land b1 63) 12))
                                (Z.shiftl (Z.land b2 63) 6))
                         (Z.land b3 63), 4)
              | EmptyString => (RuneError, 1)
              end
          | EmptyString => (RuneError, 1)
          end
      | _, _ => (RuneError, 1)
      end
  end.

(** [utf8.ValidRune(r)] *)
Definition ValidRune (r : Z) : bool :=
  between 0 55295 r || ((57343 <? r) && (r <=? MaxRune)).

(** [utf8.AppendRune(nil, r)] *)
Definition AppendRune (r : Z) : string :=
  if between 0 127 r then str1 r
  else if between 0 2047 r then
    String (char (Z.lor 192 (Z.shiftr r 6)))
      (str1 (Z.lor 128 (Z.land r 63)))
  else
    let r := if ValidRune r then r else RuneError in
    if r <=? 65535 then
      String (char (Z.lor 224 (Z.shiftr r 12)))
        (String (char (Z.lor 128 (Z.land (Z.shiftr r 6) 63)))
           (str1 (Z.lor 128 (Z.land r 63))))
    else
      String (char (Z.lor 240 (Z.shiftr r 18)))
        (String (char (Z.lor 128 (Z.land (Z.shiftr r 12) 63)))
           (String (char (Z.lor 128 (Z.land (Z.shiftr r 6) 63)))
              (str1 (Z.lor 128 (Z.land r 63))))).

End utf8.

(** ** Package strconv *)
Module strconv.

(** [float64]: an IEEE-754 binary64 value. *)
Definition float64 : Type := spec_float.
Definition Inf (neg : bool) : float64 := S754_infinity neg.
Definition NaN : float64 := S754_nan.

(** [lower(c)]: the lower-case version of an ASCII letter. *)
Definition lower (c : Z) : Z := Z.lor c 32.

(** [strconv.Itoa(i)] *)
Definition Itoa (i : Z) : string := NilZero.string_of_int (Z.to_int i).

Definition fnParseUint : string := "ParseUint".
Definition fnParseInt : string := "ParseInt".
Definition fnAtoi : string := "Atoi".
Definition fnParseBool : string := "ParseBool".
Definition fnParseFloat : string := "ParseFloat".

Definition syntaxError (fn str : string) : error := NumError fn str ErrSyntax.
Definition rangeError (fn str : string) : error := NumError fn str ErrRange.
Definition baseError (fn str : string) (base : Z) : error :=
  NumError fn str (errorString ("invalid base " +:+ Itoa base)).
Definition bitSizeError (fn str : string) (bitSize : Z) : error :=
  NumError fn str (errorString ("invalid bit size " +:+ Itoa bitSize)).

(** *** Quote *)
Section Quote.
Context `{Platform}.

(** [strconv.IsPrint(r)]: Latin-1 is decided in the function, the rest by
    the tables. *)
Definition IsPrint (r : Z) : bool :=
  if r <=? 255 then
    if between 32 126 r then true
    else if between 161 255 r then negb (r =? 173)
    else false
  else isPrintTable r.

(** [lowerhex[d]] *)
Definition lowerhex (d : Z) : string :=
  str1 (if d <? 10 then c_0 + d else c_a + (d - 10)).

(** The hexadecimal digits of [r] from bit [4*n - 4] down to bit 0. *)
Fixpoint hexDigits (n : nat) (r : Z) : string :=
  match n with
  | O => EmptyString
  | S k => lowerhex (Z.land (Z.shiftr r (4 * Z.of_nat k)) 15) +:+ hexDigits k r
  end.

Definition backslash (s : string) : string := String (char c_backslash) s.

(** [appendEscapedRune] with the double quote as the quote character and
    both [ASCIIonly] and [graphicOnly] false, as [Quote] calls it. *)
Definition appendEscapedRune (r : Z) : string :=
  if (r =? c_dquote) || (r =? c_backslash) then backslash (str1 r)
  else if IsPrint r then utf8.AppendRune r
  else if r =? 7 then backslash "a"
  else if r =? 8 then backslash "b"
  else if r =? 12 then backslash "f"
  else if r =? 10 then backslash "n"
  else if r =? 13 then backslash "r"
  else if r =? 9 then backslash "t"
  else if r =? 11 then backslash "v"
  else if (r <? 32) || (r =? 127) then backslash ("x" +:+ hexDigits 2 r)
  else
    let r := if utf8.ValidRune r then r else utf8.RuneError in
    if r <? 65536 then backslash ("u" +:+ hexDigits 4 r)
    else backslash ("U" +:+ hexDigits 8 r).

(** The loop of [appendQuotedWith]: [skip] counts the bytes of the current
    rune that are still to be stepped over ([s = s[width:]]). *)
Fixpoint quoteLoop (skip : nat) (s : string) : string :=
  match s with
  | EmptyString => EmptyString
  | String a rest =>
    match skip with
    | S k => quoteLoop k rest
    | O =>
      let '(r, width) :=
        if byte a <? utf8.RuneSelf then (byte a, 1)
        else utf8.DecodeRuneInString s in
      (if (width =? 1) && (r =? utf8.RuneError)
       then backslash ("x" +:+ hexDigits 2 (byte a))
       else appendEscapedRune r)
      +:+ quoteLoop (Z.to_nat (width - 1)) rest
    end
  end.

(** [strconv.Quote(s)] *)
Definition Quote (s : string) : string :=
  str1 c_dquote +:+ quoteLoop 0 s +:+ str1 c_dquote.

End Quote.

(** *** Integers *)

(** [underscoreOK(s)]: underscores only between digits, or between a base
    prefix and a digit.  [last] is the library's variable [i], the class of
    the last character seen. *)
Variant lastSeen := AtStart | SawDigit | SawUnderscore | SawOther.

Fixpoint underscoreLoop (hex : bool) (last : lastSeen) (s : string) : bool :=
  match s with
  | EmptyString => match last with SawUnderscore => false | _ => true end
  | String a rest =>
    let c := byte a in
    if between c_0 c_9 c || (hex && between c_a c_f (lower c)) then
      underscoreLoop hex SawDigit rest
    else if c =? c_underscore then
      match last with
      | SawDigit => underscoreLoop hex SawUnderscore rest
      | _ => false
      end
    else
      match last with
      | SawUnderscore => false
      | _ => underscoreLoop hex SawOther rest
      end
  end.

Definition underscoreOK (s : string) : bool :=
  let s :=
    match s with
    | String a rest =>
      if (byte a =? c_minus) || (byte a =? c_plus) then rest else s
    | EmptyString => s
    end in
  match s with
  | String a0 (String a1 rest) =>
    let l := lower (byte a1) in
    if (byte a0 =? c_0) && ((l =? c_b) || (l =? c_o) || (l =? c_x))
    then underscoreLoop (l =? c_x) SawDigit rest
    else underscoreLoop false AtStart s
  | _ => underscoreLoop false AtStart s
  end.

Section Integers.
Context `{Platform}.

(** The digit loop of [ParseUint]; [n] is the [uint64] accumulator. *)
Fixpoint parseUintLoop (s0 : string) (base : Z) (base0 : bool)
    (cutoff maxVal : Z) (underscores : bool) (n : Z) (s : string)
    : Z * option error :=
  match s with
  | EmptyString =>
    if underscores && negb (underscoreOK s0)
    then (0, Some (syntaxError fnParseUint s0))
    else (n, None)
  | String a rest =>
    let c := byte a in
    if (c =? c_underscore) && base0 then
      parseUintLoop s0 base base0 cutoff maxVal true n rest
    else
      let d :=
        if between c_0 c_9 c then Some (c - c_0)
        else if between c_a c_z (lower c) then Some (lower c - c_a + 10)
        else None in
      match d with
      | None => (0, Some (syntaxError fnParseUint s0))
      | Some d =>
        if d >=? base mod 256 then (0, Some (syntaxError fnParseUint s0))
        else if n >=? cutoff then (maxVal, Some (rangeError fnParseUint s0))
        else
          let n := uint64 (n * base) in
          let n1 := uint64 (n + d) in
          if (n1 <? n) || (n1 >? maxVal)
          then (maxVal, Some (rangeError fnParseUint s0))
          else parseUintLoop s0 base base0 cutoff maxVal underscores n1 rest
      end
  end.

(** [strconv.ParseUint(s, base, bitSize)] *)
Definition ParseUint (s : string) (base bitSize : Z) : Z * option error :=
  match s with
  | EmptyString => (0, Some (syntaxError fnParseUint s))
  | String a0 s1 =>
    let base0 := base =? 0 in
    let s0 := s in
    let prefixed : option (Z * string) :=
      if between 2 36 base then Some (base, s)
      else if base =? 0 then
        if byte a0 =? c_0 then
          match s1 with
          | String a1 (String a2 r) =>
            let l := lower (byte a1) in
            if l =? c_b then Some (2, String a2 r)
            else if l =? c_o then Some (8, String a2 r)
            else if l =? c_x then Some (16, String a2 r)
            else Some (8, s1)
          | _ => Some (8, s1)
          end
        else Some (10, s)
      else None in
    match prefixed with
    | None => (0, Some (baseError fnParseUint s0 base))
    | Some (base, s) =>
      if (bitSize <? 0) || (bitSize >? 64)
      then (0, Some (bitSizeError fnParseUint s0 bitSize))
      else
        let bitSize := if bitSize =? 0 then intSize else bitSize in
        let cutoff := maxUint64 / base + 1 in
        let maxVal := uint64 (uint64 (Z.shiftl 1 bitSize) - 1) in
        parseUintLoop s0 base base0 cutoff maxVal false 0 s
    end
  end.

(** [strconv.ParseInt(s, base, bitSize)] *)
Definition ParseInt (s : string) (base bitSize : Z) : Z * option error :=
  match s with
  | EmptyString => (0, Some (syntaxError fnParseInt s))
  | String a0 s1 =>
    let s0 := s in
    let '(neg, s) :=
      if byte a0 =? c_plus then (false, s1)
      else if byte a0 =? c_minus then (true, s1)
      else (false, s) in
    let '(un, err) := ParseUint s base bitSize in
    let keep :=
      match err with
      | Some (NumError _ _ ErrRange) | None => None
      | Some (NumError _ _ e) => Some (NumError fnParseInt s0 e)
      | Some e => Some e
      end in
    match keep with
    | Some e => (0, Some e)
    | None =>
      let bitSize := if bitSize =? 0 then intSize else bitSize in
      let cutoff := uint64 (Z.shiftl 1 (bitSize - 1)) in
      if negb neg && (un >=? cutoff)
      then (int64 (cutoff - 1), Some (rangeError fnParseInt s0))
      else if neg && (un >? cutoff)
      then (int64 (- int64 cutoff), Some (rangeError fnParseInt s0))
      else
        let n := int64 un in
        ((if neg then int64 (- n) else n), None)
    end
  end.

(** The digit loop of the fast path of [Atoi]; [n] is the [int]
    accumulator. *)
Fixpoint atoiLoop (s0 : string) (n : Z) (s : string) : option Z :=
  match s with
  | EmptyString => Some n
  | String a rest =>
    let ch := (byte a - c_0) mod 256 in
    if ch >? 9 then None else atoiLoop s0 (int (n * 10 + ch)) rest
  end.

(** [strconv.Atoi(s)] *)
Definition Atoi (s : string) : Z * option error :=
  let sLen := len s in
  if ((intSize =? 32) && (0 <? sLen) && (sLen <? 10))
     || ((intSize =? 64) && (0 <? sLen) && (sLen <? 19)) then
    let s0 := s in
    match s with
    | EmptyString => (0, Some (syntaxError fnAtoi s0))
    | String a0 s1 =>
      let signed := (byte a0 =? c_minus) || (byte a0 =? c_plus) in
      let s := if signed then s1 else s in
      if signed && (len s <? 1) then (0, Some (syntaxError fnAtoi s0))
      else
        match atoiLoop s0 0 s with
        | None => (0, Some (syntaxError fnAtoi s0))
        | Some n => ((if byte a0 =? c_minus then int (- n) else n), None)
        end
    end
  else
    let '(i64, err) := ParseInt s 10 0 in
    (int i64,
     match err with
     | Some (NumError _ num e) => Some (NumError fnAtoi num e)
     | other => other
     end).

End Integers.

(** *** Booleans *)

(** [strconv.ParseBool(str)] *)
Definition ParseBool (str : string) : bool * option error :=
  if decide (str ∈ ["1"; "t"; "T"; "true"; "TRUE"; "True"]) then (true, None)
  else if decide (str ∈ ["0"; "f"; "F"; "false"; "FALSE"; "False"])
  then (false, None)
  else (false, Some (syntaxError fnParseBool str)).

(** *** Floating point

    [ParseFloat] accepts the special values, and decimal and hexadecimal
    literals in Go's syntax.  Its result is the float nearest to the literal
    under IEEE-754 round-to-nearest-even; the library reaches it through
    one of three algorithms (exact arithmetic, Eisel-Lemire, or the
    multi-precision [decimal] fallback), which are modelled by their common
    result: the exact rational value of the literal, rounded once. *)

(** [commonPrefixLenIgnoreCase(s, prefix)], [prefix] in lower case. *)
Fixpoint commonPrefixLenIgnoreCase (s pre : string) : Z :=
  match s, pre with
  | String a s', String b pre' =>
    let c := byte a in
    let c := if between 65 90 c then c + 32 else c in
    if c =? byte b then 1 + commonPrefixLenIgnoreCase s' pre' else 0
  | _, _ => 0
  end.

(** [special(s)]: an infinity or a NaN and the number of bytes it takes. *)
Definition special (s : string) : option (float64 * Z) :=
  match s with
  | EmptyString => None
  | String a s1 =>
    let c := byte a in
    let infinity (neg : bool) (nsign : Z) (s : string) :=
      let n := commonPrefixLenIgnoreCase s "infinity" in
      let n := if (3 <? n) && (n <? 8) then 3 else n in
      if (n =? 3) || (n =? 8) then Some (Inf neg, nsign + n) else None in
    if (c =? c_plus) || (c =? c_minus) then infinity (c =? c_minus) 1 s1
    else if lower c =? 105 then infinity false 0 s
    else if lower c =? 110 then
      if commonPrefixLenIgnoreCase s "nan" =? 3 then Some (NaN, 3) else None
    else None
  end.

(** The mantissa loop of [readFloat].  [mant] holds every digit read (the
    library keeps the first 19, or 16 in base 16, and a flag [trunc] for
    the rest); [nd] counts them and [dp] places the point. *)
Record mantissa := {
  m_mant : Z; m_nd : Z; m_dp : Z;
  m_sawdot : bool; m_sawdigits : bool; m_underscores : bool
}.

Fixpoint readMantissa (hex : bool) (m : mantissa) (s : string)
    : mantissa * string :=
  match s with
  | EmptyString => (m, s)
  | String a rest =>
    let c := byte a in
    if c =? c_underscore then
      readMantissa hex
        {| m_mant := m_mant m; m_nd := m_nd m; m_dp := m_dp m;
           m_sawdot := m_sawdot m; m_sawdigits := m_sawdigits m;
           m_underscores := true |} rest
    else if c =? c_dot then
      if m_sawdot m then (m, s)
      else
        readMantissa hex
          {| m_mant := m_mant m; m_nd := m_nd m; m_dp := m_nd m;
             m_sawdot := true; m_sawdigits := m_sawdigits m;
             m_underscores := m_underscores m |} rest
    else if between c_0 c_9 c then
      if (c =? c_0) && (m_nd m =? 0) then
        readMantissa hex
          {| m_mant := m_mant m; m_nd := m_nd m; m_dp := m_dp m - 1;
             m_sawdot := m_sawdot m; m_sawdigits := true;
             m_underscores := m_underscores m |} rest
      else
        readMantissa hex
          {| m_mant := m_mant m * (if hex then 16 else 10) + (c - c_0);
             m_nd := m_nd m + 1; m_dp := m_dp m;
             m_sawdot := m_sawdot m; m_sawdigits := true;
             m_underscores := m_underscores m |} rest
    else if hex && between c_a c_f (lower c) then
      readMantissa hex
        {| m_mant := m_mant m * 16 + (lower c - c_a + 10);
           m_nd := m_nd m + 1; m_dp := m_dp m;
           m_sawdot := m_sawdot m; m_sawdigits := true;
           m_underscores := m_underscores m |} rest
    else (m, s)
  end.

(** The digits of the exponent; past 10000 the value stops growing. *)
Fixpoint readExponent (e : Z) (underscores : bool) (s : string)
    : Z * bool * string :=
  match s with
  | EmptyString => (e, underscores, s)
  | String a rest =>
    let c := byte a in
    if c =? c_underscore then readExponent e true rest
    else if between c_0 c_9 c then
      readExponent (if e <? 10000 then e * 10 + (c - c_0) else e)
        underscores rest
    else (e, underscores, s)
  end.

(** What [readFloat] returns: the digits as an integer, the exponent of the
    base (10, or 2 for a hexadecimal literal), the sign, the number of bytes
    read and whether they form a literal. *)
Record floatLit := {
  fl_mantissa : Z; fl_exp : Z; fl_neg : bool; fl_hex : bool;
  fl_n : Z; fl_ok : bool
}.

Definition readFloat (s : string) : floatLit :=
  let stop (neg hex : bool) (rest : string) :=
    {| fl_mantissa := 0; fl_exp := 0; fl_neg := neg; fl_hex := hex;
       fl_n := len s - len rest; fl_ok := false |} in
  match s with
  | EmptyString => stop false false s
  | String a0 s1 =>
    let '(neg, t) :=
      if byte a0 =? c_plus then (false, s1)
      else if byte a0 =? c_minus then (true, s1)
      else (false, s) in
    let '(hex, t) :=
      match t with
      | String z (String x (String y r)) =>
        if (byte z =? c_0) && (lower (byte x) =? c_x)
        then (true, String y r) else (false, t)
      | _ => (false, t)
      end in
    let '(m, t) :=
      readMantissa hex
        {| m_mant := 0; m_nd := 0; m_dp := 0; m_sawdot := false;
           m_sawdigits := false; m_underscores := false |} t in
    if negb (m_sawdigits m) then stop neg hex t
    else
      let dp := if m_sawdot m then m_dp m else m_nd m in
      let '(dp, nd) := if hex then (dp * 4, m_nd m * 4) else (dp, m_nd m) in
      let finish (dp : Z) (underscores : bool) (rest : string) :=
        let i := len s - len rest in
        if underscores && negb (underscoreOK (prefix i s)) then
          {| fl_mantissa := m_mant m;
             fl_exp := if m_mant m =? 0 then 0 else dp - nd;
             fl_neg := neg; fl_hex := hex; fl_n := i; fl_ok := false |}
        else
          {| fl_mantissa := m_mant m;
             fl_exp := if m_mant m =? 0 then 0 else dp - nd;
             fl_neg := neg; fl_hex := hex; fl_n := i; fl_ok := true |} in
      match t with
      | String ae t1 =>
        if lower (byte ae) =? (if hex then c_p else c_e) then
          match t1 with
          | EmptyString => stop neg hex t1
          | String asgn t2 =>
            let '(esign, t3) :=
              if byte asgn =? c_plus then (1, t2)
              else if byte asgn =? c_minus then (-1, t2)
              else (1, t1) in
            match t3 with
            | String d _ =>
              if between c_0 c_9 (byte d) then
                let '(e, underscores, t4) :=
                  readExponent 0 (m_underscores m) t3 in
                finish (dp + e * esign) underscores t4
              else stop neg hex t3
            | EmptyString => stop neg hex t3
            end
          end
        else if hex then stop neg hex t
        else finish dp (m_underscores m) t
      | EmptyString =>
        if hex then stop neg hex t else finish dp (m_underscores m) t
      end
  end.

(** The float of precision [prec] and exponent bound [emax] nearest to
    [num / den * 2^e2], ties to even ([num >= 0], [den > 0]).  The
    quotient is taken with enough bits beyond the precision, and the
    remainder tells the rounding on which side of the half it lies. *)
Definition roundRatio (prec emax : Z) (neg : bool) (num den e2 : Z)
    : float64 :=
  if num <=? 0 then S754_zero neg
  else
    let s := Z.max 0 (Z.log2 den + prec + 3 - Z.log2 num) in
    let q := Z.shiftl num s / den in
    let r := Z.shiftl num s mod den in
    let l := if r =? 0 then loc_Exact else loc_Inexact (2 * r ?= den) in
    binary_round_aux prec emax neg q (e2 - s) l.

(** The float whose literal [readFloat] read. *)
Definition floatOfLit (prec emax : Z) (l : floatLit) : float64 :=
  if fl_hex l then roundRatio prec emax (fl_neg l) (fl_mantissa l) 1 (fl_exp l)
  else if 0 <=? fl_exp l
  then roundRatio prec emax (fl_neg l) (fl_mantissa l * 10 ^ fl_exp l) 1 0
  else roundRatio prec emax (fl_neg l) (fl_mantissa l) (10 ^ (- fl_exp l)) 0.

Definition isInf (f : float64) : bool :=
  match f with S754_infinity _ => true | _ => false end.

(** [atof64(s)] and [atof32(s)]: the value, the bytes read, the error. *)
Definition atof (prec emax : Z) (s : string) : float64 * Z * option error :=
  match special s with
  | Some (val, n) => (val, n, None)
  | None =>
    let l := readFloat s in
    if negb (fl_ok l) then
      (S754_zero false, fl_n l, Some (syntaxError fnParseFloat s))
    else
      let f := floatOfLit prec emax l in
      (f, fl_n l,
       if isInf f
       then Some (rangeError fnParseFloat
                    (if fl_hex l then prefix (fl_n l) s else s))
       else None)
  end.

(** [float64(f)] for a [float32] [f]: the same number in binary64. *)
Definition float64_of_float32 (f : float64) : float64 :=
  match f with
  | S754_finite neg m e =>
    binary_normalize 53 1024 (if neg then Z.neg m else Z.pos m) e neg
  | other => other
  end.

(** [strconv.ParseFloat(s, bitSize)] *)
Definition ParseFloat (s : string) (bitSize : Z) : float64 * option error :=
  let '(f, n, err) :=
    if bitSize =? 32 then
      let '(f, n, err) := atof 24 128 s in (float64_of_float32 f, n, err)
    else atof 53 1024 s in
  if negb (n =? len s)
     && match err with
        | None => true
        | Some (NumError _ _ ErrSyntax) => false
        | Some _ => true
        end
  then (S754_zero false, Some (syntaxError fnParseFloat s))
  else (f, err).

End strconv.

(** ** Types and values

    [ReadEnv] is generic in [T any].  The model carries a fragment of Go's
    types large enough to instantiate [T] with the five types the type
    switch names, with defined types over them ([type Port int]), with
    slices and structs (the unsupported types of the repository's tests)
    and with the empty interface. *)
Inductive GoType :=
| TInt
| TInt64
| TString
| TBool
| TFloat64
| TNamed (name : string) (underlying : GoType)
| TSlice (elem : GoType)
| TStruct (fields : list (string * GoType))
| TAny.

Inductive value :=
| VInt (n : Z)
| VInt64 (n : Z)
| VString (s : string)
| VBool (b : bool)
| VFloat64 (f : strconv.float64)
| VNamed (name : string) (v : value)
| VSlice (elem : GoType) (elems : option (list value))
| VStruct (fields : list (string * value))
| VAny (dyn : option value).

(** The static type of a value. *)
Fixpoint typeOf (v : value) : GoType :=
  match v with
  | VInt _ => TInt
  | VInt64 _ => TInt64
  | VString _ => TString
  | VBool _ => TBool
  | VFloat64 _ => TFloat64
  | VNamed name v => TNamed name (typeOf v)
  | VSlice elem _ => TSlice elem
  | VStruct fields => TStruct (map (fun f => (fst f, typeOf (snd f))) fields)
  | VAny _ => TAny
  end.

(** [var result T]: the zero value of [T]. *)
Fixpoint zero (T : GoType) : value :=
  match T with
  | TInt => VInt 0
  | TInt64 => VInt64 0
  | TString => VString EmptyString
  | TBool => VBool false
  | TFloat64 => VFloat64 (S754_zero false)
  | TNamed name u => VNamed name (zero u)
  | TSlice elem => VSlice elem None
  | TStruct fields => VStruct (map (fun f => (fst f, zero (snd f))) fields)
  | TAny => VAny None
  end.

(** Identity of types. *)
Fixpoint GoType_eqb (T U : GoType) : bool :=
  match T, U with
  | TInt, TInt | TInt64, TInt64 | TString, TString
  | TBool, TBool | TFloat64, TFloat64 | TAny, TAny => true
  | TNamed n t, TNamed m u => String.eqb n m && GoType_eqb t u
  | TSlice t, TSlice u => GoType_eqb t u
  | TStruct fs, TStruct gs =>
    (fix fields (fs gs : list (string * GoType)) : bool :=
       match fs, gs with
       | [], [] => true
       | (n, t) :: fs', (m, u) :: gs' =>
         String.eqb n m && GoType_eqb t u && fields fs' gs'
       | _, _ => false
       end) fs gs
  | _, _ => false
  end.

Fixpoint isInterface (T : GoType) : bool :=
  match T with
  | TAny => true
  | TNamed _ u => isInterface u
  | _ => false
  end.

Fixpoint isInterfaceValue (v : value) : bool :=
  match v with
  | VAny _ => true
  | VNamed _ u => isInterfaceValue u
  | _ => false
  end.

(** [any(v)]: the dynamic value an interface holds after the conversion,
    [None] for the nil interface.  Converting an interface value keeps
    what it holds. *)
Fixpoint dynamic (v : value) : option value :=
  match v with
  | VAny None => None
  | VAny (Some d) => dynamic d
  | VNamed _ u => if isInterfaceValue u then dynamic u else Some v
  | _ => Some v
  end.

(** The type a type switch [switch any(v).(type)] compares its cases to. *)
Definition dynamicType (v : value) : option GoType := typeOf <$> dynamic v.

(** A dynamic value [d] as a value of the interface type [T]. *)
Fixpoint boxed (T : GoType) (d : value) : value :=
  match T with
  | TNamed name u => VNamed name (boxed u d)
  | _ => VAny (Some d)
  end.

(** The type assertion [any(v).(T)]: [None] is the run-time panic of a
    failed assertion.  An interface [T] here has no methods, so every
    non-nil value satisfies it. *)
Definition typeAssert (v : value) (T : GoType) : option value :=
  match dynamic v with
  | None => None
  | Some d =>
    if isInterface T then Some (boxed T d)
    else if GoType_eqb (typeOf d) T then Some d
    else None
  end.

(** [reflect.Type.String]: the name the verb [%T] prints. *)
Fixpoint typeString (T : GoType) : string :=
  match T with
  | TInt => "int"
  | TInt64 => "int64"
  | TString => "string"
  | TBool => "bool"
  | TFloat64 => "float64"
  | TNamed name _ => name
  | TSlice elem => "[]" +:+ typeString elem
  | TStruct fields =>
    match fields with
    | [] => "struct {}"
    | f :: fs =>
      "struct { " +:+ fst f +:+ " " +:+ typeString (snd f)
      +:+ (fix rest (fs : list (string * GoType)) : string :=
             match fs with
             | [] => EmptyString
             | g :: gs =>
               "; " +:+ fst g +:+ " " +:+ typeString (snd g) +:+ rest gs
             end) fs
      +:+ " }"
    end
  | TAny => "interface {}"
  end.

(** ** Package errors *)
Module errors.

(** [errors.Unwrap(err)] *)
Definition Unwrap (err : error) : option error :=
  match err with
  | NumError _ _ e => Some e
  | wrapError _ e => Some e
  | _ => None
  end.

(** [err == target] on errors.  Errors are pointers; the model tells the
    two package-level sentinels apart from each other and from every
    allocated error, which is all a caller of [ReadEnv] can compare with. *)
Definition same (err target : error) : bool :=
  match err, target with
  | ErrSyntax, ErrSyntax | ErrRange, ErrRange => true
  | _, _ => false
  end.

(** [errors.Is(err, target)]: [target] is met along the [Unwrap] chain. *)
Fixpoint Is (err target : error) : bool :=
  same err target
  || match err with
     | NumError _ _ e | wrapError _ e => Is e target
     | _ => false
     end.

End errors.

(** ** Package fmt *)
Module fmt.
Section Errorf.
Context `{Platform}.

(** The method [Error()] of each kind of error. *)
Fixpoint Error (e : error) : string :=
  match e with
  | ErrSyntax => "invalid syntax"
  | ErrRange => "value out of range"
  | errorString s => s
  | NumError fn num err =>
    "strconv." +:+ fn +:+ ": " +:+ "parsing " +:+ strconv.Quote num
    +:+ ": " +:+ Error err
  | wrapError msg _ => msg
  end.

(** A format with its operands in place: literal text, [%q] of a string,
    [%w] of an error, [%T] of a value. *)
Variant piece :=
| Lit (s : string)
| Q (s : string)
| W (err : error)
| T (v : value).

(** [%T]: the dynamic type of the operand, [<nil>] for a nil interface. *)
Definition verbT (v : value) : string :=
  match dynamic v with
  | None => "<nil>"
  | Some d => typeString (typeOf d)
  end.

Fixpoint Sprint (format : list piece) : string :=
  match format with
  | [] => EmptyString
  | Lit s :: ps => s +:+ Sprint ps
  | Q s :: ps => strconv.Quote s +:+ Sprint ps
  | W err :: ps => Error err +:+ Sprint ps
  | T v :: ps => verbT v +:+ Sprint ps
  end.

Definition wrapped (format : list piece) : list error :=
  omap (fun p => match p with W err => Some err | _ => None end) format.

(** [fmt.Errorf]: without [%w] the error is a plain message, with one
    [%w] it wraps the operand.  (More than one [%w] builds a
    [*fmt.wrapErrors], which the repository never does; the model keeps the
    first.) *)
Definition Errorf (format : list piece) : error :=
  match wrapped format with
  | [] => errorString (Sprint format)
  | err :: _ => wrapError (Sprint format) err
  end.

End Errorf.
End fmt.

(** ** Package os *)
Module os.

(** The environment of the process: a table from names to values. *)
Abbreviation Environ := (gmap string string).

(** [os.LookupEnv(key)] *)
Definition LookupEnv (env : Environ) (key : string) : option string :=
  if decide (key = EmptyString) then None else env !! key.

(** [os.Getenv(key)]: the value, empty when the variable is not present. *)
Definition Getenv (env : Environ) (key : string) : string :=
  default EmptyString (LookupEnv env key).

(** [syscall.EINVAL], the one error that setting a variable can meet, and
    the [*os.SyscallError] that [os.Setenv] wraps it in. *)
Variant Errno := EINVAL.
Record SyscallError := { Syscall : string; Err : Errno }.

(** No byte of [s] is [b]. *)
Fixpoint without (b : Z) (s : string) : bool :=
  match s with
  | EmptyString => true
  | String a rest => negb (byte a =? b) && without b rest
  end.

(** The names [syscall.Setenv] takes: not empty, with no [=] and no NUL. *)
Definition validKey (key : string) : bool :=
  negb (len key =? 0) && without 61 key && without 0 key.

(** [os.Setenv(key, value)] (on a system other than Plan 9, where a value
    may hold no NUL either): the environment after the call and the error
    returned. *)
Definition Setenv (env : Environ) (key value : string)
    : Environ * option SyscallError :=
  if negb (validKey key) then
    (env, Some {| Syscall := "setenv"; Err := EINVAL |})
  else if negb (without 0 value) then
    (env, Some {| Syscall := "setenv"; Err := EINVAL |})
  else (<[key := value]> env, None).

(** [os.Unsetenv(key)]: it cannot fail. *)
Definition Unsetenv (env : Environ) (key : string) : Environ :=
  delete key env.

End os.

(** ** Executions

    A run of [ReadEnv] either returns or panics, and on the way it calls
    into [os] and [strconv].  [Exec A] records both: the calls made, in
    order, and the result ([None] for a panic). *)
Variant call :=
| CallGetenv (key : string)
| CallAtoi (s : string)
| CallParseInt (s : string) (base bitSize : Z)
| CallParseBool (s : string)
| CallParseFloat (s : string) (bitSize : Z).

Definition Exec (A : Type) : Type := list call * option A.

Definition panic {A} : Exec A := ([], None).
Definition calling {A} (c : call) (a : A) : Exec A := ([c], Some a).
Definition calls {A} (m : Exec A) : list call := fst m.
Definition result {A} (m : Exec A) : option A := snd m.

#[export] Instance Exec_ret : MRet Exec := fun A a => ([], Some a).
#[export] Instance Exec_bind : MBind Exec := fun A B k m =>
  match m with
  | (cs, None) => (cs, None)
  | (cs, Some a) => let '(cs', b) := k a in (cs ++ cs', b)
  end.

(** ** Package envreader: the repository *)
Module envreader.
Section ReadEnv.
Context `{Platform}.
Variable env : os.Environ.

Definition Getenv (key : string) : Exec string :=
  calling (CallGetenv key) (os.Getenv env key).
Definition Atoi (s : string) : Exec (Z * option error) :=
  calling (CallAtoi s) (strconv.Atoi s).
Definition ParseInt (s : string) (base bitSize : Z) : Exec (Z * option error) :=
  calling (CallParseInt s base bitSize) (strconv.ParseInt s base bitSize).
Definition ParseBool (s : string) : Exec (bool * option error) :=
  calling (CallParseBool s) (strconv.ParseBool s).
Definition ParseFloat (s : string) (bitSize : Z)
    : Exec (strconv.float64 * option error) :=
  calling (CallParseFloat s bitSize) (strconv.ParseFloat s bitSize).

(** [any(v).(T)] in an execution. *)
Definition assertT (v : value) (T : GoType) : Exec value :=
  match typeAssert v T with
  | Some v => mret v
  | None => panic
  end.

(** [func ReadEnv[T any](key string, defaultValue T) (T, error)] *)
Definition ReadEnv (T : GoType) (key : string) (defaultValue : value)
    : Exec (value * option error) :=
  envValue ← Getenv key;
  if decide (envValue = EmptyString) then mret (defaultValue, None)
  else
    let result := zero T in
    match dynamicType result with
    | Some TInt =>
      '(val, err) ← Atoi envValue;
      match err with
      | Some err =>
        mret (defaultValue,
             Some (fmt.Errorf [fmt.Lit "failed to convert "; fmt.Q envValue;
                               fmt.Lit " to int: "; fmt.W err]))
      | None => v ← assertT (VInt val) T; mret (v, None)
      end
    | Some TInt64 =>
      '(val, err) ← ParseInt envValue 10 64;
      match err with
      | Some err =>
        mret (defaultValue,
             Some (fmt.Errorf [fmt.Lit "failed to convert "; fmt.Q envValue;
                               fmt.Lit " to int64: "; fmt.W err]))
      | None => v ← assertT (VInt64 val) T; mret (v, None)
      end
    | Some TString =>
      v ← assertT (VString envValue) T; mret (v, None)
    | Some TBool =>
      '(val, err) ← ParseBool envValue;
      match err with
      | Some err =>
        mret (defaultValue,
             Some (fmt.Errorf [fmt.Lit "failed to convert "; fmt.Q envValue;
                               fmt.Lit " to bool: "; fmt.W err]))
      | None => v ← assertT (VBool val) T; mret (v, None)
      end
    | Some TFloat64 =>
      '(val, err) ← ParseFloat envValue 64;
      match err with
      | Some err =>
        mret (defaultValue,
             Some (fmt.Errorf [fmt.Lit "failed to convert "; fmt.Q envValue;
                               fmt.Lit " to float64: "; fmt.W err]))
      | None => v ← assertT (VFloat64 val) T; mret (v, None)
      end
    | _ =>
      mret (defaultValue,
           Some (fmt.Errorf
                   [fmt.Lit "unsupported type for environment variable conversion: ";
                    fmt.T defaultValue]))
    end.

End ReadEnv.
End envreader.

(** ** Vocabulary of the specification *)

(** The types the type switch of [ReadEnv] names. *)
Definition supported (T : GoType) : bool :=
  match T with
  | TInt | TInt64 | TString | TBool | TFloat64 => true
  | _ => false
  end.

(** The supported types that are parsed (every one but [string]). *)
Definition parseable (T : GoType) : bool :=
  match T with
  | TInt | TInt64 | TBool | TFloat64 => true
  | _ => false
  end.

(** The variable is absent from the environment, or present and empty. *)
Definition unsetOrEmpty (env : os.Environ) (key : string) : Prop :=
  os.LookupEnv env key = None \/ os.LookupEnv env key = Some EmptyString.

(** What [strconv] answers for a raw string at a parseable type: the value
    it parsed, and its error. *)
Definition strconvParse `{Platform} (T : GoType) (raw : string)
    : option (value * option error) :=
  match T with
  | TInt => let '(n, e) := strconv.Atoi raw in Some (VInt n, e)
  | TInt64 => let '(n, e) := strconv.ParseInt raw 10 64 in Some (VInt64 n, e)
  | TBool => let '(b, e) := strconv.ParseBool raw in Some (VBool b, e)
  | TFloat64 =>
    let '(f, e) := strconv.ParseFloat raw 64 in Some (VFloat64 f, e)
  | _ => None
  end.

(** The [strconv] call [ReadEnv] makes for a raw value at type [T]. *)
Definition strconvCall (T : GoType) (raw : string) : list call :=
  match T with
  | TInt => [CallAtoi raw]
  | TInt64 => [CallParseInt raw 10 64]
  | TBool => [CallParseBool raw]
  | TFloat64 => [CallParseFloat raw 64]
  | _ => []
  end.

(** A value [v] read from [raw] at the supported type [T]: [raw] itself
    for a string, what [strconv] parsed without error otherwise. *)
Definition parsedFrom `{Platform} (T : GoType) (raw : string) (v : value)
    : Prop :=
  match T with
  | TString => v = VString raw
  | _ => strconvParse T raw = Some (v, None)
  end.

(** The number a string of decimal digits writes after [acc], [None] when
    a byte is not a digit. *)
Fixpoint digitsValue (acc : Z) (s : string) : option Z :=
  match s with
  | EmptyString => Some acc
  | String a rest =>
    if between c_0 c_9 (byte a)
    then digitsValue (acc * 10 + (byte a - c_0)) rest
    else None
  end.

(** The integer a decimal numeral writes: an optional sign and at least
    one digit.  This is what a well-formed raw value of an integer type
    denotes, whatever its size. *)
Definition decimalValue (s : string) : option Z :=
  match s with
  | EmptyString => None
  | String a rest =>
    if (byte a =? c_plus) || (byte a =? c_minus) then
      match rest with
      | EmptyString => None
      | _ => (if byte a =? c_minus then Z.opp else id) <$> digitsValue 0 rest
      end
    else digitsValue 0 s
  end.

(** The integers of a signed type of [bits] bits, and the nearest of them
    to an integer outside. *)
Definition inRange (bits n : Z) : Prop :=
  - 2 ^ (bits - 1) <= n < 2 ^ (bits - 1).

Definition clamp (bits n : Z) : Z :=
  if n <? 0 then - 2 ^ (bits - 1) else 2 ^ (bits - 1) - 1.

(** The width [ParseInt] works at for an argument [bitSize]. *)
Definition bitsOf `{Platform} (bitSize : Z) : Z :=
  if bitSize =? 0 then intSize else bitSize.

(** The condition under which [Atoi] takes its fast path. *)
Definition atoiFast `{Platform} (s : string) : bool :=
  ((intSize =? 32) && (0 <? len s) && (len s <? 10))
  || ((intSize =? 64) && (0 <? len s) && (len s <? 19)).

(** The messages of the two errors, as the specification words them:
    the raw value between double quotes, and the name of the type. *)
Definition doubleQuoted (raw : string) : string :=
  str1 c_dquote +:+ raw +:+ str1 c_dquote.

Definition conversionMessage (quoted tname cause : string) : string :=
  "failed to convert " +:+ quoted +:+ " to " +:+ tname +:+ ": " +:+ cause.

(** The message of a [NumError]: the function, the quoted input, and
    the message of the sentinel. *)
Definition parseMessage (fn quoted reason : string) : string :=
  "strconv." +:+ fn +:+ ": parsing " +:+ quoted +:+ ": " +:+ reason.

Definition unsupportedMessage (tname : string) : string :=
  "unsupported type for environment variable conversion: " +:+ tname.

(** A byte [Quote] copies as it is: printable ASCII other than the double
    quote and the backslash. *)
Definition plainByte (b : Z) : bool :=
  between 32 126 b && negb (b =? c_dquote) && negb (b =? c_backslash).

Fixpoint plain (s : string) : bool :=
  match s with
  | EmptyString => true
  | String a rest => plainByte (byte a) && plain rest
  end.

(** The literals of the boolean grammar. *)
Definition trueLiterals : list string :=
  ["1"; "t"; "T"; "true"; "TRUE"; "True"].
Definition falseLiterals : list string :=
  ["0"; "f"; "F"; "false"; "FALSE"; "False"].

(** A 64-bit platform on which to run the model.  Its table of printable
    runes above Latin-1 is empty: the inputs run below are ASCII, for
    which [Quote] never consults it. *)
Definition amd64 : Platform :=
  {| intWidth := W64; isPrintTable := fun _ => false |}.

(** An environment in the style of the repository's tests. *)
Definition testEnv : os.Environ :=
  <["TEST_INT" := "123"]>
  (<["TEST_INT64" := "9223372036854775807"]>
  (<["TEST_STRING" := "hello_world"]>
  (<["TEST_BOOL" := "true"]>
  (<["TEST_FLOAT" := "3.14"]>
  (<["TEST_EMPTY" := EmptyString]>
  (<["TEST_INVALID_INT" := "abc"]>
  (<["TEST_INVALID_BOOL" := "not_a_bool"]>
  (<["TEST_BIG_INT64" := "9223372036854775808"]>
  (<["TEST_STRUCT" := "{}"]> ∅))))))))).

(** A raw value with a double quote in it: the three bytes [a], double
    quote, [b]. *)
Definition quotedRaw : string := "a" +:+ str1 c_dquote +:+ "b".

(** The default values of the two unsupported types of the tests. *)
Definition structType : GoType := TStruct [("Name", TString)].
Definition structDefault : value := VStruct [("Name", VString "default")].
Definition sliceDefault : value := VSlice TInt (Some [VInt 10; VInt 20]).

(** The same variable holding [quotedRaw]. *)
Definition quotedEnv : os.Environ := {[ "TEST_INVALID_INT" := quotedRaw ]}.

(** The [float64] that Go's constant [3.14] denotes: the bits
    [0x40091EB851EB851F], that is [7070651414971679 * 2^-51]. *)
Definition float64_3_14 : strconv.float64 :=
  S754_finite false 7070651414971679 (-51).

(** [f] is a positive normal [float64] within half a unit in the last
    place of the rational [num / den]. *)
Definition nearestFloat64 (num den : Z) (f : strconv.float64) : Prop :=
  match f with
  | S754_finite false m e =>
    2 ^ 52 <= Z.pos m < 2 ^ 53 /\ e < 0
    /\ 2 * Z.abs (num * 2 ^ (- e) - den * Z.pos m) <= den
  | _ => False
  end.

(** A parser error of [strconv]: a [NumError] for function [fn] on input
    [s] that holds one of the two sentinels. *)
Definition numErrorOf (fn s : string) (e : error) : Prop :=
  e = strconv.syntaxError fn s \/ e = strconv.rangeError fn s.


(** ** Package reflect *)
Module reflect.

(** [reflect.DeepEqual] on two values of one type.  Floats are compared
    with [==], so a NaN differs from itself and the two zeros are equal; a
    nil slice differs from an empty one.  (The library also answers true
    at once for two slices that share their first element and length;
    sharing is not part of a [value], and on slices of integers it makes
    no difference.) *)
Fixpoint deepValueEqual (v w : value) : bool :=
  match v, w with
  | VInt n, VInt m => n =? m
  | VInt64 n, VInt64 m => n =? m
  | VString s, VString t => String.eqb s t
  | VBool b, VBool c => Bool.eqb b c
  | VFloat64 f, VFloat64 g => SFeqb f g
  | VNamed _ v', VNamed _ w' => deepValueEqual v' w'
  | VSlice _ None, VSlice _ None => true
  | VSlice _ (Some xs), VSlice _ (Some ys) =>
    (fix elems (xs ys : list value) : bool :=
       match xs, ys with
       | [], [] => true
       | x :: xs', y :: ys' => deepValueEqual x y && elems xs' ys'
       | _, _ => false
       end) xs ys
  | VStruct fs, VStruct gs =>
    (fix fields (fs gs : list (string * value)) : bool :=
       match fs, gs with
       | [], [] => true
       | f :: fs', g :: gs' =>
         deepValueEqual (snd f) (snd g) && fields fs' gs'
       | _, _ => false
       end) fs gs
  | VAny None, VAny None => true
  | VAny (Some v'), VAny (Some w') =>
    GoType_eqb (typeOf v') (typeOf w') && deepValueEqual v' w'
  | _, _ => false
  end.

(** [reflect.DeepEqual(x, y)] on two interface values: the same dynamic
    type and deeply equal contents, or both nil. *)
Definition DeepEqual (x y : value) : bool :=
  match dynamic x, dynamic y with
  | None, None => true
  | Some v, Some w => GoType_eqb (typeOf v) (typeOf w) && deepValueEqual v w
  | _, _ => false
  end.

End reflect.

(** ** Package envreader: the test

    [TestReadEnv] runs a table of cases one after the other in the
    environment of the process: each case sets or unsets its variable,
    calls [ReadEnv] at the type of its default, and checks the value and
    the error.  The model threads the environment through the cases and
    collects, for every check that fails, which one it was; the text of
    the failure messages is left out. *)
Module envreader_test.

(** One row of the table. *)
Record testCase := {
  name : string;
  envKey : string;
  envValue : string;
  setEnv : bool;
  defaultValue : value;
  expectedVal : value;
  expectedErr : option error;
  expectedErrString : string
}.

(** The failures a case can report, by the call that reports them. *)
Variant failure :=
| SetupError             (* t.Fatalf, line 296 *)
| WrongValue             (* t.Errorf, line 303 *)
| MissingError           (* t.Errorf, line 309 *)
| WrongCause             (* t.Errorf, line 314 *)
| WrongMessage           (* t.Errorf, line 318 *)
| WrongFallbackMessage   (* t.Errorf, line 322 *)
| UnexpectedError        (* t.Errorf, line 328 *)
| Panicked.              (* a panic inside ReadEnv *)

(** The [float64] a decimal constant [num / den] of the source denotes:
    constants are exact, and converting one rounds it to nearest even. *)
Definition constFloat64 (num den : Z) : value :=
  VFloat64 (strconv.roundRatio 53 1024 false num den 0).

(** A value stored in a field of type [interface{}]. *)
Definition iface (v : value) : value := VAny (Some v).

Definition structNamed (s : string) : value := VStruct [("Name", VString s)].
Definition sliceOf (ns : list Z) : value := VSlice TInt (Some (VInt <$> ns)).

Section Test.
Context `{Platform}.

(** Lines 27 to 264: the table.  [%T] of the zero struct and of the empty
    slice give the two expected unsupported-type errors. *)
Definition unsupportedErr (zeroValue : value) : error :=
  fmt.Errorf
    [fmt.Lit "unsupported type for environment variable conversion: ";
     fmt.T zeroValue].

Definition tests : list testCase := [
  {| name := "Int_EnvExists_ValidValue"; envKey := "TEST_INT";
     envValue := "123"; setEnv := true;
     defaultValue := iface (VInt 0); expectedVal := iface (VInt 123);
     expectedErr := None; expectedErrString := EmptyString |};
  {| name := "Int_EnvNotExists"; envKey := "NON_EXISTENT_INT";
     envValue := EmptyString; setEnv := false;
     defaultValue := iface (VInt 456); expectedVal := iface (VInt 456);
     expectedErr := None; expectedErrString := EmptyString |};
  {| name := "Int_EnvExists_EmptyValue"; envKey := "TEST_EMPTY";
     envValue := EmptyString; setEnv := true;
     defaultValue := iface (VInt 789); expectedVal := iface (VInt 789);
     expectedErr := None; expectedErrString := EmptyString |};
  {| name := "Int_EnvExists_InvalidValue"; envKey := "TEST_INVALID_INT";
     envValue := "abc"; setEnv := true;
     defaultValue := iface (VInt 10); expectedVal := iface (VInt 10);
     expectedErr := Some ErrSyntax;
     expectedErrString :=
       conversionMessage (doubleQuoted "abc") "int"
         (parseMessage "Atoi" (doubleQuoted "abc") "invalid syntax") |};
  {| name := "Int_NegativeValue"; envKey := "TEST_INT";
     envValue := "-50"; setEnv := true;
     defaultValue := iface (VInt 0); expectedVal := iface (VInt (-50));
     expectedErr := None; expectedErrString := EmptyString |};
  {| name := "Int64_EnvExists_ValidValue"; envKey := "TEST_INT64";
     envValue := "9876543210"; setEnv := true;
     defaultValue := iface (VInt64 0);
     expectedVal := iface (VInt64 9876543210);
     expectedErr := None; expectedErrString := EmptyString |};
  {| name := "Int64_EnvNotExists"; envKey := "NON_EXISTENT_INT64";
     envValue := EmptyString; setEnv := false;
     defaultValue := iface (VInt64 12345);
     expectedVal := iface (VInt64 12345);
     expectedErr := None; expectedErrString := EmptyString |};
  {| name := "Int64_EnvExists_EmptyValue"; envKey := "TEST_EMPTY";
     envValue := EmptyString; setEnv := true;
     defaultValue := iface (VInt64 54321);
     expectedVal := iface (VInt64 54321);
     expectedErr := None; expectedErrString := EmptyString |};
  {| name := "Int64_EnvExists_InvalidValue"; envKey := "TEST_INVALID_INT64";
     envValue := "xyz"; setEnv := true;
     defaultValue := iface (VInt64 99); expectedVal := iface (VInt64 99);
     expectedErr := Some ErrSyntax;
     expectedErrString :=
       conversionMessage (doubleQuoted "xyz") "int64"
         (parseMessage "ParseInt" (doubleQuoted "xyz") "invalid syntax") |};
  {| name := "Int64_MaxPositiveValue"; envKey := "TEST_INT64";
     envValue := "9223372036854775807"; setEnv := true;
     defaultValue := iface (VInt64 0);
     expectedVal := iface (VInt64 9223372036854775807);
     expectedErr := None; expectedErrString := EmptyString |};
  {| name := "String_EnvExists_ValidValue"; envKey := "TEST_STRING";
     envValue := "hello_world"; setEnv := true;
     defaultValue := iface (VString "default");
     expectedVal := iface (VString "hello_world");
     expectedErr := None; expectedErrString := EmptyString |};
  {| name := "String_EnvNotExists"; envKey := "NON_EXISTENT_STRING";
     envValue := EmptyString; setEnv := false;
     defaultValue := iface (VString "fallback");
     expectedVal := iface (VString "fallback");
     expectedErr := None; expectedErrString := EmptyString |};
  {| name := "String_EnvExists_EmptyValue"; envKey := "TEST_EMPTY";
     envValue := EmptyString; setEnv := true;
     defaultValue := iface (VString "empty_default");
     expectedVal := iface (VString "empty_default");
     expectedErr := None; expectedErrString := EmptyString |};
  {| name := "Bool_EnvExists_True"; envKey := "TEST_BOOL";
     envValue := "true"; setEnv := true;
     defaultValue := iface (VBool false); expectedVal := iface (VBool true);
     expectedErr := None; expectedErrString := EmptyString |};
  {| name := "Bool_EnvExists_False"; envKey := "TEST_BOOL";
     envValue := "false"; setEnv := true;
     defaultValue := iface (VBool true); expectedVal := iface (VBool false);
     expectedErr := None; expectedErrString := EmptyString |};
  {| name := "Bool_EnvNotExists"; envKey := "NON_EXISTENT_BOOL";
     envValue := EmptyString; setEnv := false;
     defaultValue := iface (VBool true); expectedVal := iface (VBool true);
     expectedErr := None; expectedErrString := EmptyString |};
  {| name := "Bool_EnvExists_EmptyValue"; envKey := "TEST_EMPTY";
     envValue := EmptyString; setEnv := true;
     defaultValue := iface (VBool true); expectedVal := iface (VBool true);
     expectedErr := None; expectedErrString := EmptyString |};
  {| name := "Bool_EnvExists_InvalidValue"; envKey := "TEST_INVALID_BOOL";
     envValue := "not_a_bool"; setEnv := true;
     defaultValue := iface (VBool true); expectedVal := iface (VBool true);
     expectedErr := Some ErrSyntax;
     expectedErrString :=
       conversionMessage (doubleQuoted "not_a_bool") "bool"
         (parseMessage "ParseBool" (doubleQuoted "not_a_bool")
            "invalid syntax") |};
  {| name := "Float64_EnvExists_ValidValue"; envKey := "TEST_FLOAT";
     envValue := "3.14"; setEnv := true;
     defaultValue := iface (constFloat64 0 1);
     expectedVal := iface (constFloat64 314 100);
     expectedErr := None; expectedErrString := EmptyString |};
  {| name := "Float64_EnvNotExists"; envKey := "NON_EXISTENT_FLOAT";
     envValue := EmptyString; setEnv := false;
     defaultValue := iface (constFloat64 123 100);
     expectedVal := iface (constFloat64 123 100);
     expectedErr := None; expectedErrString := EmptyString |};
  {| name := "Float64_EnvExists_EmptyValue"; envKey := "TEST_EMPTY";
     envValue := EmptyString; setEnv := true;
     defaultValue := iface (constFloat64 999 100);
     expectedVal := iface (constFloat64 999 100);
     expectedErr := None; expectedErrString := EmptyString |};
  {| name := "Float64_EnvExists_InvalidValue"; envKey := "TEST_INVALID_FLOAT";
     envValue := "not_a_float"; setEnv := true;
     defaultValue := iface (constFloat64 55 10);
     expectedVal := iface (constFloat64 55 10);
     expectedErr := Some ErrSyntax;
     expectedErrString :=
       conversionMessage (doubleQuoted "not_a_float") "float64"
         (parseMessage "ParseFloat" (doubleQuoted "not_a_float")
            "invalid syntax") |};
  {| name := "UnsupportedType_Struct"; envKey := "TEST_STRUCT";
     envValue := "{}"; setEnv := true;
     defaultValue := iface (structNamed "default");
     expectedVal := iface (structNamed "default");
     expectedErr := Some (unsupportedErr (structNamed EmptyString));
     expectedErrString :=
       "unsupported type for environment variable conversion: struct { Name string }" |};
  {| name := "UnsupportedType_Slice"; envKey := "TEST_SLICE";
     envValue := "1,2,3"; setEnv := true;
     defaultValue := iface (sliceOf [10; 20]);
     expectedVal := iface (sliceOf [10; 20]);
     expectedErr := Some (unsupportedErr (sliceOf []));
     expectedErrString :=
       "unsupported type for environment variable conversion: []int" |}
].

(** Lines 276 to 297: the type switch on the default, calling [ReadEnv]
    at the type of the case.  [None] is the [t.Fatalf] of the default
    case. *)
Definition callReadEnv (env : os.Environ) (tc : testCase)
    : option (Exec (value * option error)) :=
  match dynamic (defaultValue tc) with
  | None => None
  | Some def =>
    match typeOf def with
    | TInt => Some (envreader.ReadEnv env TInt (envKey tc) def)
    | TInt64 => Some (envreader.ReadEnv env TInt64 (envKey tc) def)
    | TString => Some (envreader.ReadEnv env TString (envKey tc) def)
    | TBool => Some (envreader.ReadEnv env TBool (envKey tc) def)
    | TFloat64 => Some (envreader.ReadEnv env TFloat64 (envKey tc) def)
    | U =>
      if GoType_eqb U structType
      then Some (envreader.ReadEnv env structType (envKey tc) def)
      else if GoType_eqb U (TSlice TInt)
      then Some (envreader.ReadEnv env (TSlice TInt) (envKey tc) def)
      else None
    end
  end.

(** Lines 299 to 304: the check of the value. *)
Definition checkValue (tc : testCase) (actualVal : value) : list failure :=
  if negb (reflect.DeepEqual actualVal (expectedVal tc))
  then [WrongValue] else [].

(** Lines 306 to 330: the check of the error. *)
Definition checkError (tc : testCase) (actualErr : option error)
    : list failure :=
  match expectedErr tc with
  | Some expected =>
    match actualErr with
    | None => [MissingError]
    | Some actual =>
      if errors.Is expected ErrSyntax || errors.Is expected ErrRange then
        if negb (errors.Is actual expected) then [WrongCause] else []
      else if negb (String.eqb (expectedErrString tc) EmptyString) then
        if negb (String.eqb (fmt.Error actual) (expectedErrString tc))
        then [WrongMessage] else []
      else
        if negb (String.eqb (fmt.Error actual) (fmt.Error expected))
        then [WrongFallbackMessage] else []
    end
  | None =>
    match actualErr with
    | Some _ => [UnexpectedError]
    | None => []
    end
  end.

(** Lines 268 to 274: the case sets its variable, or unsets it. *)
Definition prepare (env : os.Environ) (tc : testCase) : os.Environ :=
  if setEnv tc then fst (os.Setenv env (envKey tc) (envValue tc))
  else os.Unsetenv env (envKey tc).

(** Lines 267 to 331: one case, from the environment the cases before it
    left. *)
Definition runCase (env : os.Environ) (tc : testCase)
    : os.Environ * list failure :=
  let env := prepare env tc in
  (env,
   match callReadEnv env tc with
   | None => [SetupError]
   | Some run =>
     match result run with
     | None => [Panicked]
     | Some (actualVal, actualErr) =>
       checkValue tc (iface actualVal) ++ checkError tc actualErr
     end
   end).

(** Lines 266 to 332: the cases in order, each failure with the name of
    its case. *)
Fixpoint runCases (env : os.Environ) (tcs : list testCase)
    : os.Environ * list (string * failure) :=
  match tcs with
  | [] => (env, [])
  | tc :: rest =>
    let '(env, fs) := runCase env tc in
    let '(env, gs) := runCases env rest in
    (env, (pair (name tc) <$> fs) ++ gs)
  end.

(** Lines 14 to 25: what [t.Cleanup] unsets when the test is over. *)
Definition cleaned : list string :=
  ["TEST_INT"; "TEST_INT64"; "TEST_STRING"; "TEST_BOOL"; "TEST_FLOAT";
   "TEST_EMPTY"; "TEST_INVALID_INT"; "TEST_INVALID_INT64";
   "TEST_INVALID_BOOL"; "TEST_INVALID_FLOAT"].

Definition cleanup (env : os.Environ) : os.Environ :=
  foldl os.Unsetenv env cleaned.

(** [func TestReadEnv(t *testing.T)]: the environment the test leaves and
    the failures it reported. *)
Definition TestReadEnv (env : os.Environ)
    : os.Environ * list (string * failure) :=
  let '(env, fs) := runCases env tests in
  (cleanup env, fs).

End Test.
End envreader_test.

(** ** Vocabulary of the further properties *)

(** A call of [os.Getenv] in the trace of a run. *)
Definition isGetenv (c : call) : bool :=
  match c with CallGetenv _ => true | _ => false end.

(** The raw values a type reads without error: any string for [string],
    a decimal numeral within the range of the type for the integers, a
    literal of the boolean grammar for [bool], and what [ParseFloat]
    takes for [float64]; none for a type the switch does not name. *)
Definition wellFormed `{Platform} (T : GoType) (raw : string) : Prop :=
  match T with
  | TString => True
  | TInt => exists n, decimalValue raw = Some n /\ inRange intSize n
  | TInt64 => exists n, decimalValue raw = Some n /\ inRange 64 n
  | TBool => raw ∈ trueLiterals \/ raw ∈ falseLiterals
  | TFloat64 => snd (strconv.ParseFloat raw 64) = None
  | _ => False
  end.

(** [s] after [k] zeros. *)
Fixpoint zeros (k : nat) (s : string) : string :=
  match k with
  | O => s
  | S k' => String (char c_0) (zeros k' s)
  end.

(** A string with its ASCII capitals in lower case. *)
Definition lowerByte (b : Z) : Z := if between 65 90 b then b + 32 else b.

Fixpoint toLower (s : string) : string :=
  match s with
  | EmptyString => EmptyString
  | String a rest => String (char (lowerByte (byte a))) (toLower rest)
  end.

(** Every byte of [s] satisfies [p]. *)
Fixpoint allBytes (p : Z -> bool) (s : string) : bool :=
  match s with
  | EmptyString => true
  | String a rest => p (byte a) && allBytes p rest
  end.

(** The bytes from [+] up: above the blanks, the controls and the quotes. *)
Definition fromPlus (b : Z) : bool := c_plus <=? b.

(** [s] is [rest] after bytes from [+] up: what a scanner that went from
    [s] to [rest] read. *)
Definition consumes (s rest : string) : Prop :=
  allBytes fromPlus rest = true -> allBytes fromPlus s = true.

(** A case of the test whose [os.Setenv], if it has one, succeeds. *)
Definition settable (tc : envreader_test.testCase) : bool :=
  negb (envreader_test.setEnv tc)
  || (os.validKey (envreader_test.envKey tc)
      && os.without 0 (envreader_test.envValue tc)).

(** What a variable holds after the cases [tcs], [cur] being what it held
    before: what the last case that names it left. *)
Fixpoint written (k : string) (tcs : list envreader_test.testCase)
    (cur : option string) : option string :=
  match tcs with
  | [] => cur
  | tc :: rest =>
    written k rest
      (if decide (envreader_test.envKey tc = k)
       then (if envreader_test.setEnv tc
             then Some (envreader_test.envValue tc) else None)
       else cur)
  end.

(** A row in the style of the table: a malformed [int] that expects the
    syntax error of [strconv]. *)
Definition syntaxCase : envreader_test.testCase :=
  {| envreader_test.name := "Int_EnvExists_InvalidValue";
     envreader_test.envKey := "TEST_INVALID_INT";
     envreader_test.envValue := "abc";
     envreader_test.setEnv := true;
     envreader_test.defaultValue := envreader_test.iface (VInt 10);
     envreader_test.expectedVal := envreader_test.iface (VInt 10);
     envreader_test.expectedErr := Some ErrSyntax;
     envreader_test.expectedErrString := "failed to convert" |}.

(** * Properties *)

(** ** Bytes and strings *)

Lemma append_empty_r (s : string) : s +:+ EmptyString = s.
Proof.
  induction s as [|a s IH]; [reflexivity|].
  change (String a (s +:+ EmptyString) = String a s). rewrite IH. reflexivity.
Qed.

Lemma byte_range a : 0 <= byte a < 256.
Proof. unfold byte. pose proof (N_ascii_bounded a). lia. Qed.

Lemma char_byte a : char (byte a) = a.
Proof.
  unfold char. rewrite Z.mod_small by apply byte_range.
  unfold byte. rewrite N2Z.id. apply ascii_N_embedding.
Qed.

Lemma length_prefix s : prefix (len s) s = s.
Proof.
  unfold prefix, len. rewrite Nat2Z.id.
  induction s as [|a s IH]; simpl; [reflexivity|].
  f_equal. exact IH.
Qed.

(** ** Types and values *)

Lemma GoType_eqb_refl T : GoType_eqb T T = true.
Proof.
  revert T. fix IH 1. intros T.
  destruct T as [| | | | |n u|e|fields|]; cbn [GoType_eqb]; try reflexivity.
  - rewrite String.eqb_refl, IH. reflexivity.
  - apply IH.
  - induction fields as [|[n t] fs IHfs]; [reflexivity|].
    rewrite String.eqb_refl, (IH t), IHfs. reflexivity.
Qed.

Lemma GoType_eqb_eq T U : GoType_eqb T U = true -> T = U.
Proof.
  revert T U. fix IH 1. intros T U.
  destruct T as [| | | | |n u|e|fields|], U as [| | | | |m w|g|gields|];
    cbn [GoType_eqb]; try discriminate; try reflexivity.
  - intros Hb. apply andb_prop in Hb as [Hn Hu].
    apply String.eqb_eq in Hn. apply IH in Hu. congruence.
  - intros Hb. apply IH in Hb. congruence.
  - intros Hb. f_equal. revert gields Hb.
    induction fields as [|[n t] fs IHfs]; intros [|[m u] gs] Hb;
      try discriminate; [reflexivity|].
    apply andb_prop in Hb as [Hb Hr]. apply andb_prop in Hb as [Hn Ht].
    apply String.eqb_eq in Hn. apply IH in Ht.
    apply IHfs in Hr. congruence.
Qed.

Lemma typeOf_zero T : typeOf (zero T) = T.
Proof.
  revert T. fix IH 1. intros T.
  destruct T as [| | | | |n u|e|fields|]; cbn [zero typeOf]; try reflexivity.
  - rewrite IH. reflexivity.
  - f_equal. induction fields as [|[n t] fs IHfs]; [reflexivity|].
    cbn [map fst snd]. rewrite (IH t), IHfs. reflexivity.
Qed.

Lemma isInterfaceValue_typeOf v : isInterfaceValue v = isInterface (typeOf v).
Proof. induction v; simpl; auto. Qed.

(** The zero value of an interface type is the nil interface. *)
Lemma dynamic_zero_interface T :
  isInterfaceValue (zero T) = true -> dynamic (zero T) = None.
Proof.
  induction T; simpl; try discriminate; auto.
  intros Hi. rewrite Hi. auto.
Qed.

(** A value of a concrete type is its own dynamic value. *)
Lemma dynamic_concrete v :
  isInterface (typeOf v) = false -> dynamic v = Some v.
Proof.
  destruct v; simpl; try reflexivity; try discriminate.
  rewrite isInterfaceValue_typeOf. intros ->. reflexivity.
Qed.

(** The type switch on [any(result)] meets a supported type exactly when
    [T] is that type. *)
Lemma dynamicType_zero_supported T :
  supported T = true -> dynamicType (zero T) = Some T.
Proof. destruct T; try discriminate; reflexivity. Qed.

Lemma dynamicType_zero_inv T U :
  dynamicType (zero T) = Some U -> supported U = true -> T = U.
Proof.
  unfold dynamicType.
  destruct T; simpl; try (intros [= <-]; try discriminate; reflexivity).
  destruct (isInterfaceValue (zero T)) eqn:Hi.
  - rewrite dynamic_zero_interface by assumption. discriminate.
  - simpl. intros [= <-]. discriminate.
Qed.

Lemma supported_cases T :
  supported T = true -> T = TString \/ parseable T = true.
Proof. destruct T; try discriminate; auto. Qed.

(** A type assertion to the concrete type a value has succeeds and gives
    the value back. *)
Lemma typeAssert_same x T :
  isInterface T = false -> typeOf x = T -> typeAssert x T = Some x.
Proof.
  intros Hi Ht. unfold typeAssert.
  rewrite dynamic_concrete by (rewrite Ht; exact Hi).
  rewrite Hi, Ht, GoType_eqb_refl. reflexivity.
Qed.

(** ** strconv: Quote *)
Section QuoteFacts.
Context `{Platform}.

Lemma appendEscapedRune_plain a :
  plainByte (byte a) = true ->
  strconv.appendEscapedRune (byte a) = String a EmptyString.
Proof.
  unfold plainByte, strconv.appendEscapedRune, strconv.IsPrint.
  intros Hp. apply andb_prop in Hp as [Hp Hb]. apply andb_prop in Hp as [Hr Hq].
  apply negb_true_iff in Hq, Hb. rewrite Hq, Hb. cbn [orb].
  rewrite Hr.
  unfold between in Hr. apply andb_prop in Hr as [Hlo Hhi].
  apply Z.leb_le in Hlo, Hhi.
  replace (byte a <=? 255) with true by (symmetry; apply Z.leb_le; lia).
  unfold utf8.AppendRune, between.
  replace ((0 <=? byte a) && (byte a <=? 127)) with true
    by (symmetry; apply andb_true_intro; split; apply Z.leb_le; lia).
  unfold str1. rewrite char_byte. reflexivity.
Qed.

Lemma quoteLoop_plain s : plain s = true -> strconv.quoteLoop 0 s = s.
Proof.
  induction s as [|a s IH]; [reflexivity|].
  cbn [plain strconv.quoteLoop]. intros Hp. apply andb_prop in Hp as [Ha Hs].
  assert (Hlt : (byte a <? utf8.RuneSelf) = true).
  { unfold plainByte, between in Ha. apply Z.ltb_lt. unfold utf8.RuneSelf.
    destruct (byte a <=? 126) eqn:E; [apply Z.leb_le in E; lia|].
    rewrite andb_false_r in Ha. discriminate. }
  rewrite Hlt.
  assert (Hne : ((1 =? 1) && (byte a =? utf8.RuneError)) = false).
  { apply Z.ltb_lt in Hlt. unfold utf8.RuneSelf, utf8.RuneError in *.
    cbn [Z.eqb Pos.eqb andb]. apply Z.eqb_neq. lia. }
  rewrite Hne, appendEscapedRune_plain by assumption.
  change (Z.to_nat (1 - 1)) with 0%nat.
  rewrite IH by assumption. reflexivity.
Qed.

(** On a plain string [Quote] only adds the two double quotes. *)
Lemma Quote_plain s : plain s = true -> strconv.Quote s = doubleQuoted s.
Proof.
  intros Hp. unfold strconv.Quote, doubleQuoted.
  rewrite quoteLoop_plain by assumption. reflexivity.
Qed.

End QuoteFacts.

(** ** strconv: the errors of the parsers

    Whatever the input, an error of [Atoi], of [ParseInt] in base 10 with
    64 or [IntSize] bits, of [ParseBool] or of [ParseFloat] with 64 bits is
    a [NumError] that names the function and the whole input and holds
    [ErrSyntax] or [ErrRange]. *)
Section ParserFacts.
Context `{Platform}.

Lemma parseUintLoop_error s0 base base0 cutoff maxVal s : forall us n r e,
  strconv.parseUintLoop s0 base base0 cutoff maxVal us n s = (r, Some e) ->
  numErrorOf strconv.fnParseUint s0 e.
Proof.
  induction s as [|a s IH]; intros us n r e; cbn [strconv.parseUintLoop].
  - destruct (us && negb _); intros [= _ <-]. left; reflexivity.
  - repeat case_match; intros Heq;
      try (injection Heq as _ <-; (left; reflexivity) || (right; reflexivity));
      eauto.
Qed.

Lemma ParseUint_error s bitSize r e :
  bitSize = 64 \/ bitSize = 0 ->
  strconv.ParseUint s 10 bitSize = (r, Some e) ->
  numErrorOf strconv.fnParseUint s e.
Proof.
  intros Hb. unfold strconv.ParseUint. destruct s as [|a s].
  - intros [= _ <-]. left; reflexivity.
  - change (between 2 36 10) with true. cbv iota.
    replace ((bitSize <? 0) || (bitSize >? 64)) with false
      by (destruct Hb as [-> | ->]; reflexivity).
    apply parseUintLoop_error.
Qed.

Lemma ParseInt_error s bitSize r e :
  bitSize = 64 \/ bitSize = 0 ->
  strconv.ParseInt s 10 bitSize = (r, Some e) ->
  numErrorOf strconv.fnParseInt s e.
Proof.
  intros Hb. unfold strconv.ParseInt. destruct s as [|a s].
  - intros [= _ <-]. left; reflexivity.
  - set (sign := if byte a =? c_plus then _ else _).
    destruct sign as [neg t].
    destruct (strconv.ParseUint t 10 bitSize) as [un [e0|]] eqn:HU.
    + apply ParseUint_error in HU; [|assumption].
      destruct HU as [-> | ->]; cbn [strconv.syntaxError strconv.rangeError].
      * intros [= _ <-]. left; reflexivity.
      * repeat case_match; intros [= _ <-]; right; reflexivity.
    + repeat case_match; intros [= _ <-]; right; reflexivity.
Qed.

Lemma Atoi_error s r e :
  strconv.Atoi s = (r, Some e) -> numErrorOf strconv.fnAtoi s e.
Proof.
  unfold strconv.Atoi. case_match.
  - destruct s as [|a s]; [intros [= _ <-]; left; reflexivity|].
    repeat case_match; intros [= _ <-]; left; reflexivity.
  - destruct (strconv.ParseInt s 10 0) as [i64 [e0|]] eqn:HP.
    + apply ParseInt_error in HP; [|right; reflexivity].
      destruct HP as [-> | ->]; intros [= _ <-]; [left|right]; reflexivity.
    + intros [=].
Qed.

Lemma ParseBool_error s r e :
  strconv.ParseBool s = (r, Some e) ->
  e = strconv.syntaxError strconv.fnParseBool s.
Proof.
  unfold strconv.ParseBool. repeat case_match; intros [= _ <-]; reflexivity.
Qed.

Lemma atof_error prec emax s f n e :
  strconv.atof prec emax s = (f, n, Some e) ->
  e = strconv.syntaxError strconv.fnParseFloat s
  \/ e = strconv.rangeError strconv.fnParseFloat s
  \/ e = strconv.rangeError strconv.fnParseFloat (prefix n s).
Proof.
  unfold strconv.atof. destruct (strconv.special s) as [[val k]|].
  - discriminate.
  - repeat case_match; intros [= _ <- <-]; auto.
Qed.

Lemma ParseFloat_error s f e :
  strconv.ParseFloat s 64 = (f, Some e) ->
  numErrorOf strconv.fnParseFloat s e.
Proof.
  unfold strconv.ParseFloat. change (64 =? 32) with false. cbv iota.
  destruct (strconv.atof 53 1024 s) as [[f0 n] [e0|]] eqn:HA.
  - apply atof_error in HA.
    destruct (n =? len s) eqn:Hn.
    + apply Z.eqb_eq in Hn. subst n. rewrite length_prefix in HA.
      cbn [negb andb]. intros [= _ <-].
      destruct HA as [-> | [-> | ->]]; [left|right|right]; reflexivity.
    + cbn [negb andb].
      destruct HA as [-> | [-> | ->]];
        cbn [strconv.syntaxError strconv.rangeError];
        intros [= _ <-]; left; reflexivity.
  - destruct (n =? len s); cbn [negb andb]; intros [= _ <-] || intros [=].
    left; reflexivity.
Qed.

Lemma ParseBool_true raw :
  raw ∈ trueLiterals -> strconv.ParseBool raw = (true, None).
Proof.
  intros Hin. unfold strconv.ParseBool, trueLiterals in *.
  destruct (decide _) as [_|Hn]; [reflexivity|contradiction].
Qed.

Lemma ParseBool_false raw :
  raw ∈ falseLiterals -> strconv.ParseBool raw = (false, None).
Proof.
  intros Hin. unfold falseLiterals in Hin.
  repeat (apply elem_of_cons in Hin as [-> | Hin]; [vm_compute; reflexivity|]).
  apply elem_of_nil in Hin. contradiction.
Qed.

Lemma ParseBool_other raw :
  raw ∉ trueLiterals -> raw ∉ falseLiterals ->
  strconv.ParseBool raw
  = (false, Some (strconv.syntaxError strconv.fnParseBool raw)).
Proof.
  intros Ht Hf. unfold strconv.ParseBool, trueLiterals, falseLiterals in *.
  destruct (decide _) as [?|_]; [contradiction|].
  destruct (decide _) as [?|_]; [contradiction|]. reflexivity.
Qed.

Lemma strconvParse_parseable T raw :
  parseable T = true -> exists v e, strconvParse T raw = Some (v, e).
Proof.
  destruct T; try discriminate; intros _; cbn [strconvParse].
  - destruct (strconv.Atoi raw); eauto.
  - destruct (strconv.ParseInt raw 10 64); eauto.
  - destruct (strconv.ParseBool raw); eauto.
  - destruct (strconv.ParseFloat raw 64); eauto.
Qed.

Lemma strconvParse_typeOf T raw v e :
  strconvParse T raw = Some (v, e) -> typeOf v = T.
Proof.
  destruct T; try discriminate; cbn [strconvParse].
  - destruct (strconv.Atoi raw). intros [= <- _]. reflexivity.
  - destruct (strconv.ParseInt raw 10 64). intros [= <- _]. reflexivity.
  - destruct (strconv.ParseBool raw). intros [= <- _]. reflexivity.
  - destruct (strconv.ParseFloat raw 64). intros [= <- _]. reflexivity.
Qed.

Lemma strconvParse_error T raw v e :
  strconvParse T raw = Some (v, Some e) ->
  exists fn sentinel,
    e = NumError fn raw sentinel
    /\ (sentinel = ErrSyntax \/ sentinel = ErrRange).
Proof.
  destruct T; try discriminate; cbn [strconvParse].
  - destruct (strconv.Atoi raw) as [n o] eqn:HP. intros [= _ ->].
    apply Atoi_error in HP as [-> | ->]; eexists _, _; eauto.
  - destruct (strconv.ParseInt raw 10 64) as [n o] eqn:HP. intros [= _ ->].
    apply ParseInt_error in HP as [-> | ->]; [| |left; reflexivity];
      eexists _, _; eauto.
  - destruct (strconv.ParseBool raw) as [n o] eqn:HP. intros [= _ ->].
    apply ParseBool_error in HP as ->. eexists _, _; eauto.
  - destruct (strconv.ParseFloat raw 64) as [n o] eqn:HP. intros [= _ ->].
    apply ParseFloat_error in HP as [-> | ->]; eexists _, _; eauto.
Qed.

End ParserFacts.

(** ** strconv: decimal numerals

    [ParseInt] in base 10 and [Atoi] against [decimalValue]: a numeral in
    range is accepted with its value, a numeral out of range is refused
    with [ErrRange] and the nearest value, and nothing else is accepted. *)

Lemma between_spec lo hi b : between lo hi b = true <-> lo <= b <= hi.
Proof. unfold between. rewrite andb_true_iff, !Z.leb_le. reflexivity. Qed.

Lemma digitsValue_ge s : forall n v,
  digitsValue n s = Some v -> 0 <= n -> n <= v.
Proof.
  induction s as [|a s IH]; intros n v; cbn [digitsValue].
  - intros [= <-] _. lia.
  - destruct (between c_0 c_9 (byte a)) eqn:Hd; [|discriminate].
    apply between_spec in Hd. unfold c_0, c_9 in *.
    intros Hv Hn. apply IH in Hv; lia.
Qed.

Lemma digitsValue_lt s : forall n v,
  digitsValue n s = Some v -> 0 <= n -> v < (n + 1) * 10 ^ len s.
Proof.
  induction s as [|a s IH]; intros n v; cbn [digitsValue].
  - intros [= <-] _. change (len EmptyString) with 0. lia.
  - destruct (between c_0 c_9 (byte a)) eqn:Hd; [|discriminate].
    apply between_spec in Hd. unfold c_0, c_9 in *.
    intros Hv Hn. apply IH in Hv; [|lia].
    replace (len (String a s)) with (1 + len s)
      by (unfold len; cbn [String.length]; lia).
    rewrite Z.pow_add_r by (unfold len; lia).
    assert (0 < 10 ^ len s) by (apply Z.pow_pos_nonneg; unfold len; lia).
    nia.
Qed.

Section DecimalFacts.
Context `{Platform}.

Lemma parseUintLoop_digits s0 maxVal s : forall n v,
  digitsValue n s = Some v -> 0 <= n -> v <= maxVal -> maxVal <= maxUint64 ->
  strconv.parseUintLoop s0 10 false (maxUint64 / 10 + 1) maxVal false n s
  = (v, None).
Proof.
  induction s as [|a s IH]; intros n v; cbn [digitsValue strconv.parseUintLoop].
  - intros [= <-] _ _ _. reflexivity.
  - destruct (between c_0 c_9 (byte a)) eqn:Hd; [|discriminate].
    intros Hv Hn Hmax HU. rewrite andb_false_r.
    pose proof (digitsValue_ge _ _ _ Hv) as Hge.
    apply between_spec in Hd.
    assert (HU' : maxUint64 = 18446744073709551615) by reflexivity.
    assert (Hc : maxUint64 / 10 + 1 = 1844674407370955162) by reflexivity.
    unfold c_0, c_9 in *.
    assert (Hd10 : (byte a - 48 >=? 10 mod 256) = false)
      by (change (10 mod 256) with 10; rewrite Z.geb_leb; apply Z.leb_gt; lia).
    rewrite Hd10.
    assert (Hcut : (n >=? maxUint64 / 10 + 1) = false)
      by (rewrite Hc, Z.geb_leb; apply Z.leb_gt; lia).
    rewrite Hcut.
    assert (Hw1 : uint64 (n * 10) = n * 10)
      by (unfold uint64, wrapU; apply Z.mod_small; lia).
    rewrite Hw1.
    assert (Hw2 : uint64 (n * 10 + (byte a - 48)) = n * 10 + (byte a - 48))
      by (unfold uint64, wrapU; apply Z.mod_small; lia).
    rewrite Hw2.
    assert (Hok : ((n * 10 + (byte a - 48) <? n * 10)
                   || (n * 10 + (byte a - 48) >? maxVal)) = false).
    { apply orb_false_intro; [apply Z.ltb_ge; lia|].
      rewrite Z.gtb_ltb. apply Z.ltb_ge. lia. }
    rewrite Hok. apply IH; try assumption; lia.
Qed.


Lemma intSize_cases : intSize = 32 \/ intSize = 64.
Proof. unfold intSize. destruct intWidth; auto. Qed.

Lemma ParseUint_digits s bitSize v :
  bitSize = 0 \/ bitSize = 64 ->
  s <> EmptyString ->
  digitsValue 0 s = Some v -> v <= 2 ^ bitsOf bitSize - 1 ->
  strconv.ParseUint s 10 bitSize = (v, None).
Proof.
  intros Hb Hs Hv Hmax. unfold strconv.ParseUint.
  destruct s as [|a s]; [congruence|].
  change (between 2 36 10) with true. cbv iota.
  replace ((bitSize <? 0) || (bitSize >? 64)) with false
    by (destruct Hb as [-> | ->]; reflexivity).
  fold (bitsOf bitSize).
  assert (Hm : uint64 (uint64 (Z.shiftl 1 (bitsOf bitSize)) - 1)
               = 2 ^ bitsOf bitSize - 1).
  { unfold bitsOf. destruct Hb as [-> | ->]; cbn [Z.eqb];
      [destruct intSize_cases as [-> | ->]|]; reflexivity. }
  rewrite Hm. apply parseUintLoop_digits; try assumption; try lia.
  unfold bitsOf. destruct Hb as [-> | ->]; cbn [Z.eqb];
    [destruct intSize_cases as [-> | ->]|]; unfold maxUint64; lia.
Qed.

Lemma wrapS_small bits z :
  0 < bits -> - 2 ^ (bits - 1) <= z < 2 ^ (bits - 1) -> wrapS bits z = z.
Proof.
  intros Hb Hz. unfold wrapS.
  assert (Hp : 2 ^ bits = 2 * 2 ^ (bits - 1)).
  { replace bits with (1 + (bits - 1)) at 1 by lia.
    rewrite Z.pow_add_r by lia. reflexivity. }
  rewrite Z.mod_small by lia. lia.
Qed.

Lemma int64_small z : - 2 ^ 63 <= z < 2 ^ 63 -> int64 z = z.
Proof. intros Hz. apply wrapS_small; [lia|exact Hz]. Qed.

Lemma int_small z :
  - 2 ^ (intSize - 1) <= z < 2 ^ (intSize - 1) -> int z = z.
Proof.
  intros Hz. apply wrapS_small; [|exact Hz].
  destruct intSize_cases as [-> | ->]; lia.
Qed.

Lemma bitsOf_cases bitSize :
  bitSize = 0 \/ bitSize = 64 -> bitsOf bitSize = 32 \/ bitsOf bitSize = 64.
Proof.
  unfold bitsOf. intros [-> | ->]; cbn [Z.eqb]; [apply intSize_cases|auto].
Qed.

Lemma ParseInt_decimal s bitSize n :
  bitSize = 0 \/ bitSize = 64 ->
  decimalValue s = Some n ->
  - 2 ^ (bitsOf bitSize - 1) <= n < 2 ^ (bitsOf bitSize - 1) ->
  strconv.ParseInt s 10 bitSize = (n, None).
Proof.
  intros Hb Hv Hn. pose proof (bitsOf_cases bitSize Hb) as Hbits.
  assert (Hpow : 2 ^ bitsOf bitSize = 2 * 2 ^ (bitsOf bitSize - 1)
                 /\ 0 < 2 ^ (bitsOf bitSize - 1) <= 2 ^ 63).
  { destruct Hbits as [-> | ->]; split; lia. }
  assert (Hcut : uint64 (Z.shiftl 1 (bitsOf bitSize - 1))
                 = 2 ^ (bitsOf bitSize - 1))
    by (destruct Hbits as [-> | ->]; reflexivity).
  unfold strconv.ParseInt, decimalValue in *.
  destruct s as [|a s]; [discriminate|].
  destruct (byte a =? c_plus) eqn:Hplus; [|destruct (byte a =? c_minus) eqn:Hminus];
    cbn [orb] in Hv.
  - (* a leading plus *)
    assert (Hm : (byte a =? c_minus) = false)
      by (apply Z.eqb_eq in Hplus; rewrite Hplus; reflexivity).
    rewrite Hm in Hv. destruct s as [|b s]; [discriminate|].
    destruct (digitsValue 0 (String b s)) as [u|] eqn:Hu; [|discriminate].
    injection Hv as <-. cbn [id] in *.
    pose proof (digitsValue_ge _ _ _ Hu ltac:(lia)) as Hge.
    rewrite (ParseUint_digits (String b s) bitSize u Hb) by (discriminate || assumption || lia).
    fold (bitsOf bitSize). rewrite Hcut. cbn [negb andb].
    replace (u >=? 2 ^ (bitsOf bitSize - 1)) with false
      by (symmetry; rewrite Z.geb_leb; apply Z.leb_gt; lia).
    rewrite int64_small by lia. reflexivity.
  - (* a leading minus *)
    destruct s as [|b s]; [discriminate|].
    destruct (digitsValue 0 (String b s)) as [u|] eqn:Hu; [|discriminate].
    injection Hv as <-.
    pose proof (digitsValue_ge _ _ _ Hu ltac:(lia)) as Hge.
    rewrite (ParseUint_digits (String b s) bitSize u Hb) by (discriminate || assumption || lia).
    fold (bitsOf bitSize). rewrite Hcut. cbn [negb andb].
    replace (u >? 2 ^ (bitsOf bitSize - 1)) with false
      by (symmetry; rewrite Z.gtb_ltb; apply Z.ltb_ge; lia).
    f_equal. destruct (Z.eq_dec u (2 ^ 63)) as [-> | Hne]; [reflexivity|].
    rewrite (int64_small u) by lia. apply int64_small. lia.
  - (* no sign *)
    pose proof (digitsValue_ge _ _ _ Hv ltac:(lia)) as Hge.
    rewrite (ParseUint_digits (String a s) bitSize n Hb) by (discriminate || assumption || lia).
    fold (bitsOf bitSize). rewrite Hcut. cbn [negb andb].
    replace (n >=? 2 ^ (bitsOf bitSize - 1)) with false
      by (symmetry; rewrite Z.geb_leb; apply Z.leb_gt; lia).
    rewrite int64_small by lia. reflexivity.
Qed.

Lemma atoiLoop_digits s0 s : forall n v,
  digitsValue n s = Some v -> 0 <= n -> v < 2 ^ (intSize - 1) ->
  strconv.atoiLoop s0 n s = Some v.
Proof.
  induction s as [|a s IH]; intros n v; cbn [digitsValue strconv.atoiLoop].
  - intros [= <-] _ _. reflexivity.
  - destruct (between c_0 c_9 (byte a)) eqn:Hd; [|discriminate].
    intros Hv Hn Hmax. apply between_spec in Hd. unfold c_0, c_9 in *.
    pose proof (digitsValue_ge _ _ _ Hv ltac:(lia)) as Hge.
    rewrite (Z.mod_small (byte a - 48)) by lia.
    replace (byte a - 48 >? 9) with false
      by (symmetry; rewrite Z.gtb_ltb; apply Z.ltb_ge; lia).
    rewrite int_small.
    + apply IH; [assumption|lia|assumption].
    + assert (0 < 2 ^ (intSize - 1))
        by (destruct intSize_cases as [-> | ->]; lia).
      lia.
Qed.

Lemma Atoi_decimal s n :
  decimalValue s = Some n ->
  - 2 ^ (intSize - 1) <= n < 2 ^ (intSize - 1) ->
  strconv.Atoi s = (n, None).
Proof.
  intros Hv Hn. unfold strconv.Atoi.
  destruct (_ || _) eqn:Hfast.
  - (* the fast path: at most 9, or 18, bytes *)
    assert (Hlen : 10 ^ len s <= 2 ^ (intSize - 1)).
    { destruct intSize_cases as [E | E]; rewrite E in *;
        cbn [Z.eqb Pos.eqb andb orb] in Hfast.
      - rewrite orb_false_r in Hfast. apply andb_prop in Hfast as [_ Hl].
        apply Z.ltb_lt in Hl.
        transitivity (10 ^ 9); [apply Z.pow_le_mono_r; lia|lia].
      - apply andb_prop in Hfast as [_ Hl]. apply Z.ltb_lt in Hl.
        transitivity (10 ^ 18); [apply Z.pow_le_mono_r; lia|lia]. }
    unfold decimalValue in Hv. destruct s as [|a s]; [discriminate|].
    assert (Hlen' : 10 ^ len s <= 10 ^ len (String a s))
      by (apply Z.pow_le_mono_r; unfold len; cbn [String.length]; lia).
    destruct (byte a =? c_minus) eqn:Hminus.
    + rewrite orb_true_r in Hv. cbn [orb].
      destruct s as [|b s]; [discriminate|].
      destruct (digitsValue 0 (String b s)) as [u|] eqn:Hu; [|discriminate].
      injection Hv as <-.
      pose proof (digitsValue_ge _ _ _ Hu ltac:(lia)) as Hge.
      pose proof (digitsValue_lt _ _ _ Hu ltac:(lia)) as Hlt.
      replace (len (String b s) <? 1) with false
        by (symmetry; apply Z.ltb_ge; unfold len; cbn [String.length]; lia).
      cbn [andb]. rewrite (atoiLoop_digits _ _ 0 u Hu) by lia.
      rewrite int_small by lia. reflexivity.
    + rewrite orb_false_r in Hv. cbn [orb].
      destruct (byte a =? c_plus) eqn:Hplus.
      * destruct s as [|b s]; [discriminate|].
        destruct (digitsValue 0 (String b s)) as [u|] eqn:Hu; [|discriminate].
        injection Hv as <-. cbn [id] in *.
        pose proof (digitsValue_lt _ _ _ Hu ltac:(lia)) as Hlt.
        replace (len (String b s) <? 1) with false
          by (symmetry; apply Z.ltb_ge; unfold len; cbn [String.length]; lia).
        cbn [andb]. rewrite (atoiLoop_digits _ _ 0 u Hu) by lia.
        reflexivity.
      * cbn [andb].
        pose proof (digitsValue_lt _ _ _ Hv ltac:(lia)) as Hlt.
        rewrite (atoiLoop_digits _ _ 0 n Hv) by lia. reflexivity.
  - (* the slow path *)
    rewrite (ParseInt_decimal s 0 n) by (auto || exact Hn).
    rewrite int_small by exact Hn. reflexivity.
Qed.

Lemma parseUintLoop_overflow s0 maxVal s : forall n v,
  digitsValue n s = Some v -> 0 <= n <= maxVal -> maxVal < v ->
  maxVal <= maxUint64 ->
  strconv.parseUintLoop s0 10 false (maxUint64 / 10 + 1) maxVal false n s
  = (maxVal, Some (strconv.rangeError strconv.fnParseUint s0)).
Proof.
  induction s as [|a s IH]; intros n v; cbn [digitsValue strconv.parseUintLoop].
  - intros [= <-] ? ? _. lia.
  - destruct (between c_0 c_9 (byte a)) eqn:Hd; [|discriminate].
    intros Hv Hn Hmax HU. rewrite andb_false_r.
    apply between_spec in Hd.
    assert (HU' : maxUint64 = 18446744073709551615) by reflexivity.
    assert (Hc : maxUint64 / 10 + 1 = 1844674407370955162) by reflexivity.
    unfold c_0, c_9 in *.
    assert (Hd10 : (byte a - 48 >=? 10 mod 256) = false)
      by (change (10 mod 256) with 10; rewrite Z.geb_leb; apply Z.leb_gt; lia).
    rewrite Hd10, Hc.
    destruct (n >=? 1844674407370955162) eqn:Hcut; [reflexivity|].
    rewrite Z.geb_leb in Hcut. apply Z.leb_gt in Hcut.
    assert (Hw1 : uint64 (n * 10) = n * 10)
      by (unfold uint64, wrapU; apply Z.mod_small; lia).
    rewrite Hw1.
    destruct (Z_lt_le_dec (n * 10 + (byte a - 48)) (2 ^ 64)) as [Hfit|Hwrap].
    + assert (Hw2 : uint64 (n * 10 + (byte a - 48)) = n * 10 + (byte a - 48))
        by (unfold uint64, wrapU; apply Z.mod_small; lia).
      rewrite Hw2.
      replace (n * 10 + (byte a - 48) <? n * 10) with false
        by (symmetry; apply Z.ltb_ge; lia).
      cbn [orb].
      destruct (n * 10 + (byte a - 48) >? maxVal) eqn:Hgt; [reflexivity|].
      rewrite Z.gtb_ltb in Hgt. apply Z.ltb_ge in Hgt.
      rewrite <- Hc. apply IH with (v := v); try assumption; lia.
    + assert (Hw2 : uint64 (n * 10 + (byte a - 48))
                    = n * 10 + (byte a - 48) - 2 ^ 64).
      { unfold uint64, wrapU.
        replace (n * 10 + (byte a - 48))
          with ((n * 10 + (byte a - 48) - 2 ^ 64) + 1 * 2 ^ 64) at 1 by lia.
        rewrite Z.mod_add by lia. apply Z.mod_small. lia. }
      rewrite Hw2.
      replace (n * 10 + (byte a - 48) - 2 ^ 64 <? n * 10) with true
        by (symmetry; apply Z.ltb_lt; lia).
      reflexivity.
Qed.

Lemma parseUintLoop_accepts s0 maxVal s : forall n v,
  strconv.parseUintLoop s0 10 false (maxUint64 / 10 + 1) maxVal false n s
  = (v, None) ->
  0 <= n ->
  digitsValue n s = Some v /\ v <= Z.max n maxVal.
Proof.
  induction s as [|a s IH]; intros n v; cbn [digitsValue strconv.parseUintLoop].
  - intros [= <-] _. split; [reflexivity|lia].
  - rewrite andb_false_r.
    assert (Hc : maxUint64 / 10 + 1 = 1844674407370955162) by reflexivity.
    rewrite Hc.
    destruct (between c_0 c_9 (byte a)) eqn:Hd.
    + apply between_spec in Hd. unfold c_0, c_9 in *.
      assert (Hd10 : (byte a - 48 >=? 10 mod 256) = false)
        by (change (10 mod 256) with 10; rewrite Z.geb_leb; apply Z.leb_gt; lia).
      rewrite Hd10.
      destruct (n >=? 1844674407370955162) eqn:Hcut; [discriminate|].
      rewrite Z.geb_leb in Hcut. apply Z.leb_gt in Hcut.
      intros Hrun Hn.
      assert (Hw1 : uint64 (n * 10) = n * 10)
        by (unfold uint64, wrapU; apply Z.mod_small; lia).
      rewrite Hw1 in Hrun.
      destruct (Z_lt_le_dec (n * 10 + (byte a - 48)) (2 ^ 64)) as [Hfit|Hwrap].
      * assert (Hw2 : uint64 (n * 10 + (byte a - 48)) = n * 10 + (byte a - 48))
          by (unfold uint64, wrapU; apply Z.mod_small; lia).
        rewrite Hw2 in Hrun.
        destruct (_ || _) eqn:Hbad in Hrun; [discriminate|].
        apply orb_false_elim in Hbad as [_ Hgt].
        rewrite Z.gtb_ltb in Hgt. apply Z.ltb_ge in Hgt.
        rewrite <- Hc in Hrun. apply IH in Hrun as [Hv Hle]; [|lia].
        split; [exact Hv|lia].
      * assert (Hw2 : uint64 (n * 10 + (byte a - 48))
                      = n * 10 + (byte a - 48) - 2 ^ 64).
        { unfold uint64, wrapU.
          replace (n * 10 + (byte a - 48))
            with ((n * 10 + (byte a - 48) - 2 ^ 64) + 1 * 2 ^ 64) at 1 by lia.
          rewrite Z.mod_add by lia. apply Z.mod_small. lia. }
        rewrite Hw2 in Hrun.
        replace (n * 10 + (byte a - 48) - 2 ^ 64 <? n * 10) with true in Hrun
          by (symmetry; apply Z.ltb_lt; lia).
        discriminate Hrun.
    + destruct (between c_a c_z (strconv.lower (byte a))) eqn:Hl;
        [|discriminate].
      apply between_spec in Hl. unfold c_a, c_z in *.
      replace (strconv.lower (byte a) - 97 + 10 >=? 10 mod 256) with true
        by (symmetry; change (10 mod 256) with 10; rewrite Z.geb_leb;
            apply Z.leb_le; lia).
      discriminate.
Qed.

Lemma parseUintLoop_range_value s0 base base0 cutoff maxVal s :
  forall us n r fn num,
  strconv.parseUintLoop s0 base base0 cutoff maxVal us n s
  = (r, Some (NumError fn num ErrRange)) ->
  r = maxVal.
Proof.
  induction s as [|a s IH]; intros us n r fn num; cbn [strconv.parseUintLoop].
  - destruct (us && negb _); intros [=].
  - repeat case_match; intros Heq;
      try (injection Heq as <-; reflexivity); try discriminate Heq; eauto.
Qed.

Lemma maxVal_bits bitSize :
  bitSize = 0 \/ bitSize = 64 ->
  uint64 (uint64 (Z.shiftl 1 (bitsOf bitSize)) - 1) = 2 ^ bitsOf bitSize - 1
  /\ 2 ^ bitsOf bitSize - 1 <= maxUint64.
Proof.
  intros Hb. destruct (bitsOf_cases bitSize Hb) as [-> | ->];
    split; (reflexivity || (unfold maxUint64; lia)).
Qed.

Lemma ParseUint_unfold a s bitSize :
  bitSize = 0 \/ bitSize = 64 ->
  strconv.ParseUint (String a s) 10 bitSize
  = strconv.parseUintLoop (String a s) 10 false (maxUint64 / 10 + 1)
      (2 ^ bitsOf bitSize - 1) false 0 (String a s).
Proof.
  intros Hb. unfold strconv.ParseUint.
  change (between 2 36 10) with true. cbv iota.
  replace ((bitSize <? 0) || (bitSize >? 64)) with false
    by (destruct Hb as [-> | ->]; reflexivity).
  fold (bitsOf bitSize). rewrite (proj1 (maxVal_bits bitSize Hb)).
  reflexivity.
Qed.

Lemma ParseUint_overflow s bitSize v :
  bitSize = 0 \/ bitSize = 64 ->
  s <> EmptyString ->
  digitsValue 0 s = Some v -> 2 ^ bitsOf bitSize - 1 < v ->
  strconv.ParseUint s 10 bitSize
  = (2 ^ bitsOf bitSize - 1, Some (strconv.rangeError strconv.fnParseUint s)).
Proof.
  intros Hb Hs Hv Hmax. destruct s as [|a s]; [congruence|].
  rewrite ParseUint_unfold by assumption.
  pose proof (maxVal_bits bitSize Hb) as [_ HU].
  apply parseUintLoop_overflow with (v := v); try assumption.
  destruct (bitsOf_cases bitSize Hb) as [-> | ->]; lia.
Qed.

Lemma ParseUint_accepts s bitSize v :
  bitSize = 0 \/ bitSize = 64 ->
  strconv.ParseUint s 10 bitSize = (v, None) ->
  s <> EmptyString /\ digitsValue 0 s = Some v /\ v <= 2 ^ bitsOf bitSize - 1.
Proof.
  intros Hb. destruct s as [|a s]; [discriminate|].
  rewrite ParseUint_unfold by assumption. intros Hrun.
  apply parseUintLoop_accepts in Hrun as [Hv Hle]; [|lia].
  split; [discriminate|]. split; [exact Hv|].
  destruct (bitsOf_cases bitSize Hb) as [E | E]; rewrite E in *; lia.
Qed.

Lemma ParseUint_range_value s bitSize r fn num :
  bitSize = 0 \/ bitSize = 64 ->
  strconv.ParseUint s 10 bitSize = (r, Some (NumError fn num ErrRange)) ->
  r = 2 ^ bitsOf bitSize - 1.
Proof.
  intros Hb. destruct s as [|a s]; [discriminate|].
  rewrite ParseUint_unfold by assumption.
  apply parseUintLoop_range_value.
Qed.


Lemma cutoff_bits bitSize :
  bitSize = 0 \/ bitSize = 64 ->
  uint64 (Z.shiftl 1 (bitsOf bitSize - 1)) = 2 ^ (bitsOf bitSize - 1)
  /\ int64 (2 ^ (bitsOf bitSize - 1) - 1) = 2 ^ (bitsOf bitSize - 1) - 1
  /\ int64 (- int64 (2 ^ (bitsOf bitSize - 1))) = - 2 ^ (bitsOf bitSize - 1)
  /\ 2 <= 2 ^ (bitsOf bitSize - 1) <= 2 ^ 63
  /\ 2 ^ bitsOf bitSize = 2 * 2 ^ (bitsOf bitSize - 1).
Proof.
  intros Hb. destruct (bitsOf_cases bitSize Hb) as [-> | ->];
    repeat split; try reflexivity; lia.
Qed.

(** [ParseInt] past the sign, on what [ParseUint] answered. *)
Lemma ParseInt_unfold a s bitSize :
  strconv.ParseInt (String a s) 10 bitSize
  = let neg := negb (byte a =? c_plus) && (byte a =? c_minus) in
    let t := if (byte a =? c_plus) || (byte a =? c_minus)
             then s else String a s in
    let '(un, err) := strconv.ParseUint t 10 bitSize in
    match
      match err with
      | Some (NumError _ _ ErrRange) | None => None
      | Some (NumError _ _ e) => Some (NumError strconv.fnParseInt (String a s) e)
      | Some e => Some e
      end
    with
    | Some e => (0, Some e)
    | None =>
      let cutoff := uint64 (Z.shiftl 1 (bitsOf bitSize - 1)) in
      if negb neg && (un >=? cutoff)
      then (int64 (cutoff - 1),
            Some (strconv.rangeError strconv.fnParseInt (String a s)))
      else if neg && (un >? cutoff)
      then (int64 (- int64 cutoff),
            Some (strconv.rangeError strconv.fnParseInt (String a s)))
      else ((if neg then int64 (- int64 un) else int64 un), None)
    end.
Proof.
  unfold strconv.ParseInt, bitsOf.
  destruct (byte a =? c_plus), (byte a =? c_minus); reflexivity.
Qed.

Lemma decimalValue_unfold a s :
  decimalValue (String a s)
  = let neg := negb (byte a =? c_plus) && (byte a =? c_minus) in
    if (byte a =? c_plus) || (byte a =? c_minus) then
      match s with
      | EmptyString => None
      | _ => (if neg then Z.opp else id) <$> digitsValue 0 s
      end
    else digitsValue 0 (String a s).
Proof.
  unfold decimalValue.
  destruct (byte a =? c_plus) eqn:Hp, (byte a =? c_minus) eqn:Hm;
    try reflexivity.
  apply Z.eqb_eq in Hp, Hm. rewrite Hp in Hm. discriminate Hm.
Qed.

Lemma ParseInt_out_of_range s bitSize n :
  bitSize = 0 \/ bitSize = 64 ->
  decimalValue s = Some n ->
  ~ inRange (bitsOf bitSize) n ->
  strconv.ParseInt s 10 bitSize
  = (clamp (bitsOf bitSize) n,
     Some (strconv.rangeError strconv.fnParseInt s)).
Proof.
  intros Hb Hv Hn. unfold inRange, clamp in *.
  destruct (cutoff_bits bitSize Hb) as (Hcut & Hhi & Hlo & Hpos & Hpow).
  destruct s as [|a s]; [discriminate|].
  rewrite ParseInt_unfold. rewrite decimalValue_unfold in Hv. cbv zeta in *.
  set (neg := negb (byte a =? c_plus) && (byte a =? c_minus)) in *.
  set (t := if (byte a =? c_plus) || (byte a =? c_minus)
            then s else String a s) in *.
  assert (Ht : t <> EmptyString /\ exists u, digitsValue 0 t = Some u
               /\ n = (if neg then - u else u) /\ (neg = false -> 0 <= n)).
  { subst t. destruct (_ || _) eqn:Hsign.
    - destruct s as [|b s]; [discriminate|]. split; [discriminate|].
      destruct (digitsValue 0 (String b s)) as [u|] eqn:Hu; [|discriminate].
      injection Hv as <-. exists u. split; [reflexivity|].
      pose proof (digitsValue_ge _ _ _ Hu ltac:(lia)).
      destruct neg; cbn [id]; split; (reflexivity || intros; lia || discriminate).
    - split; [discriminate|]. exists n. split; [exact Hv|].
      assert (neg = false) as ->.
      { subst neg. apply orb_false_elim in Hsign as [_ ->].
        apply andb_false_r. }
      pose proof (digitsValue_ge _ _ _ Hv ltac:(lia)). auto. }
  destruct Ht as (Hne & u & Hu & Hnu & Hpos').
  pose proof (digitsValue_ge _ _ _ Hu ltac:(lia)) as Hge.
  assert (Hun : exists un err,
            strconv.ParseUint t 10 bitSize = (un, err)
            /\ (err = None
                \/ err = Some (strconv.rangeError strconv.fnParseUint t))
            /\ (un = u \/ (un = 2 ^ bitsOf bitSize - 1 /\ un < u))).
  { destruct (Z_le_gt_dec u (2 ^ bitsOf bitSize - 1)) as [Hle|Hgt].
    - exists u, None. rewrite (ParseUint_digits t bitSize u) by assumption.
      auto.
    - eexists _, _. rewrite (ParseUint_overflow t bitSize u) by (assumption || lia).
      split; [reflexivity|]. split; [right; reflexivity|right; lia]. }
  destruct Hun as (un & err & -> & Herr & Hval).
  assert (Hkeep : match err with
                  | Some (NumError _ _ ErrRange) | None => None
                  | Some (NumError _ _ e) =>
                    Some (NumError strconv.fnParseInt (String a s) e)
                  | Some e => Some e
                  end = None)
    by (destruct Herr as [-> | ->]; reflexivity).
  rewrite Hkeep, Hcut.
  destruct neg; cbn [negb andb].
  - replace (un >? 2 ^ (bitsOf bitSize - 1)) with true
      by (symmetry; rewrite Z.gtb_ltb; apply Z.ltb_lt; lia).
    replace (n <? 0) with true by (symmetry; apply Z.ltb_lt; lia).
    rewrite Hlo. reflexivity.
  - specialize (Hpos' eq_refl).
    replace (un >=? 2 ^ (bitsOf bitSize - 1)) with true
      by (symmetry; rewrite Z.geb_leb; apply Z.leb_le; lia).
    replace (n <? 0) with false by (symmetry; apply Z.ltb_ge; lia).
    rewrite Hhi. reflexivity.
Qed.

Lemma ParseInt_accepts s bitSize n :
  bitSize = 0 \/ bitSize = 64 ->
  strconv.ParseInt s 10 bitSize = (n, None) ->
  decimalValue s = Some n /\ inRange (bitsOf bitSize) n.
Proof.
  intros Hb. unfold inRange.
  destruct (cutoff_bits bitSize Hb) as (Hcut & Hhi & Hlo & Hpos & Hpow).
  destruct s as [|a s]; [discriminate|].
  rewrite ParseInt_unfold, decimalValue_unfold. cbv zeta.
  set (neg := negb (byte a =? c_plus) && (byte a =? c_minus)).
  set (t := if (byte a =? c_plus) || (byte a =? c_minus)
            then s else String a s).
  rewrite Hcut.
  destruct (strconv.ParseUint t 10 bitSize) as [un [e|]] eqn:HU.
  - (* an error of ParseUint never ends in a nil error *)
    pose proof HU as He. apply ParseUint_error in He; [|tauto].
    destruct He as [-> | ->]; cbn [strconv.syntaxError strconv.rangeError];
      [discriminate|].
    apply ParseUint_range_value in HU; [|assumption]. subst un.
    destruct neg; cbn [negb andb].
    + replace (2 ^ bitsOf bitSize - 1 >? 2 ^ (bitsOf bitSize - 1)) with true
        by (symmetry; rewrite Z.gtb_ltb; apply Z.ltb_lt; lia).
      discriminate.
    + replace (2 ^ bitsOf bitSize - 1 >=? 2 ^ (bitsOf bitSize - 1)) with true
        by (symmetry; rewrite Z.geb_leb; apply Z.leb_le; lia).
      discriminate.
  - apply ParseUint_accepts in HU as (Hne & Hv & Hle); [|assumption].
    pose proof (digitsValue_ge _ _ _ Hv ltac:(lia)) as Hge.
    assert (Hdec : (if (byte a =? c_plus) || (byte a =? c_minus)
                    then match s with
                         | EmptyString => None
                         | _ => (if neg then Z.opp else id) <$> digitsValue 0 s
                         end
                    else digitsValue 0 (String a s))
                   = Some (if neg then - un else un)).
    { subst t. destruct (_ || _) eqn:Hsign.
      - destruct s as [|b s]; [congruence|]. rewrite Hv.
        destruct neg; reflexivity.
      - rewrite Hv. assert (neg = false) as ->; [|reflexivity].
        subst neg. apply orb_false_elim in Hsign as [_ ->].
        apply andb_false_r. }
    rewrite Hdec. destruct neg; cbn [negb andb].
    + destruct (un >? 2 ^ (bitsOf bitSize - 1)) eqn:Hgt; [discriminate|].
      rewrite Z.gtb_ltb in Hgt. apply Z.ltb_ge in Hgt.
      assert (Hval : int64 (- int64 un) = - un).
      { destruct (Z.eq_dec un (2 ^ 63)) as [-> | Hne63]; [reflexivity|].
        rewrite (int64_small un) by lia. apply int64_small. lia. }
      rewrite Hval. intros [= <-]. split; [reflexivity|lia].
    + destruct (un >=? 2 ^ (bitsOf bitSize - 1)) eqn:Hgt; [discriminate|].
      rewrite Z.geb_leb in Hgt. apply Z.leb_gt in Hgt.
      rewrite int64_small by lia. intros [= <-]. split; [reflexivity|lia].
Qed.

Lemma decimalValue_bound s n :
  decimalValue s = Some n -> Z.abs n < 10 ^ len s.
Proof.
  destruct s as [|a s]; [discriminate|].
  rewrite decimalValue_unfold. cbv zeta.
  assert (Hlen : 10 ^ len s <= 10 ^ len (String a s))
    by (apply Z.pow_le_mono_r; unfold len; cbn [String.length]; lia).
  destruct (_ || _).
  - destruct s as [|b s]; [discriminate|].
    destruct (digitsValue 0 (String b s)) as [u|] eqn:Hu; [|discriminate].
    pose proof (digitsValue_ge _ _ _ Hu ltac:(lia)).
    pose proof (digitsValue_lt _ _ _ Hu ltac:(lia)).
    destruct (negb _ && _); cbn [id fmap option_fmap option_map];
      intros [= <-]; lia.
  - intros Hv.
    pose proof (digitsValue_ge _ _ _ Hv ltac:(lia)).
    pose proof (digitsValue_lt _ _ _ Hv ltac:(lia)). lia.
Qed.

(** The fast path of [Atoi] is taken on strings too short to overflow. *)
Lemma Atoi_fast_bound s :
  atoiFast s = true -> 10 ^ len s <= 2 ^ (intSize - 1).
Proof.
  unfold atoiFast. intros Hfast.
  destruct intSize_cases as [E | E]; rewrite E in *;
    cbn [Z.eqb Pos.eqb andb orb] in Hfast.
  - rewrite orb_false_r in Hfast. apply andb_prop in Hfast as [_ Hl].
    apply Z.ltb_lt in Hl.
    transitivity (10 ^ 9); [apply Z.pow_le_mono_r; lia|lia].
  - apply andb_prop in Hfast as [_ Hl]. apply Z.ltb_lt in Hl.
    transitivity (10 ^ 18); [apply Z.pow_le_mono_r; lia|lia].
Qed.

Lemma Atoi_out_of_range s n :
  decimalValue s = Some n ->
  ~ inRange intSize n ->
  strconv.Atoi s
  = (clamp intSize n, Some (strconv.rangeError strconv.fnAtoi s)).
Proof.
  intros Hv Hn. unfold strconv.Atoi.
  destruct (_ || _) eqn:Hfast.
  - apply Atoi_fast_bound in Hfast. apply decimalValue_bound in Hv.
    unfold inRange in Hn. lia.
  - rewrite (ParseInt_out_of_range s 0 n) by (auto || exact Hn).
    change (bitsOf 0) with intSize.
    cbn [strconv.rangeError]. f_equal. apply int_small.
    unfold clamp.
    assert (0 < 2 ^ (intSize - 1))
      by (destruct intSize_cases as [-> | ->]; lia).
    destruct (n <? 0); lia.
Qed.

Lemma atoiLoop_accepts s0 s : forall n v,
  strconv.atoiLoop s0 n s = Some v ->
  0 <= n -> (n + 1) * 10 ^ len s <= 2 ^ (intSize - 1) ->
  digitsValue n s = Some v.
Proof.
  induction s as [|a s IH]; intros n v; cbn [digitsValue strconv.atoiLoop].
  - intros [= <-] _ _. reflexivity.
  - intros Hrun Hn Hlen.
    replace (len (String a s)) with (1 + len s) in Hlen
      by (unfold len; cbn [String.length]; lia).
    rewrite Z.pow_add_r in Hlen by (unfold len; lia).
    assert (Hp : 0 < 10 ^ len s) by (apply Z.pow_pos_nonneg; unfold len; lia).
    pose proof (byte_range a) as Hb.
    destruct ((byte a - c_0) mod 256 >? 9) eqn:Hch; [discriminate|].
    rewrite Z.gtb_ltb in Hch. apply Z.ltb_ge in Hch. unfold c_0, c_9 in *.
    assert (Hd : 48 <= byte a <= 57).
    { destruct (Z_lt_le_dec (byte a) 48) as [Hlt|Hge].
      - replace (byte a - 48) with ((byte a + 208) + (-1) * 256) in Hch by lia.
        rewrite Z.mod_add, Z.mod_small in Hch; lia.
      - rewrite Z.mod_small in Hch; lia. }
    rewrite (proj2 (between_spec 48 57 (byte a)) Hd).
    rewrite Z.mod_small in Hrun by lia.
    rewrite int_small in Hrun by nia.
    apply IH in Hrun; [exact Hrun|lia|nia].
Qed.

Lemma Atoi_accepts s n :
  strconv.Atoi s = (n, None) ->
  decimalValue s = Some n /\ inRange intSize n.
Proof.
  unfold strconv.Atoi.
  destruct (_ || _) eqn:Hfast.
  - apply Atoi_fast_bound in Hfast.
    destruct s as [|a s]; [discriminate|].
    assert (Hlen : 10 * 10 ^ len s = 10 ^ len (String a s)).
    { replace (len (String a s)) with (1 + len s)
        by (unfold len; cbn [String.length]; lia).
      rewrite Z.pow_add_r by (unfold len; lia). reflexivity. }
    assert (Hp : 0 < 10 ^ len s) by (apply Z.pow_pos_nonneg; unfold len; lia).
    rewrite decimalValue_unfold. cbv zeta.
    rewrite (orb_comm (byte a =? c_plus)).
    destruct (_ || _) eqn:Hsign; cbn [andb].
    + destruct s as [|b s]; [discriminate|].
      replace (len (String b s) <? 1) with false
        by (symmetry; apply Z.ltb_ge; unfold len; cbn [String.length]; lia).
      destruct (strconv.atoiLoop _ 0 (String b s)) as [u|] eqn:Hu;
        [|discriminate].
      apply atoiLoop_accepts in Hu; [|lia|lia].
      pose proof (digitsValue_ge _ _ _ Hu ltac:(lia)).
      pose proof (digitsValue_lt _ _ _ Hu ltac:(lia)).
      rewrite Hu. unfold inRange.
      destruct (byte a =? c_minus) eqn:Hm.
      * assert ((byte a =? c_plus) = false) as ->
          by (apply Z.eqb_eq in Hm; rewrite Hm; reflexivity).
        cbn [negb andb fmap option_fmap option_map].
        rewrite int_small by lia. intros [= <-]. split; [reflexivity|lia].
      * rewrite andb_false_r. cbn [id fmap option_fmap option_map].
        intros [= <-]. split; [reflexivity|lia].
    + destruct (strconv.atoiLoop _ 0 (String a s)) as [u|] eqn:Hu;
        [|discriminate].
      apply atoiLoop_accepts in Hu; [|lia|lia].
      pose proof (digitsValue_ge _ _ _ Hu ltac:(lia)).
      pose proof (digitsValue_lt _ _ _ Hu ltac:(lia)).
      apply orb_false_elim in Hsign as [-> _].
      intros [= <-]. split; [exact Hu|unfold inRange; lia].
  - destruct (strconv.ParseInt s 10 0) as [i64 [e|]] eqn:HP.
    + destruct e; discriminate.
    + apply ParseInt_accepts in HP as [Hv Hr]; [|auto].
      change (bitsOf 0) with intSize in Hr.
      rewrite int_small by exact Hr. intros [= <-]. auto.
Qed.

Lemma parseUintLoop_short s0 maxVal s : forall n r e,
  strconv.parseUintLoop s0 10 false (maxUint64 / 10 + 1) maxVal false n s
  = (r, Some e) ->
  0 <= n -> (n + 1) * 10 ^ len s <= maxVal + 1 -> maxVal <= maxUint64 ->
  r = 0 /\ e = strconv.syntaxError strconv.fnParseUint s0.
Proof.
  induction s as [|a s IH]; intros n r e; cbn [strconv.parseUintLoop].
  - discriminate.
  - rewrite andb_false_r.
    assert (Hc : maxUint64 / 10 + 1 = 1844674407370955162) by reflexivity.
    assert (HU' : maxUint64 = 18446744073709551615) by reflexivity.
    intros Hrun Hn Hlen HU.
    replace (len (String a s)) with (1 + len s) in Hlen
      by (unfold len; cbn [String.length]; lia).
    rewrite Z.pow_add_r in Hlen by (unfold len; lia).
    assert (Hp : 0 < 10 ^ len s) by (apply Z.pow_pos_nonneg; unfold len; lia).
    destruct (between c_0 c_9 (byte a)) eqn:Hd.
    + apply between_spec in Hd. unfold c_0, c_9 in *.
      assert (Hd10 : (byte a - 48 >=? 10 mod 256) = false)
        by (change (10 mod 256) with 10; rewrite Z.geb_leb; apply Z.leb_gt; lia).
      rewrite Hd10, Hc in Hrun.
      replace (n >=? 1844674407370955162) with false in Hrun
        by (symmetry; rewrite Z.geb_leb; apply Z.leb_gt; nia).
      assert (Hw1 : uint64 (n * 10) = n * 10)
        by (unfold uint64, wrapU; apply Z.mod_small; nia).
      rewrite Hw1 in Hrun.
      assert (Hw2 : uint64 (n * 10 + (byte a - 48)) = n * 10 + (byte a - 48))
        by (unfold uint64, wrapU; apply Z.mod_small; nia).
      rewrite Hw2 in Hrun.
      replace ((n * 10 + (byte a - 48) <? n * 10)
               || (n * 10 + (byte a - 48) >? maxVal)) with false in Hrun.
      * rewrite <- Hc in Hrun. apply IH in Hrun; [exact Hrun|lia|nia|exact HU].
      * symmetry. apply orb_false_intro; [apply Z.ltb_ge; lia|].
        rewrite Z.gtb_ltb. apply Z.ltb_ge. nia.
    + destruct (between c_a c_z (strconv.lower (byte a))) eqn:Hl.
      * apply between_spec in Hl. unfold c_a, c_z in *.
        replace (strconv.lower (byte a) - 97 + 10 >=? 10 mod 256) with true
          in Hrun
          by (symmetry; change (10 mod 256) with 10; rewrite Z.geb_leb;
              apply Z.leb_le; lia).
        injection Hrun as <- <-. auto.
      * injection Hrun as <- <-. auto.
Qed.

(** A string of fewer than 20 bytes that [ParseInt] refuses at 64 bits and
    that is no numeral is refused for its syntax. *)
Lemma ParseInt64_malformed s :
  decimalValue s = None -> len s < 20 ->
  strconv.ParseInt s 10 64
  = (0, Some (strconv.syntaxError strconv.fnParseInt s)).
Proof.
  intros Hv Hlen. destruct s as [|a s]; [reflexivity|].
  rewrite ParseInt_unfold. rewrite decimalValue_unfold in Hv. cbv zeta in *.
  set (neg := negb (byte a =? c_plus) && (byte a =? c_minus)) in *.
  set (t := if (byte a =? c_plus) || (byte a =? c_minus)
            then s else String a s) in *.
  assert (Ht : len t < 20 /\ (t = EmptyString \/ digitsValue 0 t = None)).
  { subst t. replace (len (String a s)) with (1 + len s) in Hlen
      by (unfold len; cbn [String.length]; lia).
    destruct (_ || _).
    - split; [lia|]. destruct s as [|b s]; [auto|right].
      destruct (digitsValue 0 (String b s)); [discriminate|reflexivity].
    - split; [unfold len in *; cbn [String.length]; lia|auto]. }
  destruct Ht as [Hlt Ht].
  destruct (strconv.ParseUint t 10 64) as [un [e|]] eqn:HU.
  - destruct t as [|b t'].
    + injection HU as <- <-. reflexivity.
    + rewrite ParseUint_unfold in HU by auto.
      change (bitsOf 64) with 64 in HU.
      apply parseUintLoop_short in HU as [-> ->]; [reflexivity|lia| |].
      * transitivity (10 ^ 19); [|lia].
        rewrite Z.mul_1_l. apply Z.pow_le_mono_r; lia.
      * unfold maxUint64. lia.
  - apply ParseUint_accepts in HU as (Hne & Hd & _); [|auto].
    destruct Ht as [-> | Hnone]; congruence.
Qed.

(** On the fast path [Atoi] refuses only for the syntax. *)
Lemma Atoi_malformed_short s :
  decimalValue s = None ->
  atoiFast s = true ->
  strconv.Atoi s = (0, Some (strconv.syntaxError strconv.fnAtoi s)).
Proof.
  unfold atoiFast. intros Hv Hfast.
  destruct (strconv.Atoi s) as [n [e|]] eqn:HA.
  - revert HA. unfold strconv.Atoi. rewrite Hfast.
    destruct s as [|a s]; [intros [= <- <-]; reflexivity|].
    repeat case_match; intros [= <- <-]; reflexivity.
  - apply Atoi_accepts in HA as [HA _]. congruence.
Qed.
End DecimalFacts.

(** What the parsers answer on the inputs the specification quotes, on
    either width of [int]. *)
Lemma strconvParse_examples (P : Platform) :
  strconvParse TInt "123" = Some (VInt 123, None)
  /\ strconvParse TInt "-50" = Some (VInt (-50), None)
  /\ strconvParse TInt64 "9223372036854775807"
     = Some (VInt64 9223372036854775807, None)
  /\ strconvParse TBool "true" = Some (VBool true, None)
  /\ strconvParse TBool "false" = Some (VBool false, None)
  /\ strconvParse TFloat64 "3.14" = Some (VFloat64 float64_3_14, None).
Proof. destruct P as [[] tbl]; vm_compute; repeat split. Qed.

Lemma strconvParse_failures (P : Platform) :
  strconvParse TInt "abc"
  = Some (VInt 0, Some (NumError "Atoi" "abc" ErrSyntax))
  /\ strconvParse TInt64 "xyz"
     = Some (VInt64 0, Some (NumError "ParseInt" "xyz" ErrSyntax))
  /\ strconvParse TBool "not_a_bool"
     = Some (VBool false, Some (NumError "ParseBool" "not_a_bool" ErrSyntax))
  /\ strconvParse TFloat64 "not_a_float"
     = Some (VFloat64 (S754_zero false),
             Some (NumError "ParseFloat" "not_a_float" ErrSyntax))
  /\ strconvParse TInt64 "9223372036854775808"
     = Some (VInt64 9223372036854775807,
             Some (NumError "ParseInt" "9223372036854775808" ErrRange))
  /\ strconvParse TFloat64 "1e400"
     = Some (VFloat64 (S754_infinity false),
             Some (NumError "ParseFloat" "1e400" ErrRange)).
Proof. destruct P as [[] tbl]; vm_compute; repeat split. Qed.

Lemma float64_3_14_nearest : nearestFloat64 314 100 float64_3_14.
Proof. unfold nearestFloat64, float64_3_14. repeat split; try lia. Qed.

(** ** ReadEnv, path by path *)
Section ReadEnvFacts.
Context `{Platform}.
Variable env : os.Environ.

Lemma Getenv_lookup key raw :
  os.LookupEnv env key = Some raw -> os.Getenv env key = raw.
Proof. unfold os.Getenv. intros ->. reflexivity. Qed.

Lemma Getenv_unsetOrEmpty key :
  unsetOrEmpty env key <-> os.Getenv env key = EmptyString.
Proof.
  unfold unsetOrEmpty, os.Getenv.
  destruct (os.LookupEnv env key) as [raw|]; simpl; split.
  - intros [?|[= ->]]; [discriminate|reflexivity].
  - intros ->. right; reflexivity.
  - reflexivity.
  - left; reflexivity.
Qed.

(** Lines 10 to 14: the early return. *)
Lemma ReadEnv_empty T key d :
  os.Getenv env key = EmptyString ->
  envreader.ReadEnv env T key d = ([CallGetenv key], Some (d, None)).
Proof.
  intros HG. unfold envreader.ReadEnv, envreader.Getenv, calling.
  unfold mbind, Exec_bind. rewrite HG.
  destruct (decide _) as [_|Hne]; [reflexivity|congruence].
Qed.

(** Past the early return, with [HG] the value [Getenv] gave. *)
Ltac enter_ReadEnv HG :=
  unfold envreader.ReadEnv, envreader.Getenv, calling;
  unfold mbind, Exec_bind; rewrite HG;
  destruct (decide _) as [?|_]; [congruence|].

(** Lines 30 and 31: [case string]. *)
Lemma ReadEnv_string key d raw :
  os.Getenv env key = raw -> raw <> EmptyString ->
  envreader.ReadEnv env TString key d =
  ([CallGetenv key], Some (VString raw, None)).
Proof. intros HG Hne. enter_ReadEnv HG. reflexivity. Qed.

(** Lines 18 to 29 and 32 to 43: the four cases that parse. *)
Lemma ReadEnv_parseable T key d raw :
  parseable T = true ->
  os.Getenv env key = raw -> raw <> EmptyString ->
  envreader.ReadEnv env T key d =
  (CallGetenv key :: strconvCall T raw,
   match strconvParse T raw with
   | Some (v, None) => Some (v, None)
   | Some (_, Some e) =>
     Some (d, Some (wrapError
                      (conversionMessage (strconv.Quote raw) (typeString T)
                         (fmt.Error e)) e))
   | None => None
   end).
Proof.
  intros HT HG Hne. enter_ReadEnv HG.
  destruct T; try discriminate HT;
    cbn [zero dynamicType dynamic typeOf fmap option_fmap option_map
         strconvCall strconvParse typeString];
    unfold envreader.Atoi, envreader.ParseInt, envreader.ParseBool,
      envreader.ParseFloat, calling.
  - destruct (strconv.Atoi raw) as [n [e|]]; [|reflexivity].
    unfold fmt.Errorf, conversionMessage. cbn.
    rewrite append_empty_r. reflexivity.
  - destruct (strconv.ParseInt raw 10 64) as [n [e|]]; [|reflexivity].
    unfold fmt.Errorf, conversionMessage. cbn.
    rewrite append_empty_r. reflexivity.
  - destruct (strconv.ParseBool raw) as [n [e|]]; [|reflexivity].
    unfold fmt.Errorf, conversionMessage. cbn.
    rewrite append_empty_r. reflexivity.
  - destruct (strconv.ParseFloat raw 64) as [n [e|]]; [|reflexivity].
    unfold fmt.Errorf, conversionMessage. cbn.
    rewrite append_empty_r. reflexivity.
Qed.

(** Line 46: no case of the switch matches. *)
Lemma ReadEnv_unsupported T key d raw :
  supported T = false ->
  os.Getenv env key = raw -> raw <> EmptyString ->
  envreader.ReadEnv env T key d =
  ([CallGetenv key],
   Some (d, Some (errorString (unsupportedMessage (fmt.verbT d))))).
Proof.
  intros HT HG Hne. enter_ReadEnv HG.
  assert (Hmsg : fmt.Errorf
     [fmt.Lit "unsupported type for environment variable conversion: ";
      fmt.T d] = errorString (unsupportedMessage (fmt.verbT d))).
  { unfold fmt.Errorf, unsupportedMessage.
    cbn [fmt.wrapped omap list_omap fmt.Sprint].
    rewrite append_empty_r. reflexivity. }
  destruct (dynamicType (zero T)) as [U|] eqn:HU.
  - destruct (supported U) eqn:HS.
    + apply dynamicType_zero_inv in HU; [|assumption]. congruence.
    + destruct U; try discriminate HS; cbn [app]; rewrite Hmsg; reflexivity.
  - cbn [app]. rewrite Hmsg. reflexivity.
Qed.

(** A parse failure: the default comes back with the cause wrapped. *)
Lemma ReadEnv_parse_failure T key raw d v cause :
  os.LookupEnv env key = Some raw ->
  raw <> EmptyString ->
  strconvParse T raw = Some (v, Some cause) ->
  envreader.ReadEnv env T key d
  = (CallGetenv key :: strconvCall T raw,
     Some (d,
           Some (wrapError
                   (conversionMessage (strconv.Quote raw) (typeString T)
                      (fmt.Error cause)) cause))).
Proof.
  intros HL Hne Hv. apply Getenv_lookup in HL.
  assert (HP : parseable T = true)
    by (destruct T; try discriminate Hv; reflexivity).
  rewrite (ReadEnv_parseable T key d raw HP HL Hne), Hv.
  reflexivity.
Qed.

(** Every run returns, and what it returns is the default or a value read
    from the raw string. *)
Lemma ReadEnv_returns T key d :
  exists v err,
    result (envreader.ReadEnv env T key d) = Some (v, err)
    /\ (err <> None -> v = d)
    /\ (v = d
        \/ (err = None /\ os.Getenv env key <> EmptyString
            /\ parsedFrom T (os.Getenv env key) v)).
Proof.
  destruct (decide (os.Getenv env key = EmptyString)) as [He|Hne].
  { rewrite ReadEnv_empty by assumption. exists d, None. auto. }
  destruct (supported T) eqn:HS.
  - apply supported_cases in HS as [-> | HP].
    + rewrite (ReadEnv_string key d _ eq_refl Hne).
      exists (VString (os.Getenv env key)), None. cbn.
      split; [reflexivity|]. split; [congruence|]. right. auto.
    + rewrite (ReadEnv_parseable T key d _ HP eq_refl Hne).
      destruct (strconvParse_parseable T (os.Getenv env key) HP)
        as (v & e & Hv).
      rewrite Hv. destruct e as [e|].
      * eexists _, _. cbn. split; [reflexivity|]. auto.
      * exists v, None. cbn. split; [reflexivity|]. split; [congruence|].
        right. split; [reflexivity|]. split; [assumption|].
        unfold parsedFrom. destruct T; try discriminate HP; assumption.
  - rewrite (ReadEnv_unsupported T key d _ HS eq_refl Hne).
    eexists _, _. cbn. split; [reflexivity|]. auto.
Qed.

End ReadEnvFacts.

(** * The claims *)

(** C1.  For a supported type [T] and any default, when the variable named
    by [key] is unset or set to the empty string, [ReadEnv] returns the
    default with a nil error straight after the one call to [os.Getenv];
    an environment where the variable is unset and one where it is empty
    give the same run. *)
Theorem ReadEnv_unset_or_empty_returns_default `{Platform}
    (env : os.Environ) (T : GoType) (key : string) (defaultValue : value) :
  supported T = true ->
  unsetOrEmpty env key ->
  envreader.ReadEnv env T key defaultValue
  = ([CallGetenv key], Some (defaultValue, None))
  /\ forall env' : os.Environ, unsetOrEmpty env' key ->
       envreader.ReadEnv env' T key defaultValue
       = envreader.ReadEnv env T key defaultValue.
Proof.
  intros _ Hu. apply Getenv_unsetOrEmpty in Hu.
  split; [apply ReadEnv_empty; assumption|].
  intros env' Hu'. apply Getenv_unsetOrEmpty in Hu'.
  rewrite !ReadEnv_empty by assumption. reflexivity.
Qed.

Lemma ReadEnv_unset_or_empty_returns_default_witness :
  supported TInt = true
  /\ unsetOrEmpty testEnv "TEST_EMPTY"
  /\ unsetOrEmpty testEnv "NON_EXISTENT_INT"
  /\ (envreader.ReadEnv (H := amd64) testEnv TInt "TEST_EMPTY" (VInt 789)
      = ([CallGetenv "TEST_EMPTY"], Some (VInt 789, None))
      /\ forall env' : os.Environ, unsetOrEmpty env' "TEST_EMPTY" ->
           envreader.ReadEnv (H := amd64) env' TInt "TEST_EMPTY" (VInt 789)
           = envreader.ReadEnv (H := amd64) testEnv TInt "TEST_EMPTY"
               (VInt 789)).
Proof.
  assert (He : unsetOrEmpty testEnv "TEST_EMPTY")
    by (right; vm_compute; reflexivity).
  assert (Hu : unsetOrEmpty testEnv "NON_EXISTENT_INT")
    by (left; vm_compute; reflexivity).
  exact (conj eq_refl (conj He (conj Hu
    (@ReadEnv_unset_or_empty_returns_default amd64 testEnv TInt "TEST_EMPTY"
       (VInt 789) eq_refl He)))).
Defined.

(** C2.  For every type, key, default and environment, [ReadEnv] returns
    a value that is the default or was read from the raw string without
    error; whenever the error is not nil the value is the default. *)
Theorem ReadEnv_value_is_parsed_or_default `{Platform}
    (env : os.Environ) (T : GoType) (key : string) (defaultValue : value) :
  exists v err,
    result (envreader.ReadEnv env T key defaultValue) = Some (v, err)
    /\ (err <> None -> v = defaultValue)
    /\ (v = defaultValue
        \/ (err = None /\ os.Getenv env key <> EmptyString
            /\ parsedFrom T (os.Getenv env key) v)).
Proof.
  destruct (ReadEnv_returns env T key defaultValue) as (v & err & Hr & He & Hv).
  exists v, err. split; [exact Hr|]. split; [exact He|exact Hv].
Qed.

(** C3, as the code has it.  For a type outside the supported set and a
    non-empty raw value, [ReadEnv] returns the default and an error made
    without [%w] whose message is the fixed text followed by what [%T]
    prints for the default: the name of its dynamic type, which for a
    default of a concrete type [T] is the name of [T].  No parser is
    called.  The two unsupported types of the tests print as
    [struct { Name string }] and [[]int]. *)
Theorem ReadEnv_unsupported_nonempty `{Platform}
    (env : os.Environ) (T : GoType) (key raw : string) (defaultValue : value) :
  supported T = false ->
  os.LookupEnv env key = Some raw ->
  raw <> EmptyString ->
  envreader.ReadEnv env T key defaultValue
  = ([CallGetenv key],
     Some (defaultValue,
           Some (errorString (unsupportedMessage (fmt.verbT defaultValue)))))
  /\ (isInterface T = false -> typeOf defaultValue = T ->
      fmt.verbT defaultValue = typeString T)
  /\ fmt.verbT structDefault = "struct { Name string }"
  /\ fmt.verbT sliceDefault = "[]int".
Proof.
  intros HS HL Hne. split; [|split; [|split; reflexivity]].
  - apply ReadEnv_unsupported with (raw := raw);
      [assumption | apply Getenv_lookup; assumption | assumption].
  - intros Hi Ht. unfold fmt.verbT.
    rewrite dynamic_concrete by (rewrite Ht; exact Hi). rewrite Ht. reflexivity.
Qed.

Lemma ReadEnv_unsupported_nonempty_witness :
  supported structType = false
  /\ os.LookupEnv testEnv "TEST_STRUCT" = Some "{}"
  /\ "{}" <> EmptyString
  /\ envreader.ReadEnv (H := amd64) testEnv structType "TEST_STRUCT"
       structDefault
     = ([CallGetenv "TEST_STRUCT"],
        Some (structDefault,
              Some (errorString
                      (unsupportedMessage (fmt.verbT structDefault)))))
  /\ (isInterface structType = false -> typeOf structDefault = structType ->
      fmt.verbT structDefault = typeString structType)
  /\ fmt.verbT structDefault = "struct { Name string }"
  /\ fmt.verbT sliceDefault = "[]int".
Proof.
  assert (HL : os.LookupEnv testEnv "TEST_STRUCT" = Some "{}")
    by (vm_compute; reflexivity).
  assert (Hne : "{}" <> EmptyString) by discriminate.
  exact (conj eq_refl (conj HL (conj Hne
    (@ReadEnv_unsupported_nonempty amd64 testEnv structType "TEST_STRUCT" "{}"
       structDefault eq_refl HL Hne)))).
Defined.

(** C3 as stated fails on the empty raw value: with the variable set to
    the empty string, an unsupported type gets the default and a nil
    error. *)
Lemma ReadEnv_unsupported_empty_raw_no_error :
  supported structType = false
  /\ os.LookupEnv testEnv "TEST_EMPTY" = Some EmptyString
  /\ envreader.ReadEnv (H := amd64) testEnv structType "TEST_EMPTY"
       structDefault
     = ([CallGetenv "TEST_EMPTY"], Some (structDefault, None)).
Proof.
  split; [reflexivity|]. split; [vm_compute; reflexivity|].
  apply ReadEnv_empty. vm_compute. reflexivity.
Qed.

(** C4.  For a supported type and a non-empty raw value that is well
    formed for it, [ReadEnv] returns the value read with a nil error.  For
    the two integer types the well-formed values are the decimal numerals
    in the range of the type, read as the integer they write, and no other
    raw value is accepted.  The six inputs the specification quotes give
    the values it names; the [float64] returned for [3.14] is
    [float64_3_14], the double nearest to 3.14. *)
Theorem ReadEnv_well_formed_values `{Platform}
    (env : os.Environ) (key raw : string) (defaultValue : value) :
  os.LookupEnv env key = Some raw ->
  raw <> EmptyString ->
  (forall T v, supported T = true -> parsedFrom T raw v ->
     result (envreader.ReadEnv env T key defaultValue) = Some (v, None))
  /\ (forall v,
        result (envreader.ReadEnv env TInt key defaultValue) = Some (v, None)
        <-> exists n, decimalValue raw = Some n /\ inRange intSize n
                      /\ v = VInt n)
  /\ (forall v,
        result (envreader.ReadEnv env TInt64 key defaultValue) = Some (v, None)
        <-> exists n, decimalValue raw = Some n /\ inRange 64 n
                      /\ v = VInt64 n)
  /\ (raw = "123" ->
      result (envreader.ReadEnv env TInt key defaultValue)
      = Some (VInt 123, None))
  /\ (raw = "-50" ->
      result (envreader.ReadEnv env TInt key defaultValue)
      = Some (VInt (-50), None))
  /\ (raw = "9223372036854775807" ->
      result (envreader.ReadEnv env TInt64 key defaultValue)
      = Some (VInt64 9223372036854775807, None))
  /\ (raw = "true" ->
      result (envreader.ReadEnv env TBool key defaultValue)
      = Some (VBool true, None))
  /\ (raw = "false" ->
      result (envreader.ReadEnv env TBool key defaultValue)
      = Some (VBool false, None))
  /\ (raw = "3.14" ->
      result (envreader.ReadEnv env TFloat64 key defaultValue)
      = Some (VFloat64 float64_3_14, None)
      /\ nearestFloat64 314 100 float64_3_14).
Proof.
  intros HL Hne. apply Getenv_lookup in HL.
  assert (Hrun : forall T, parseable T = true ->
            result (envreader.ReadEnv env T key defaultValue)
            = match strconvParse T raw with
              | Some (v, None) => Some (v, None)
              | Some (_, Some e) =>
                Some (defaultValue,
                      Some (wrapError
                              (conversionMessage (strconv.Quote raw)
                                 (typeString T) (fmt.Error e)) e))
              | None => None
              end).
  { intros T HP.
    rewrite (ReadEnv_parseable env T key defaultValue raw HP HL Hne).
    reflexivity. }
  assert (Hgen : forall T v, supported T = true -> parsedFrom T raw v ->
            result (envreader.ReadEnv env T key defaultValue)
            = Some (v, None)).
  { intros T v HS Hv. apply supported_cases in HS as [-> | HP].
    - cbn [parsedFrom] in Hv. subst v.
      rewrite (ReadEnv_string env key defaultValue raw HL Hne). reflexivity.
    - assert (Hp : strconvParse T raw = Some (v, None))
        by (destruct T; try discriminate HP; exact Hv).
      rewrite (Hrun T HP), Hp. reflexivity. }
  destruct (strconvParse_examples H) as (E1 & E2 & E3 & E4 & E5 & E6).
  split; [exact Hgen|].
  split.
  { intros v. rewrite (Hrun TInt eq_refl). cbn [strconvParse]. split.
    - destruct (strconv.Atoi raw) as [n [e|]] eqn:HA; [discriminate|].
      intros [= <-]. apply Atoi_accepts in HA as [Hd Hr]. eauto.
    - intros (n & Hd & Hr & ->). rewrite (Atoi_decimal raw n Hd Hr).
      reflexivity. }
  split.
  { intros v. rewrite (Hrun TInt64 eq_refl). cbn [strconvParse]. split.
    - destruct (strconv.ParseInt raw 10 64) as [n [e|]] eqn:HA;
        [discriminate|].
      intros [= <-]. apply ParseInt_accepts in HA as [Hd Hr]; [|auto]. eauto.
    - intros (n & Hd & Hr & ->).
      rewrite (ParseInt_decimal raw 64 n (or_intror eq_refl) Hd Hr).
      reflexivity. }
  split; [intros ->; apply Hgen; [reflexivity|exact E1]|].
  split; [intros ->; apply Hgen; [reflexivity|exact E2]|].
  split; [intros ->; apply Hgen; [reflexivity|exact E3]|].
  split; [intros ->; apply Hgen; [reflexivity|exact E4]|].
  split; [intros ->; apply Hgen; [reflexivity|exact E5]|].
  intros ->. split; [apply Hgen; [reflexivity|exact E6]|].
  apply float64_3_14_nearest.
Qed.

Lemma ReadEnv_well_formed_values_witness :
  os.LookupEnv testEnv "TEST_INT" = Some "123"
  /\ "123" <> EmptyString
  /\ result (envreader.ReadEnv (H := amd64) testEnv TInt "TEST_INT" (VInt 0))
     = Some (VInt 123, None).
Proof.
  assert (HL : os.LookupEnv testEnv "TEST_INT" = Some "123")
    by (vm_compute; reflexivity).
  assert (Hne : "123" <> EmptyString) by discriminate.
  exact (conj HL (conj Hne
    (proj1 (proj2 (proj2 (proj2
       (@ReadEnv_well_formed_values amd64 testEnv "TEST_INT" "123"
          (VInt 0) HL Hne)))) eq_refl))).
Defined.

(** C5, as the code has it.  For a parseable type and a non-empty raw
    value that fails to parse, [ReadEnv] returns the default and an error
    that wraps the parser's; its text is [failed to convert Q to T: M],
    where [T] names the type, [M] is the parser's message and [Q] is the
    raw value as [%q] renders it, that is [strconv.Quote]: between double
    quotes, with double quotes, backslashes and unprintable bytes escaped.
    On a raw value of plain characters, such as the four malformed inputs of
    the specification, [Q] is the raw value between double quotes. *)
Theorem ReadEnv_conversion_error `{Platform}
    (env : os.Environ) (key raw : string) (defaultValue : value) :
  os.LookupEnv env key = Some raw ->
  raw <> EmptyString ->
  (forall T v cause, strconvParse T raw = Some (v, Some cause) ->
     exists err,
       envreader.ReadEnv env T key defaultValue
       = (CallGetenv key :: strconvCall T raw, Some (defaultValue, Some err))
       /\ errors.Unwrap err = Some cause
       /\ fmt.Error err
          = conversionMessage (strconv.Quote raw) (typeString T)
              (fmt.Error cause)
       /\ (exists fn reason,
             fmt.Error cause = parseMessage fn (strconv.Quote raw) reason)
       /\ (plain raw = true ->
           fmt.Error err
           = conversionMessage (doubleQuoted raw) (typeString T)
               (fmt.Error cause)))
  /\ (raw = "abc" ->
      exists err,
        result (envreader.ReadEnv env TInt key defaultValue)
        = Some (defaultValue, Some err)
        /\ fmt.Error err
           = conversionMessage (doubleQuoted "abc") "int"
               (parseMessage "Atoi" (doubleQuoted "abc") "invalid syntax"))
  /\ (raw = "xyz" ->
      exists err,
        result (envreader.ReadEnv env TInt64 key defaultValue)
        = Some (defaultValue, Some err)
        /\ fmt.Error err
           = conversionMessage (doubleQuoted "xyz") "int64"
               (parseMessage "ParseInt" (doubleQuoted "xyz") "invalid syntax"))
  /\ (raw = "not_a_bool" ->
      exists err,
        result (envreader.ReadEnv env TBool key defaultValue)
        = Some (defaultValue, Some err)
        /\ fmt.Error err
           = conversionMessage (doubleQuoted "not_a_bool") "bool"
               (parseMessage "ParseBool" (doubleQuoted "not_a_bool")
                  "invalid syntax"))
  /\ (raw = "not_a_float" ->
      exists err,
        result (envreader.ReadEnv env TFloat64 key defaultValue)
        = Some (defaultValue, Some err)
        /\ fmt.Error err
           = conversionMessage (doubleQuoted "not_a_float") "float64"
               (parseMessage "ParseFloat" (doubleQuoted "not_a_float")
                  "invalid syntax")).
Proof.
  intros HL Hne.
  destruct (strconvParse_failures H) as (F1 & F2 & F3 & F4 & _).
  split; [|repeat split; intros ->].
  - intros T v cause Hv.
    rewrite (ReadEnv_parse_failure env T key raw defaultValue v cause HL Hne Hv).
    eexists. split; [reflexivity|]. split; [reflexivity|].
    split; [reflexivity|]. split.
    + destruct (strconvParse_error T raw v cause Hv) as (fn & s & -> & Hs).
      exists fn. destruct Hs as [-> | ->]; eexists; reflexivity.
    + intros Hplain. cbn [fmt.Error].
      rewrite Quote_plain by assumption. reflexivity.
  - rewrite (ReadEnv_parse_failure env TInt key _ defaultValue _ _ HL Hne F1).
    eexists. split; [reflexivity|]. cbn [fmt.Error].
    rewrite Quote_plain by reflexivity. reflexivity.
  - rewrite (ReadEnv_parse_failure env TInt64 key _ defaultValue _ _ HL Hne F2).
    eexists. split; [reflexivity|]. cbn [fmt.Error].
    rewrite Quote_plain by reflexivity. reflexivity.
  - rewrite (ReadEnv_parse_failure env TBool key _ defaultValue _ _ HL Hne F3).
    eexists. split; [reflexivity|]. cbn [fmt.Error].
    rewrite Quote_plain by reflexivity. reflexivity.
  - rewrite (ReadEnv_parse_failure env TFloat64 key _ defaultValue _ _ HL Hne F4).
    eexists. split; [reflexivity|]. cbn [fmt.Error].
    rewrite Quote_plain by reflexivity. reflexivity.
Qed.

Lemma ReadEnv_conversion_error_witness :
  os.LookupEnv testEnv "TEST_INVALID_INT" = Some "abc"
  /\ "abc" <> EmptyString
  /\ exists err,
       result (envreader.ReadEnv (H := amd64) testEnv TInt "TEST_INVALID_INT"
                 (VInt 10))
       = Some (VInt 10, Some err)
       /\ fmt.Error (H := amd64) err
          = conversionMessage (doubleQuoted "abc") "int"
              (parseMessage "Atoi" (doubleQuoted "abc") "invalid syntax").
Proof.
  assert (HL : os.LookupEnv testEnv "TEST_INVALID_INT" = Some "abc")
    by (vm_compute; reflexivity).
  assert (Hne : "abc" <> EmptyString) by discriminate.
  exact (conj HL (conj Hne
    (proj1 (proj2 (@ReadEnv_conversion_error amd64 testEnv "TEST_INVALID_INT"
                     "abc" (VInt 10) HL Hne)) eq_refl))).
Defined.

(** C5 as stated fails on a raw value with a double quote in it: for the
    three bytes [a], double quote, [b] the text holds the quote escaped by
    a backslash, not the raw value between double quotes. *)
Lemma ReadEnv_conversion_message_escapes_quote :
  os.LookupEnv quotedEnv "TEST_INVALID_INT" = Some quotedRaw
  /\ strconvParse (H := amd64) TInt quotedRaw
     = Some (VInt 0, Some (NumError "Atoi" quotedRaw ErrSyntax))
  /\ (exists err,
        result (envreader.ReadEnv (H := amd64) quotedEnv TInt
                  "TEST_INVALID_INT" (VInt 10))
        = Some (VInt 10, Some err)
        /\ fmt.Error (H := amd64) err
           = conversionMessage
               (str1 c_dquote +:+ "a" +:+ str1 c_backslash +:+ str1 c_dquote
                +:+ "b" +:+ str1 c_dquote)
               "int"
               (fmt.Error (H := amd64) (NumError "Atoi" quotedRaw ErrSyntax))
        /\ fmt.Error (H := amd64) err
           <> conversionMessage (doubleQuoted quotedRaw) "int"
                (fmt.Error (H := amd64) (NumError "Atoi" quotedRaw ErrSyntax))).
Proof.
  split; [vm_compute; reflexivity|]. split; [vm_compute; reflexivity|].
  eexists. split; [vm_compute; reflexivity|].
  split; [vm_compute; reflexivity|].
  apply String.eqb_neq. vm_compute. reflexivity.
Qed.

(** C6.  The error [ReadEnv] returns for a failed parse wraps the error
    of the parser: [errors.Unwrap] gives it back, it is the [NumError] of
    the parser holding one of the two sentinels of [strconv], and
    [errors.Is] on the returned error finds that sentinel and not the
    other.  For the integer types a numeral out of the range of the type
    meets [ErrRange], and a raw value that is no numeral and is too short
    to overflow meets [ErrSyntax]. *)
Theorem ReadEnv_conversion_error_wraps_cause `{Platform}
    (env : os.Environ) (key raw : string) (defaultValue : value) :
  os.LookupEnv env key = Some raw ->
  raw <> EmptyString ->
  (forall T v cause, strconvParse T raw = Some (v, Some cause) ->
     exists err fn sentinel,
       result (envreader.ReadEnv env T key defaultValue)
       = Some (defaultValue, Some err)
       /\ errors.Unwrap err = Some cause
       /\ cause = NumError fn raw sentinel
       /\ errors.Unwrap cause = Some sentinel
       /\ ((sentinel = ErrSyntax
            /\ errors.Is err ErrSyntax = true
            /\ errors.Is err ErrRange = false)
           \/ (sentinel = ErrRange
               /\ errors.Is err ErrRange = true
               /\ errors.Is err ErrSyntax = false)))
  /\ (forall n, decimalValue raw = Some n -> ~ inRange intSize n ->
      exists err,
        result (envreader.ReadEnv env TInt key defaultValue)
        = Some (defaultValue, Some err)
        /\ errors.Is err ErrRange = true /\ errors.Is err ErrSyntax = false)
  /\ (forall n, decimalValue raw = Some n -> ~ inRange 64 n ->
      exists err,
        result (envreader.ReadEnv env TInt64 key defaultValue)
        = Some (defaultValue, Some err)
        /\ errors.Is err ErrRange = true /\ errors.Is err ErrSyntax = false)
  /\ (decimalValue raw = None -> atoiFast raw = true ->
      exists err,
        result (envreader.ReadEnv env TInt key defaultValue)
        = Some (defaultValue, Some err)
        /\ errors.Is err ErrSyntax = true /\ errors.Is err ErrRange = false)
  /\ (decimalValue raw = None -> len raw < 20 ->
      exists err,
        result (envreader.ReadEnv env TInt64 key defaultValue)
        = Some (defaultValue, Some err)
        /\ errors.Is err ErrSyntax = true /\ errors.Is err ErrRange = false)
  /\ (raw = "1e400" ->
      exists err,
        result (envreader.ReadEnv env TFloat64 key defaultValue)
        = Some (defaultValue, Some err)
        /\ errors.Is err ErrRange = true /\ errors.Is err ErrSyntax = false).
Proof.
  intros HL Hne.
  assert (Hfail : forall T v cause,
            strconvParse T raw = Some (v, Some cause) ->
            result (envreader.ReadEnv env T key defaultValue)
            = Some (defaultValue,
                    Some (wrapError
                            (conversionMessage (strconv.Quote raw)
                               (typeString T) (fmt.Error cause)) cause))).
  { intros T v cause Hv.
    rewrite (ReadEnv_parse_failure env T key raw defaultValue v cause HL Hne Hv).
    reflexivity. }
  split; [|split; [|split; [|split; [|split]]]].
  - intros T v cause Hv.
    destruct (strconvParse_error T raw v cause Hv) as (fn & sentinel & -> & Hs).
    rewrite (Hfail T v _ Hv). eexists _, fn, sentinel.
    split; [reflexivity|]. split; [reflexivity|]. split; [reflexivity|].
    split; [reflexivity|].
    destruct Hs as [-> | ->]; [left|right]; repeat split.
  - intros n Hd Hr. erewrite Hfail
      by (cbn [strconvParse]; rewrite (Atoi_out_of_range raw n Hd Hr);
          reflexivity).
    eexists. repeat split.
  - intros n Hd Hr. erewrite Hfail
      by (cbn [strconvParse];
          rewrite (ParseInt_out_of_range raw 64 n (or_intror eq_refl) Hd Hr);
          reflexivity).
    eexists. repeat split.
  - intros Hd Hshort. erewrite Hfail
      by (cbn [strconvParse]; rewrite (Atoi_malformed_short raw Hd Hshort);
          reflexivity).
    eexists. repeat split.
  - intros Hd Hshort. erewrite Hfail
      by (cbn [strconvParse]; rewrite (ParseInt64_malformed raw Hd Hshort);
          reflexivity).
    eexists. repeat split.
  - intros ->. destruct (strconvParse_failures H) as (_ & _ & _ & _ & _ & F6).
    rewrite (Hfail TFloat64 _ _ F6). eexists. repeat split.
Qed.

Lemma ReadEnv_conversion_error_wraps_cause_witness :
  os.LookupEnv testEnv "TEST_BIG_INT64" = Some "9223372036854775808"
  /\ "9223372036854775808" <> EmptyString
  /\ decimalValue "9223372036854775808" = Some (2 ^ 63)
  /\ ~ inRange 64 (2 ^ 63)
  /\ exists err,
       result (envreader.ReadEnv (H := amd64) testEnv TInt64 "TEST_BIG_INT64"
                 (VInt64 99))
       = Some (VInt64 99, Some err)
       /\ errors.Is err ErrRange = true /\ errors.Is err ErrSyntax = false.
Proof.
  assert (HL : os.LookupEnv testEnv "TEST_BIG_INT64"
               = Some "9223372036854775808")
    by (vm_compute; reflexivity).
  assert (Hne : "9223372036854775808" <> EmptyString) by discriminate.
  assert (Hd : decimalValue "9223372036854775808" = Some (2 ^ 63))
    by (vm_compute; reflexivity).
  assert (Hr : ~ inRange 64 (2 ^ 63)) by (unfold inRange; lia).
  exact (conj HL (conj Hne (conj Hd (conj Hr
    (proj1 (proj2 (proj2
       (@ReadEnv_conversion_error_wraps_cause amd64 testEnv "TEST_BIG_INT64"
          "9223372036854775808" (VInt64 99) HL Hne))) (2 ^ 63) Hd Hr))))).
Defined.

(** C7.  For [bool] the literals accepted are those of
    [strconv.ParseBool]: [1 t T true TRUE True] give true and
    [0 f F false FALSE False] give false, with a nil error; every other
    non-empty raw value gives the default and an error wrapping the syntax
    error of [ParseBool]. *)
Theorem ReadEnv_bool_grammar `{Platform}
    (env : os.Environ) (key raw : string) (defaultValue : value) :
  os.LookupEnv env key = Some raw ->
  (raw ∈ trueLiterals ->
   envreader.ReadEnv env TBool key defaultValue
   = ([CallGetenv key; CallParseBool raw], Some (VBool true, None)))
  /\ (raw ∈ falseLiterals ->
      envreader.ReadEnv env TBool key defaultValue
      = ([CallGetenv key; CallParseBool raw], Some (VBool false, None)))
  /\ (raw <> EmptyString -> raw ∉ trueLiterals -> raw ∉ falseLiterals ->
      exists err,
        envreader.ReadEnv env TBool key defaultValue
        = ([CallGetenv key; CallParseBool raw], Some (defaultValue, Some err))
        /\ errors.Unwrap err = Some (NumError "ParseBool" raw ErrSyntax)
        /\ fmt.Error err
           = conversionMessage (strconv.Quote raw) "bool"
               (parseMessage "ParseBool" (strconv.Quote raw) "invalid syntax")).
Proof.
  intros HL. apply Getenv_lookup in HL.
  assert (Hne : forall l : list string,
            raw ∈ l -> EmptyString ∉ l -> raw <> EmptyString)
    by (intros l Hin Hnot ->; contradiction).
  assert (Hrun : raw <> EmptyString ->
            envreader.ReadEnv env TBool key defaultValue
            = ([CallGetenv key; CallParseBool raw],
               match strconvParse TBool raw with
               | Some (v, None) => Some (v, None)
               | Some (_, Some e) =>
                 Some (defaultValue,
                       Some (wrapError
                               (conversionMessage (strconv.Quote raw) "bool"
                                  (fmt.Error e)) e))
               | None => None
               end))
    by (intros Hr; exact (ReadEnv_parseable env TBool key defaultValue raw
                            eq_refl HL Hr)).
  cbn [strconvParse] in Hrun.
  split; [|split].
  - intros Hin. rewrite Hrun, (ParseBool_true raw Hin); [reflexivity|].
    apply (Hne _ Hin). unfold trueLiterals.
    rewrite !elem_of_cons, elem_of_nil. intuition discriminate.
  - intros Hin. rewrite Hrun, (ParseBool_false raw Hin); [reflexivity|].
    apply (Hne _ Hin). unfold falseLiterals.
    rewrite !elem_of_cons, elem_of_nil. intuition discriminate.
  - intros Hr Ht Hf. rewrite (Hrun Hr), (ParseBool_other raw Ht Hf).
    eexists. split; [reflexivity|]. split; reflexivity.
Qed.

Lemma ReadEnv_bool_grammar_witness :
  os.LookupEnv testEnv "TEST_BOOL" = Some "true"
  /\ "true" ∈ trueLiterals
  /\ envreader.ReadEnv (H := amd64) testEnv TBool "TEST_BOOL" (VBool false)
     = ([CallGetenv "TEST_BOOL"; CallParseBool "true"],
        Some (VBool true, None)).
Proof.
  assert (HL : os.LookupEnv testEnv "TEST_BOOL" = Some "true")
    by (vm_compute; reflexivity).
  assert (Hin : "true" ∈ trueLiterals)
    by (unfold trueLiterals; rewrite !elem_of_cons; auto).
  exact (conj HL (conj Hin
    (proj1 (@ReadEnv_bool_grammar amd64 testEnv "TEST_BOOL" "true"
              (VBool false) HL) Hin))).
Defined.

(** C8, as the code has it.  For [string] and a variable set to a
    non-empty string, [ReadEnv] calls no parser and returns the raw value
    itself with a nil error. *)
Theorem ReadEnv_string_nonempty `{Platform}
    (env : os.Environ) (key raw : string) (defaultValue : value) :
  os.LookupEnv env key = Some raw ->
  raw <> EmptyString ->
  envreader.ReadEnv env TString key defaultValue
  = ([CallGetenv key], Some (VString raw, None)).
Proof.
  intros HL Hne. apply ReadEnv_string; [|assumption].
  apply Getenv_lookup. assumption.
Qed.

Lemma ReadEnv_string_nonempty_witness :
  os.LookupEnv testEnv "TEST_STRING" = Some "hello_world"
  /\ "hello_world" <> EmptyString
  /\ envreader.ReadEnv (H := amd64) testEnv TString "TEST_STRING"
       (VString "default")
     = ([CallGetenv "TEST_STRING"], Some (VString "hello_world", None)).
Proof.
  assert (HL : os.LookupEnv testEnv "TEST_STRING" = Some "hello_world")
    by (vm_compute; reflexivity).
  assert (Hne : "hello_world" <> EmptyString) by discriminate.
  exact (conj HL (conj Hne
    (@ReadEnv_string_nonempty amd64 testEnv "TEST_STRING" "hello_world"
       (VString "default") HL Hne))).
Defined.

(** C8 as stated fails on the empty string: with the variable set to it,
    [ReadEnv] returns the default, which is not the raw value. *)
Lemma ReadEnv_string_empty_returns_default :
  os.LookupEnv testEnv "TEST_EMPTY" = Some EmptyString
  /\ result (envreader.ReadEnv (H := amd64) testEnv TString "TEST_EMPTY"
               (VString "empty_default"))
     = Some (VString "empty_default", None)
  /\ VString "empty_default" <> VString EmptyString.
Proof.
  split; [vm_compute; reflexivity|]. split; [|discriminate].
  rewrite ReadEnv_empty by (vm_compute; reflexivity). reflexivity.
Qed.

(** C9.  For every type, key, default and environment, the run of
    [ReadEnv] ends in a return, never in a panic, and the value returned
    has the type of the default.  A type assertion to a concrete type
    that the asserted value has cannot fail, and those in [ReadEnv] are
    of that kind. *)
Theorem ReadEnv_never_panics `{Platform}
    (env : os.Environ) (T : GoType) (key : string) (defaultValue : value) :
  (exists v err,
     result (envreader.ReadEnv env T key defaultValue) = Some (v, err)
     /\ (typeOf defaultValue = T -> typeOf v = T))
  /\ (forall x : value, isInterface T = false -> typeOf x = T ->
      envreader.assertT x T = mret x).
Proof.
  split.
  - destruct (ReadEnv_returns env T key defaultValue)
      as (v & err & Hr & _ & Hv).
    exists v, err. split; [exact Hr|].
    intros Ht.
    destruct Hv as [-> | (_ & _ & Hp)]; [assumption|].
    unfold parsedFrom in Hp.
    destruct T; try (eapply strconvParse_typeOf; eassumption);
      try discriminate Hp.
    subst v. reflexivity.
  - intros x Hi Ht. unfold envreader.assertT.
    rewrite typeAssert_same by assumption. reflexivity.
Qed.

(** C10.  For a type outside the supported set, an unset or empty
    variable gives the default and a nil error; [ReadEnv] returns an error
    for such a type exactly when the variable is set to a non-empty
    string. *)
Theorem ReadEnv_unsupported_unset_or_empty `{Platform}
    (env : os.Environ) (T : GoType) (key : string) (defaultValue : value) :
  supported T = false ->
  (unsetOrEmpty env key ->
   envreader.ReadEnv env T key defaultValue
   = ([CallGetenv key], Some (defaultValue, None)))
  /\ ((exists e, result (envreader.ReadEnv env T key defaultValue)
                 = Some (defaultValue, Some e))
      <-> exists raw, os.LookupEnv env key = Some raw /\ raw <> EmptyString).
Proof.
  intros HS. split.
  - intros Hu. apply ReadEnv_empty, Getenv_unsetOrEmpty, Hu.
  - split.
    + intros [e He].
      destruct (os.LookupEnv env key) as [raw|] eqn:HL.
      * exists raw. split; [reflexivity|]. intros ->.
        rewrite ReadEnv_empty in He
          by (apply Getenv_unsetOrEmpty; right; exact HL).
        discriminate He.
      * rewrite ReadEnv_empty in He
          by (apply Getenv_unsetOrEmpty; left; exact HL).
        discriminate He.
    + intros (raw & HL & Hne).
      rewrite (ReadEnv_unsupported env T key defaultValue raw HS
                 (Getenv_lookup env key raw HL) Hne).
      eexists. reflexivity.
Qed.

Lemma ReadEnv_unsupported_unset_or_empty_witness :
  supported structType = false
  /\ unsetOrEmpty testEnv "TEST_EMPTY"
  /\ envreader.ReadEnv (H := amd64) testEnv structType "TEST_EMPTY"
       structDefault
     = ([CallGetenv "TEST_EMPTY"], Some (structDefault, None)).
Proof.
  assert (He : unsetOrEmpty testEnv "TEST_EMPTY")
    by (right; vm_compute; reflexivity).
  exact (conj eq_refl (conj He
    (proj1 (@ReadEnv_unsupported_unset_or_empty amd64 testEnv structType
              "TEST_EMPTY" structDefault eq_refl) He))).
Defined.

(** * The repository's tests, run on the model

    Rows of the table of [TestReadEnv], on a 64-bit platform. *)

Example test_Int_EnvExists_ValidValue :
  envreader.ReadEnv (H := amd64) testEnv TInt "TEST_INT" (VInt 0)
  = ([CallGetenv "TEST_INT"; CallAtoi "123"], Some (VInt 123, None)).
Proof. vm_compute. reflexivity. Qed.

Example test_Int_EnvNotExists :
  envreader.ReadEnv (H := amd64) testEnv TInt "NON_EXISTENT_INT" (VInt 456)
  = ([CallGetenv "NON_EXISTENT_INT"], Some (VInt 456, None)).
Proof. vm_compute. reflexivity. Qed.

Example test_Int_EnvExists_InvalidValue :
  exists err,
    result (envreader.ReadEnv (H := amd64) testEnv TInt "TEST_INVALID_INT"
              (VInt 10))
    = Some (VInt 10, Some err)
    /\ errors.Is err ErrSyntax = true
    /\ fmt.Error (H := amd64) err
       = conversionMessage (doubleQuoted "abc") "int"
           (parseMessage "Atoi" (doubleQuoted "abc") "invalid syntax").
Proof.
  eexists. split; [vm_compute; reflexivity|].
  split; vm_compute; reflexivity.
Qed.

Example test_Int64_MaxPositiveValue :
  result (envreader.ReadEnv (H := amd64) testEnv TInt64 "TEST_INT64" (VInt64 0))
  = Some (VInt64 9223372036854775807, None).
Proof. vm_compute. reflexivity. Qed.

Example test_String_EnvExists_ValidValue :
  result (envreader.ReadEnv (H := amd64) testEnv TString "TEST_STRING"
            (VString "default"))
  = Some (VString "hello_world", None).
Proof. vm_compute. reflexivity. Qed.

Example test_Bool_EnvExists_InvalidValue :
  exists err,
    result (envreader.ReadEnv (H := amd64) testEnv TBool "TEST_INVALID_BOOL"
              (VBool true))
    = Some (VBool true, Some err)
    /\ errors.Is err ErrSyntax = true
    /\ fmt.Error (H := amd64) err
       = conversionMessage (doubleQuoted "not_a_bool") "bool"
           (parseMessage "ParseBool" (doubleQuoted "not_a_bool")
              "invalid syntax").
Proof.
  eexists. split; [vm_compute; reflexivity|].
  split; vm_compute; reflexivity.
Qed.

Example test_Float64_EnvExists_ValidValue :
  result (envreader.ReadEnv (H := amd64) testEnv TFloat64 "TEST_FLOAT"
            (VFloat64 (S754_zero false)))
  = Some (VFloat64 float64_3_14, None).
Proof. vm_compute. reflexivity. Qed.

Example test_UnsupportedType_Struct :
  result (envreader.ReadEnv (H := amd64) testEnv structType "TEST_STRUCT"
            structDefault)
  = Some (structDefault,
          Some (errorString
                  "unsupported type for environment variable conversion: struct { Name string }")).
Proof. vm_compute. reflexivity. Qed.

Example test_UnsupportedType_Slice :
  result (envreader.ReadEnv (H := amd64) (<["TEST_SLICE" := "1,2,3"]> testEnv)
            (TSlice TInt) "TEST_SLICE" sliceDefault)
  = Some (sliceDefault,
          Some (errorString
                  "unsupported type for environment variable conversion: []int")).
Proof. vm_compute. reflexivity. Qed.

(** Beyond the tests: a defined type over [int] is not [int]; an
    interface default is named by what it holds; and a malformed string
    long enough to overflow is refused for its range. *)
Example defined_type_is_unsupported :
  result (envreader.ReadEnv (H := amd64) testEnv (TNamed "main.Port" TInt)
            "TEST_INT" (VNamed "main.Port" (VInt 8080)))
  = Some (VNamed "main.Port" (VInt 8080),
          Some (errorString
                  "unsupported type for environment variable conversion: main.Port")).
Proof. vm_compute. reflexivity. Qed.

Example interface_default_named_by_content :
  result (envreader.ReadEnv (H := amd64) testEnv TAny "TEST_INT"
            (VAny (Some (VInt 5))))
  = Some (VAny (Some (VInt 5)),
          Some (errorString
                  "unsupported type for environment variable conversion: int")).
Proof. vm_compute. reflexivity. Qed.

Example overflow_before_garbage :
  decimalValue "99999999999999999999x" = None
  /\ strconv.ParseInt (H := amd64) "99999999999999999999x" 10 64
     = (9223372036854775807,
        Some (NumError "ParseInt" "99999999999999999999x" ErrRange)).
Proof. vm_compute. split; reflexivity. Qed.

(** * Further properties *)

(** ** os: writing and reading the environment *)

Lemma validKey_nonempty key : os.validKey key = true -> key <> EmptyString.
Proof. intros Hv ->. discriminate Hv. Qed.

Lemma LookupEnv_Setenv env key value :
  os.validKey key = true -> os.without 0 value = true ->
  os.Setenv env key value = (<[key := value]> env, None)
  /\ os.LookupEnv (fst (os.Setenv env key value)) key = Some value.
Proof.
  intros Hk Hv. unfold os.Setenv. rewrite Hk, Hv. cbn [negb fst].
  split; [reflexivity|]. unfold os.LookupEnv.
  destruct (decide _) as [He|_]; [apply validKey_nonempty in Hk; contradiction|].
  apply lookup_insert_eq.
Qed.

Lemma LookupEnv_Setenv_ne env key key' value :
  key' <> key ->
  os.LookupEnv (fst (os.Setenv env key' value)) key = os.LookupEnv env key.
Proof.
  intros Hne. unfold os.Setenv, os.LookupEnv.
  destruct (negb (os.validKey key')); [reflexivity|].
  destruct (negb (os.without 0 value)); [reflexivity|]. cbn [fst].
  destruct (decide _); [reflexivity|]. apply lookup_insert_ne. exact Hne.
Qed.

Lemma LookupEnv_Unsetenv env key :
  os.LookupEnv (os.Unsetenv env key) key = None.
Proof.
  unfold os.LookupEnv, os.Unsetenv. destruct (decide _); [reflexivity|].
  apply lookup_delete_eq.
Qed.

Lemma LookupEnv_Unsetenv_ne env key key' :
  key' <> key ->
  os.LookupEnv (os.Unsetenv env key') key = os.LookupEnv env key.
Proof.
  intros Hne. unfold os.LookupEnv, os.Unsetenv.
  destruct (decide _); [reflexivity|]. apply lookup_delete_ne. exact Hne.
Qed.

Section Frame.
Context `{Platform}.

(** [ReadEnv] reads the environment at [key] and nowhere else. *)
Lemma ReadEnv_ext env env' T key d :
  os.LookupEnv env key = os.LookupEnv env' key ->
  envreader.ReadEnv env T key d = envreader.ReadEnv env' T key d.
Proof.
  intros HL. unfold envreader.ReadEnv, envreader.Getenv, os.Getenv.
  rewrite HL. reflexivity.
Qed.

(** X1.  [ReadEnv] depends on the environment through the one variable
    it is asked for: setting or unsetting any other variable, whatever
    the value and whether or not [os.Setenv] takes it, leaves the result
    and the calls of [ReadEnv] for [key] as they were. *)
Theorem ReadEnv_ignores_other_variables
    (env : os.Environ) (T : GoType) (key other val : string)
    (defaultValue : value) :
  other <> key ->
  envreader.ReadEnv (fst (os.Setenv env other val)) T key defaultValue
  = envreader.ReadEnv env T key defaultValue
  /\ envreader.ReadEnv (os.Unsetenv env other) T key defaultValue
     = envreader.ReadEnv env T key defaultValue.
Proof.
  intros Hne. split; apply ReadEnv_ext.
  - apply LookupEnv_Setenv_ne. exact Hne.
  - apply LookupEnv_Unsetenv_ne. exact Hne.
Qed.
End Frame.

Lemma ReadEnv_ignores_other_variables_witness :
  "TEST_BOOL" <> "TEST_INT"
  /\ envreader.ReadEnv (H := amd64)
       (fst (os.Setenv testEnv "TEST_BOOL" "false")) TInt "TEST_INT" (VInt 0)
     = envreader.ReadEnv (H := amd64) testEnv TInt "TEST_INT" (VInt 0)
  /\ envreader.ReadEnv (H := amd64)
       (os.Unsetenv testEnv "TEST_BOOL") TInt "TEST_INT" (VInt 0)
     = envreader.ReadEnv (H := amd64) testEnv TInt "TEST_INT" (VInt 0).
Proof.
  assert (Hne : "TEST_BOOL" <> "TEST_INT") by discriminate.
  exact (conj Hne
    (@ReadEnv_ignores_other_variables amd64 testEnv TInt "TEST_INT"
       "TEST_BOOL" "false" (VInt 0) Hne)).
Defined.

Section SetRead.
Context `{Platform}.

(** X2.  What [os.Setenv] wrote is what [ReadEnv] reads.  For a key
    and a value [os.Setenv] takes (a key that is not empty and has no [=]
    or NUL, a value without NUL) the write succeeds; [ReadEnv] for that
    key then answers the same whatever the environment held before; at
    type [string] it returns the value written, when that is not empty;
    and having written the empty string it returns the default at every
    type. *)
Theorem ReadEnv_after_Setenv
    (env : os.Environ) (T : GoType) (key raw : string) (defaultValue : value) :
  os.validKey key = true ->
  os.without 0 raw = true ->
  snd (os.Setenv env key raw) = None
  /\ (forall env' : os.Environ,
        envreader.ReadEnv (fst (os.Setenv env' key raw)) T key defaultValue
        = envreader.ReadEnv (fst (os.Setenv env key raw)) T key defaultValue)
  /\ (raw <> EmptyString ->
      envreader.ReadEnv (fst (os.Setenv env key raw)) TString key defaultValue
      = ([CallGetenv key], Some (VString raw, None)))
  /\ (raw = EmptyString ->
      envreader.ReadEnv (fst (os.Setenv env key raw)) T key defaultValue
      = ([CallGetenv key], Some (defaultValue, None))).
Proof.
  intros Hk Hv.
  destruct (LookupEnv_Setenv env key raw Hk Hv) as [Hs HL].
  split; [rewrite Hs; reflexivity|]. split; [|split].
  - intros env'. apply ReadEnv_ext.
    rewrite HL. apply (LookupEnv_Setenv env' key raw Hk Hv).
  - intros Hne. apply ReadEnv_string; [|exact Hne].
    apply Getenv_lookup. exact HL.
  - intros ->. apply ReadEnv_empty. apply Getenv_lookup. exact HL.
Qed.

(** X3.  After [os.Unsetenv key], [ReadEnv] for [key] returns the default
    with a nil error at every type, supported or not, and calls no
    parser, whatever the variable held before. *)
Theorem ReadEnv_after_Unsetenv
    (env : os.Environ) (T : GoType) (key : string) (defaultValue : value) :
  envreader.ReadEnv (os.Unsetenv env key) T key defaultValue
  = ([CallGetenv key], Some (defaultValue, None)).
Proof.
  apply ReadEnv_empty. unfold os.Getenv.
  rewrite LookupEnv_Unsetenv. reflexivity.
Qed.

End SetRead.

Lemma ReadEnv_after_Setenv_witness :
  os.validKey "TEST_STRING" = true
  /\ os.without 0 "hello_world" = true
  /\ envreader.ReadEnv (H := amd64)
       (fst (os.Setenv testEnv "TEST_STRING" "hello_world")) TString
       "TEST_STRING" (VString "default")
     = ([CallGetenv "TEST_STRING"], Some (VString "hello_world", None)).
Proof.
  assert (Hk : os.validKey "TEST_STRING" = true) by reflexivity.
  assert (Hv : os.without 0 "hello_world" = true) by reflexivity.
  assert (Hne : "hello_world" <> EmptyString) by discriminate.
  exact (conj Hk (conj Hv
    (proj1 (proj2 (proj2
       (@ReadEnv_after_Setenv amd64 testEnv TString "TEST_STRING"
          "hello_world" (VString "default") Hk Hv))) Hne))).
Defined.

Section Shape.
Context `{Platform}.

(** The calls of a run: one read of the environment, then at most one
    call of a parser. *)
Lemma ReadEnv_calls env T key d :
  calls (envreader.ReadEnv env T key d)
  = CallGetenv key
    :: (if decide (os.Getenv env key = EmptyString) then []
        else strconvCall T (os.Getenv env key)).
Proof.
  destruct (decide _) as [He|Hne].
  - rewrite ReadEnv_empty by exact He. reflexivity.
  - destruct (supported T) eqn:HS.
    + apply supported_cases in HS as [-> | HP].
      * rewrite (ReadEnv_string env key d _ eq_refl Hne). reflexivity.
      * rewrite (ReadEnv_parseable env T key d _ HP eq_refl Hne). reflexivity.
    + rewrite (ReadEnv_unsupported env T key d _ HS eq_refl Hne).
      destruct T; try discriminate HS; reflexivity.
Qed.

(** X4.  The calls of a run: [os.Getenv] exactly once, on [key], and
    first; then at most one call of [strconv], the one of the case of
    the type, on the raw value as read.  No parser is called when the
    raw value is empty or the type is not one that is parsed. *)
Theorem ReadEnv_reads_once_parses_at_most_once
    (env : os.Environ) (T : GoType) (key : string) (defaultValue : value) :
  let raw := os.Getenv env key in
  let cs := calls (envreader.ReadEnv env T key defaultValue) in
  filter (fun c => isGetenv c = true) cs = [CallGetenv key]
  /\ (cs = [CallGetenv key]
      \/ (raw <> EmptyString
          /\ ((T = TInt /\ cs = [CallGetenv key; CallAtoi raw])
              \/ (T = TInt64 /\ cs = [CallGetenv key; CallParseInt raw 10 64])
              \/ (T = TBool /\ cs = [CallGetenv key; CallParseBool raw])
              \/ (T = TFloat64
                  /\ cs = [CallGetenv key; CallParseFloat raw 64]))))
  /\ (raw = EmptyString \/ parseable T = false -> cs = [CallGetenv key]).
Proof.
  cbv zeta. rewrite ReadEnv_calls.
  destruct (decide (os.Getenv env key = EmptyString)) as [He|Hne].
  - split; [reflexivity|]. split; [left; reflexivity|]. reflexivity.
  - destruct T; cbn [strconvCall parseable];
      (split; [reflexivity|]); (split; [|intros [?|?]; congruence || reflexivity]);
      try (left; reflexivity); right; (split; [exact Hne|]); tauto.
Qed.

(** X5.  The errors of [ReadEnv] fall in classes a caller can tell
    apart with the [errors] package.  Whenever an error comes back the
    value is the default and the raw value was not empty, and either the
    type is unsupported, the error is the plain unsupported-type error,
    [errors.Unwrap] gives nothing and it matches neither sentinel of
    [strconv]; or the type is one that is parsed, [errors.Unwrap] gives
    the very error [strconv] returned for the raw value, and the error
    matches exactly one of [strconv.ErrSyntax] and [strconv.ErrRange]. *)
Theorem ReadEnv_errors_classified
    (env : os.Environ) (T : GoType) (key : string) (defaultValue v : value)
    (err : error) :
  result (envreader.ReadEnv env T key defaultValue) = Some (v, Some err) ->
  v = defaultValue
  /\ os.Getenv env key <> EmptyString
  /\ ((supported T = false
       /\ err = errorString (unsupportedMessage (fmt.verbT defaultValue))
       /\ errors.Unwrap err = None
       /\ errors.Is err ErrSyntax = false /\ errors.Is err ErrRange = false)
      \/ (parseable T = true
          /\ (exists cause,
                errors.Unwrap err = Some cause
                /\ snd <$> strconvParse T (os.Getenv env key)
                   = Some (Some cause))
          /\ errors.Is err ErrSyntax = negb (errors.Is err ErrRange))).
Proof.
  intros Hr.
  destruct (decide (os.Getenv env key = EmptyString)) as [He|Hne].
  { rewrite ReadEnv_empty in Hr by exact He. discriminate Hr. }
  destruct (supported T) eqn:HS.
  - apply supported_cases in HS as [-> | HP].
    + rewrite (ReadEnv_string env key defaultValue _ eq_refl Hne) in Hr.
      discriminate Hr.
    + rewrite (ReadEnv_parseable env T key defaultValue _ HP eq_refl Hne) in Hr.
      destruct (strconvParse T (os.Getenv env key)) as [[w [cause|]]|] eqn:Hp;
        try discriminate Hr.
      cbn [result snd] in Hr. injection Hr as <- <-.
      split; [reflexivity|]. split; [exact Hne|]. right.
      split; [exact HP|]. split; [exists cause; split; reflexivity|].
      destruct (strconvParse_error T _ w cause Hp) as (fn & s & -> & [-> | ->]);
        reflexivity.
  - rewrite (ReadEnv_unsupported env T key defaultValue _ HS eq_refl Hne) in Hr.
    cbn [result snd] in Hr. injection Hr as <- <-.
    split; [reflexivity|]. split; [exact Hne|]. left. repeat split.
Qed.

End Shape.

Lemma ReadEnv_errors_classified_witness :
  result (envreader.ReadEnv (H := amd64) testEnv TInt "TEST_INVALID_INT"
            (VInt 10))
  = Some (VInt 10,
          Some (wrapError
                  (conversionMessage (doubleQuoted "abc") "int"
                     (parseMessage "Atoi" (doubleQuoted "abc")
                        "invalid syntax"))
                  (strconv.syntaxError strconv.fnAtoi "abc")))
  /\ os.Getenv testEnv "TEST_INVALID_INT" <> EmptyString.
Proof.
  assert (Hr : result (envreader.ReadEnv (H := amd64) testEnv TInt
                         "TEST_INVALID_INT" (VInt 10))
               = Some (VInt 10,
                       Some (wrapError
                               (conversionMessage (doubleQuoted "abc") "int"
                                  (parseMessage "Atoi" (doubleQuoted "abc")
                                     "invalid syntax"))
                               (strconv.syntaxError strconv.fnAtoi "abc"))))
    by (vm_compute; reflexivity).
  exact (conj Hr
    (proj1 (proj2
       (@ReadEnv_errors_classified amd64 testEnv TInt "TEST_INVALID_INT"
          (VInt 10) _ _ Hr)))).
Defined.

Lemma digitsValue_zeros k s : digitsValue 0 (zeros k s) = digitsValue 0 s.
Proof. induction k as [|k IH]; [reflexivity|]. exact IH. Qed.

Lemma inRange_mono bits bits' n :
  0 < bits <= bits' -> inRange bits n -> inRange bits' n.
Proof.
  unfold inRange. intros Hb Hn.
  assert (2 ^ (bits - 1) <= 2 ^ (bits' - 1))
    by (apply Z.pow_le_mono_r; lia).
  lia.
Qed.

Section Integers.
Context `{Platform}.

Lemma result_int_iff env key raw d v :
  os.LookupEnv env key = Some raw -> raw <> EmptyString ->
  result (envreader.ReadEnv env TInt key d) = Some (v, None)
  <-> exists n, decimalValue raw = Some n /\ inRange intSize n /\ v = VInt n.
Proof.
  intros HL Hne. apply Getenv_lookup in HL.
  rewrite (ReadEnv_parseable env TInt key d raw eq_refl HL Hne).
  cbn [strconvParse result snd]. split.
  - destruct (strconv.Atoi raw) as [n [e|]] eqn:HA; [discriminate|].
    intros [= <-]. apply Atoi_accepts in HA as [Hd Hr]. eauto.
  - intros (n & Hd & Hr & ->). rewrite (Atoi_decimal raw n Hd Hr).
    reflexivity.
Qed.

Lemma result_int64_iff env key raw d v :
  os.LookupEnv env key = Some raw -> raw <> EmptyString ->
  result (envreader.ReadEnv env TInt64 key d) = Some (v, None)
  <-> exists n, decimalValue raw = Some n /\ inRange 64 n /\ v = VInt64 n.
Proof.
  intros HL Hne. apply Getenv_lookup in HL.
  rewrite (ReadEnv_parseable env TInt64 key d raw eq_refl HL Hne).
  cbn [strconvParse result snd]. split.
  - destruct (strconv.ParseInt raw 10 64) as [n [e|]] eqn:HA; [discriminate|].
    intros [= <-]. apply ParseInt_accepts in HA as [Hd Hr]; [|auto]. eauto.
  - intros (n & Hd & Hr & ->).
    rewrite (ParseInt_decimal raw 64 n (or_intror eq_refl) Hd Hr).
    reflexivity.
Qed.

(** X6.  [int] and [int64] read the same numerals.  For a non-empty raw
    value, whatever [ReadEnv] reads at [int] it reads at [int64], as the
    same number; where [int] has 64 bits the converse holds as well; and
    where [int] has 32 bits a number [int64] reads that lies outside 32
    bits gives, at [int], the default and an error matching
    [strconv.ErrRange]. *)
Theorem ReadEnv_int_within_int64
    (env : os.Environ) (key raw : string) (d d64 : value) :
  os.LookupEnv env key = Some raw ->
  raw <> EmptyString ->
  (forall n,
     result (envreader.ReadEnv env TInt key d) = Some (VInt n, None) ->
     result (envreader.ReadEnv env TInt64 key d64) = Some (VInt64 n, None))
  /\ (intWidth = W64 -> forall n,
      result (envreader.ReadEnv env TInt64 key d64) = Some (VInt64 n, None) ->
      result (envreader.ReadEnv env TInt key d) = Some (VInt n, None))
  /\ (intWidth = W32 -> forall n,
      result (envreader.ReadEnv env TInt64 key d64) = Some (VInt64 n, None) ->
      ~ inRange 32 n ->
      exists err,
        result (envreader.ReadEnv env TInt key d) = Some (d, Some err)
        /\ errors.Is err ErrRange = true).
Proof.
  intros HL Hne. split; [|split].
  - intros n Hr. apply (result_int_iff env key raw d _ HL Hne) in Hr
      as (m & Hd & Hin & Heq).
    injection Heq as Heq. subst m.
    apply (result_int64_iff env key raw d64 _ HL Hne).
    exists n. split; [exact Hd|]. split; [|reflexivity].
    apply (inRange_mono intSize); [|exact Hin].
    destruct intSize_cases as [-> | ->]; lia.
  - intros HW n Hr. apply (result_int64_iff env key raw d64 _ HL Hne) in Hr
      as (m & Hd & Hin & Heq).
    injection Heq as Heq. subst m.
    apply (result_int_iff env key raw d _ HL Hne).
    exists n. unfold intSize. rewrite HW. auto.
  - intros HW n Hr Hout.
    apply (result_int64_iff env key raw d64 _ HL Hne) in Hr
      as (m & Hd & Hin & Heq).
    injection Heq as Heq. subst m.
    assert (Ho : ~ inRange intSize n) by (unfold intSize; rewrite HW; exact Hout).
    assert (Hp : strconvParse TInt raw
                 = Some (VInt (clamp intSize n),
                         Some (strconv.rangeError strconv.fnAtoi raw)))
      by (cbn [strconvParse]; rewrite (Atoi_out_of_range raw n Hd Ho);
          reflexivity).
    rewrite (ReadEnv_parse_failure env TInt key raw d _ _ HL Hne Hp).
    eexists. split; reflexivity.
Qed.

(** X7.  Leading zeros change nothing: the base is ten, never eight,
    and the number of digits sets no limit.  A raw value made of any
    number of zeros before a non-empty string of digits that writes [n]
    is read as [n], at [int64] when [n] is in its range and at [int]
    when [n] is in the range of [int]. *)
Theorem ReadEnv_leading_zeros
    (env : os.Environ) (key digits : string) (k : nat) (n : Z)
    (defaultValue : value) :
  os.LookupEnv env key = Some (zeros k digits) ->
  digits <> EmptyString ->
  digitsValue 0 digits = Some n ->
  (inRange 64 n ->
   result (envreader.ReadEnv env TInt64 key defaultValue)
   = Some (VInt64 n, None))
  /\ (inRange intSize n ->
      result (envreader.ReadEnv env TInt key defaultValue)
      = Some (VInt n, None)).
Proof.
  intros HL Hne Hd.
  assert (Hz : zeros k digits <> EmptyString)
    by (destruct k; [exact Hne|discriminate]).
  assert (Hd0 : decimalValue (zeros k digits) = Some n).
  { destruct (zeros k digits) as [|a s] eqn:Ez; [congruence|].
    assert (Hv : digitsValue 0 (String a s) = Some n)
      by (rewrite <- Ez, digitsValue_zeros; exact Hd).
    unfold decimalValue. destruct (_ || _) eqn:Hsign; [|exact Hv].
    cbn [digitsValue] in Hv.
    destruct (between c_0 c_9 (byte a)) eqn:Hb; [|discriminate].
    apply between_spec in Hb. unfold c_0, c_9, c_plus, c_minus in *.
    apply orb_prop in Hsign as [E | E]; apply Z.eqb_eq in E; lia. }
  split; intros Hr.
  - apply (result_int64_iff env key _ defaultValue _ HL Hz). eauto.
  - apply (result_int_iff env key _ defaultValue _ HL Hz). eauto.
Qed.

Lemma LookupEnv_Getenv (env : os.Environ) key :
  os.Getenv env key <> EmptyString ->
  os.LookupEnv env key = Some (os.Getenv env key).
Proof.
  unfold os.Getenv. destruct (os.LookupEnv env key); [reflexivity|].
  intros Hn. contradiction Hn. reflexivity.
Qed.

(** X8.  When the error is nil.  Every run returns a value and an error,
    and the error is nil exactly when the raw value is empty (or the
    variable unset) or well formed for the type: any string for
    [string], a decimal numeral in range for [int] and [int64], a
    literal of the boolean grammar for [bool], a literal [ParseFloat]
    takes for [float64].  For every other type a non-empty raw value
    gives an error. *)
Theorem ReadEnv_succeeds_iff
    (env : os.Environ) (T : GoType) (key : string) (defaultValue : value) :
  exists v err,
    result (envreader.ReadEnv env T key defaultValue) = Some (v, err)
    /\ (err = None
        <-> os.Getenv env key = EmptyString
            \/ wellFormed T (os.Getenv env key)).
Proof.
  destruct (decide (os.Getenv env key = EmptyString)) as [He|Hne].
  { rewrite ReadEnv_empty by exact He. eexists _, _.
    split; [reflexivity|]. tauto. }
  pose proof (LookupEnv_Getenv env key Hne) as HL.
  set (raw := os.Getenv env key) in *.
  destruct (ReadEnv_returns env T key defaultValue) as (v & err & Hr & _).
  exists v, err. split; [exact Hr|].
  destruct (supported T) eqn:HS.
  - apply supported_cases in HS as [-> | HP].
    + rewrite (ReadEnv_string env key defaultValue raw eq_refl Hne) in Hr.
      injection Hr as _ <-. cbn [wellFormed]. tauto.
    + destruct T; try discriminate HP; cbn [wellFormed].
      * split.
        -- intros ->.
           apply (result_int_iff env key raw defaultValue v HL Hne) in Hr
             as (n & Hd & Hin & _). eauto.
        -- intros [? | (n & Hd & Hin)]; [contradiction|].
           assert (Hr' : result (envreader.ReadEnv env TInt key defaultValue)
                         = Some (VInt n, None))
             by (apply (result_int_iff env key raw defaultValue _ HL Hne);
                 eauto).
           congruence.
      * split.
        -- intros ->.
           apply (result_int64_iff env key raw defaultValue v HL Hne) in Hr
             as (n & Hd & Hin & _). eauto.
        -- intros [? | (n & Hd & Hin)]; [contradiction|].
           assert (Hr' : result (envreader.ReadEnv env TInt64 key defaultValue)
                         = Some (VInt64 n, None))
             by (apply (result_int64_iff env key raw defaultValue _ HL Hne);
                 eauto).
           congruence.
      * rewrite (ReadEnv_parseable env TBool key defaultValue raw eq_refl
                   eq_refl Hne) in Hr.
        cbn [strconvParse] in Hr.
        destruct (decide (raw ∈ trueLiterals)) as [Ht|Ht].
        { rewrite (ParseBool_true raw Ht) in Hr. injection Hr as _ <-.
          tauto. }
        destruct (decide (raw ∈ falseLiterals)) as [Hf|Hf].
        { rewrite (ParseBool_false raw Hf) in Hr. injection Hr as _ <-.
          tauto. }
        rewrite (ParseBool_other raw Ht Hf) in Hr. injection Hr as _ <-.
        split; [discriminate|tauto].
      * rewrite (ReadEnv_parseable env TFloat64 key defaultValue raw eq_refl
                   eq_refl Hne) in Hr.
        cbn [strconvParse] in Hr.
        destruct (strconv.ParseFloat raw 64) as [f [e|]];
          injection Hr as _ <-; cbn [snd];
          (split; [try discriminate; tauto|]);
          intros [? | ?]; [contradiction|discriminate|contradiction|reflexivity].
  - rewrite (ReadEnv_unsupported env T key defaultValue raw HS eq_refl Hne)
      in Hr.
    injection Hr as _ <-. split; [discriminate|].
    intros [? | Hw]; [contradiction|].
    destruct T; try discriminate HS; contradiction Hw.
Qed.
End Integers.

Lemma ReadEnv_int_within_int64_witness :
  os.LookupEnv testEnv "TEST_INT" = Some "123"
  /\ "123" <> EmptyString
  /\ result (envreader.ReadEnv (H := amd64) testEnv TInt "TEST_INT" (VInt 0))
     = Some (VInt 123, None)
  /\ result (envreader.ReadEnv (H := amd64) testEnv TInt64 "TEST_INT"
               (VInt64 0))
     = Some (VInt64 123, None).
Proof.
  assert (HL : os.LookupEnv testEnv "TEST_INT" = Some "123")
    by (vm_compute; reflexivity).
  assert (Hne : "123" <> EmptyString) by discriminate.
  assert (Hr : result (envreader.ReadEnv (H := amd64) testEnv TInt "TEST_INT"
                         (VInt 0))
               = Some (VInt 123, None)) by (vm_compute; reflexivity).
  exact (conj HL (conj Hne (conj Hr
    (proj1
       (@ReadEnv_int_within_int64 amd64 testEnv "TEST_INT" "123" (VInt 0)
          (VInt64 0) HL Hne) 123 Hr)))).
Defined.

Lemma ReadEnv_leading_zeros_witness :
  os.LookupEnv {[ "TEST_INT" := zeros 20 "7" ]} "TEST_INT"
  = Some (zeros 20 "7")
  /\ "7" <> EmptyString
  /\ digitsValue 0 "7" = Some 7
  /\ inRange 64 7
  /\ result (envreader.ReadEnv (H := amd64) {[ "TEST_INT" := zeros 20 "7" ]}
               TInt64 "TEST_INT" (VInt64 0))
     = Some (VInt64 7, None).
Proof.
  assert (HL : os.LookupEnv {[ "TEST_INT" := zeros 20 "7" ]} "TEST_INT"
               = Some (zeros 20 "7")) by (vm_compute; reflexivity).
  assert (Hne : "7" <> EmptyString) by discriminate.
  assert (Hd : digitsValue 0 "7" = Some 7) by reflexivity.
  assert (Hin : inRange 64 7) by (unfold inRange; lia).
  exact (conj HL (conj Hne (conj Hd (conj Hin
    (proj1
       (@ReadEnv_leading_zeros amd64 {[ "TEST_INT" := zeros 20 "7" ]}
          "TEST_INT" "7" 20 7 (VInt64 0) HL Hne Hd) Hin))))).
Defined.

Lemma byte_char b : 0 <= b < 256 -> byte (char b) = b.
Proof.
  intros Hb. unfold byte, char. rewrite Z.mod_small by exact Hb.
  rewrite N_ascii_embedding by lia. lia.
Qed.

Lemma lower_char_cases a c :
  char (lowerByte (byte a)) = c ->
  a = c \/ (between 97 122 (byte c) = true /\ a = char (byte c - 32)).
Proof.
  intros Hc. pose proof (byte_range a) as Hb.
  assert (Hl : lowerByte (byte a) = byte c).
  { rewrite <- Hc. symmetry. apply byte_char. unfold lowerByte.
    destruct (between 65 90 (byte a)) eqn:E; [|exact Hb].
    apply between_spec in E. lia. }
  unfold lowerByte in Hl. destruct (between 65 90 (byte a)) eqn:E.
  - right. apply between_spec in E. split; [apply between_spec; lia|].
    rewrite <- Hl. replace (byte a + 32 - 32) with (byte a) by lia.
    symmetry. apply char_byte.
  - left. rewrite <- (char_byte a), Hl. apply char_byte.
Qed.

(** Every spelling of a lower-case literal, letter case apart, one goal
    for each. *)
Ltac spellings H :=
  repeat match type of H with
         | toLower ?s = _ =>
           destruct s; [discriminate H|];
           cbn [toLower] in H;
           let Hc := fresh "Hc" in
           let Hb := fresh "Hb" in
           injection H as Hc H;
           apply lower_char_cases in Hc as [-> | [Hb ->]];
           [|vm_compute in Hb; first [discriminate Hb | clear Hb]]
         end;
  match type of H with
  | toLower ?s = EmptyString => destruct s; [clear H|discriminate H]
  end.

Lemma ParseFloat_nan raw :
  toLower raw = "nan" -> strconv.ParseFloat raw 64 = (strconv.NaN, None).
Proof. intros Hl. spellings Hl; vm_compute; reflexivity. Qed.

Lemma ParseFloat_inf raw :
  toLower raw = "inf" \/ toLower raw = "+inf" ->
  strconv.ParseFloat raw 64 = (strconv.Inf false, None).
Proof. intros [Hl | Hl]; spellings Hl; vm_compute; reflexivity. Qed.

Lemma ParseFloat_neg_inf raw :
  toLower raw = "-inf" ->
  strconv.ParseFloat raw 64 = (strconv.Inf true, None).
Proof. intros Hl; spellings Hl; vm_compute; reflexivity. Qed.

Lemma ParseFloat_infinity raw :
  toLower raw = "infinity" \/ toLower raw = "+infinity" ->
  strconv.ParseFloat raw 64 = (strconv.Inf false, None).
Proof. intros [Hl | Hl]; spellings Hl; vm_compute; reflexivity. Qed.

Lemma ParseFloat_neg_infinity raw :
  toLower raw = "-infinity" ->
  strconv.ParseFloat raw 64 = (strconv.Inf true, None).
Proof. intros Hl; spellings Hl; vm_compute; reflexivity. Qed.

Section Floats.
Context `{Platform}.

Lemma ReadEnv_float64_parsed env key raw d f :
  os.LookupEnv env key = Some raw -> raw <> EmptyString ->
  strconv.ParseFloat raw 64 = (f, None) ->
  envreader.ReadEnv env TFloat64 key d
  = ([CallGetenv key; CallParseFloat raw 64], Some (VFloat64 f, None)).
Proof.
  intros HL Hne Hp. apply Getenv_lookup in HL.
  rewrite (ReadEnv_parseable env TFloat64 key d raw eq_refl HL Hne).
  cbn [strconvParse strconvCall]. rewrite Hp. reflexivity.
Qed.

(** X9.  A [float64] read without error need not be a number.  Spelled
    in any letter case, [nan] gives a NaN, [inf] and [infinity], with or
    without a [+], give the positive infinity, and [-inf] and
    [-infinity] the negative one, each with a nil error. *)
Theorem ReadEnv_float_special_values
    (env : os.Environ) (key raw : string) (defaultValue : value) :
  os.LookupEnv env key = Some raw ->
  (toLower raw = "nan" ->
   envreader.ReadEnv env TFloat64 key defaultValue
   = ([CallGetenv key; CallParseFloat raw 64],
      Some (VFloat64 strconv.NaN, None)))
  /\ (toLower raw ∈ ["inf"; "+inf"; "infinity"; "+infinity"] ->
      envreader.ReadEnv env TFloat64 key defaultValue
      = ([CallGetenv key; CallParseFloat raw 64],
         Some (VFloat64 (strconv.Inf false), None)))
  /\ (toLower raw ∈ ["-inf"; "-infinity"] ->
      envreader.ReadEnv env TFloat64 key defaultValue
      = ([CallGetenv key; CallParseFloat raw 64],
         Some (VFloat64 (strconv.Inf true), None))).
Proof.
  intros HL.
  assert (Hne : forall lit, toLower raw = lit -> lit <> EmptyString ->
                  raw <> EmptyString) by (intros lit <- Hn ->; apply Hn; reflexivity).
  split; [|split].
  - intros Hl. apply ReadEnv_float64_parsed; [exact HL| |].
    + apply (Hne _ Hl). discriminate.
    + apply ParseFloat_nan. exact Hl.
  - rewrite !elem_of_cons, elem_of_nil.
    intros [Hl | [Hl | [Hl | [Hl | []]]]];
      (apply ReadEnv_float64_parsed;
       [exact HL | apply (Hne _ Hl); discriminate |]).
    + apply ParseFloat_inf. left. exact Hl.
    + apply ParseFloat_inf. right. exact Hl.
    + apply ParseFloat_infinity. left. exact Hl.
    + apply ParseFloat_infinity. right. exact Hl.
  - rewrite !elem_of_cons, elem_of_nil.
    intros [Hl | [Hl | []]];
      (apply ReadEnv_float64_parsed;
       [exact HL | apply (Hne _ Hl); discriminate |]).
    + apply ParseFloat_neg_inf. exact Hl.
    + apply ParseFloat_neg_infinity. exact Hl.
Qed.
End Floats.

Lemma ReadEnv_float_special_values_witness :
  os.LookupEnv {[ "TEST_FLOAT" := "NaN" ]} "TEST_FLOAT" = Some "NaN"
  /\ toLower "NaN" = "nan"
  /\ envreader.ReadEnv (H := amd64) {[ "TEST_FLOAT" := "NaN" ]} TFloat64
       "TEST_FLOAT" (VFloat64 (S754_zero false))
     = ([CallGetenv "TEST_FLOAT"; CallParseFloat "NaN" 64],
        Some (VFloat64 strconv.NaN, None)).
Proof.
  assert (HL : os.LookupEnv {[ "TEST_FLOAT" := "NaN" ]} "TEST_FLOAT"
               = Some "NaN") by (vm_compute; reflexivity).
  assert (Hl : toLower "NaN" = "nan") by (vm_compute; reflexivity).
  exact (conj HL (conj Hl
    (proj1
       (@ReadEnv_float_special_values amd64 {[ "TEST_FLOAT" := "NaN" ]}
          "TEST_FLOAT" "NaN" (VFloat64 (S754_zero false)) HL) Hl))).
Defined.

(** ** The test *)

Section TestFacts.
Context `{Platform}.
Import envreader_test.

Lemma prepare_lookup env tc :
  settable tc = true ->
  prepare env tc !! envKey tc
  = if setEnv tc then Some (envValue tc) else None.
Proof.
  unfold settable, prepare, os.Setenv, os.Unsetenv.
  destruct (setEnv tc); cbn [negb orb].
  - intros Hv. apply andb_prop in Hv as [-> ->]. cbn [negb fst].
    apply lookup_insert_eq.
  - intros _. apply lookup_delete_eq.
Qed.

Lemma prepare_lookup_ne env tc k :
  envKey tc <> k -> prepare env tc !! k = env !! k.
Proof.
  intros Hne. unfold prepare, os.Setenv, os.Unsetenv.
  destruct (setEnv tc).
  - destruct (negb (os.validKey _)); [reflexivity|].
    destruct (negb (os.without 0 _)); [reflexivity|].
    apply lookup_insert_ne. exact Hne.
  - apply lookup_delete_ne. exact Hne.
Qed.

Lemma LookupEnv_lookup (env env' : os.Environ) key :
  env !! key = env' !! key -> os.LookupEnv env key = os.LookupEnv env' key.
Proof. unfold os.LookupEnv. intros ->. reflexivity. Qed.

Lemma callReadEnv_ext env env' tc :
  os.LookupEnv env (envKey tc) = os.LookupEnv env' (envKey tc) ->
  callReadEnv env tc = callReadEnv env' tc.
Proof.
  intros HL. unfold callReadEnv.
  destruct (dynamic (defaultValue tc)) as [def|]; [|reflexivity].
  destruct (typeOf def);
    rewrite ?(ReadEnv_ext env env' _ _ _ HL); reflexivity.
Qed.

(** The verdict on a case does not depend on what the cases before it
    left in the environment. *)
Lemma runCase_verdict_ext (env env' : os.Environ) (tc : testCase) :
  settable tc = true ->
  snd (runCase env tc) = snd (runCase env' tc).
Proof.
  intros Hs. unfold runCase. cbn [snd].
  rewrite (callReadEnv_ext (prepare env tc) (prepare env' tc) tc);
    [reflexivity|].
  apply LookupEnv_lookup. rewrite !prepare_lookup by exact Hs. reflexivity.
Qed.

Lemma runCases_cons env tc rest :
  runCases env (tc :: rest)
  = (fst (runCases (fst (runCase env tc)) rest),
     (pair (name tc) <$> snd (runCase env tc))
     ++ snd (runCases (fst (runCase env tc)) rest)).
Proof.
  cbn [runCases]. destruct (runCase env tc) as [env1 fs]. cbn [fst snd].
  destruct (runCases env1 rest) as [env2 gs]. reflexivity.
Qed.

Lemma runCases_isolated tcs : forall env env' : os.Environ,
  forallb settable tcs = true ->
  snd (runCases env tcs) = snd (runCases env' tcs).
Proof.
  induction tcs as [|tc rest IH]; intros env env' Hs; [reflexivity|].
  cbn [forallb] in Hs. apply andb_prop in Hs as [Hs Hrest].
  rewrite !runCases_cons. cbn [snd].
  rewrite (runCase_verdict_ext env env' tc Hs).
  rewrite (IH (fst (runCase env tc)) (fst (runCase env' tc)) Hrest).
  reflexivity.
Qed.

(** X10.  The cases of the test do not depend on one another.  For cases
    whose [os.Setenv] succeeds, the failures of a run of the cases in
    order, from any environment, are those each case reports when run
    alone from the empty environment. *)
Theorem runCases_independent (tcs : list testCase) (env : os.Environ) :
  forallb settable tcs = true ->
  snd (runCases env tcs)
  = tcs ≫= (fun tc => pair (name tc) <$> snd (runCase ∅ tc)).
Proof.
  revert env. induction tcs as [|tc rest IH]; intros env Hs; [reflexivity|].
  cbn [forallb] in Hs. apply andb_prop in Hs as [Hs Hrest].
  rewrite runCases_cons. cbn [snd].
  rewrite (runCase_verdict_ext env ∅ tc Hs), (IH _ Hrest). reflexivity.
Qed.

Lemma runCases_lookup k tcs : forall env : os.Environ,
  forallb settable tcs = true ->
  fst (runCases env tcs) !! k = written k tcs (env !! k).
Proof.
  induction tcs as [|tc rest IH]; intros env Hs; [reflexivity|].
  cbn [forallb] in Hs. apply andb_prop in Hs as [Hs Hrest].
  rewrite runCases_cons. cbn [fst written].
  rewrite (IH _ Hrest). f_equal. unfold runCase. cbn [fst].
  destruct (decide (envKey tc = k)) as [<- | Hne].
  - apply prepare_lookup. exact Hs.
  - apply prepare_lookup_ne. exact Hne.
Qed.

Lemma written_untouched k tcs : forall cur,
  k ∉ (envKey <$> tcs) -> written k tcs cur = cur.
Proof.
  induction tcs as [|tc rest IH]; intros cur Hk; [reflexivity|].
  cbn [written]. rewrite fmap_cons in Hk.
  apply not_elem_of_cons in Hk as [Hne Hk].
  destruct (decide (envKey tc = k)) as [E|_]; [congruence|].
  apply IH. exact Hk.
Qed.

Lemma cleanup_lookup (env : os.Environ) k :
  cleanup env !! k = if decide (k ∈ cleaned) then None else env !! k.
Proof.
  unfold cleanup. generalize cleaned as ks. intros ks. revert env.
  induction ks as [|c ks IH]; intros env; cbn [foldl].
  - destruct (decide _) as [Hin|_]; [|reflexivity].
    apply elem_of_nil in Hin. contradiction.
  - rewrite IH. unfold os.Unsetenv.
    destruct (decide (k ∈ ks)) as [Hin|Hnin].
    + destruct (decide _) as [_|Hn]; [reflexivity|].
      exfalso. apply Hn. right. exact Hin.
    + destruct (decide (k = c)) as [-> | Hne].
      * rewrite lookup_delete_eq.
        destruct (decide _) as [_|Hn]; [reflexivity|].
        exfalso. apply Hn. left.
      * rewrite lookup_delete_ne by congruence.
        destruct (decide _) as [Hin|_]; [|reflexivity].
        apply elem_of_cons in Hin as [? | ?]; contradiction.
Qed.

Lemma TestReadEnv_unfold env :
  TestReadEnv env = (cleanup (fst (runCases env tests)), snd (runCases env tests)).
Proof. unfold TestReadEnv. destruct (runCases env tests). reflexivity. Qed.
End TestFacts.

Lemma runCases_independent_witness :
  forallb settable (envreader_test.tests (H := amd64)) = true
  /\ snd (envreader_test.runCases (H := amd64) testEnv
            (envreader_test.tests (H := amd64)))
     = envreader_test.tests (H := amd64)
       ≫= (fun tc => pair (envreader_test.name tc)
                       <$> snd (envreader_test.runCase (H := amd64) ∅ tc)).
Proof.
  assert (Hs : forallb settable (envreader_test.tests (H := amd64)) = true)
    by (vm_compute; reflexivity).
  exact (conj Hs
    (@runCases_independent amd64 (envreader_test.tests (H := amd64))
       testEnv Hs)).
Defined.

Lemma tests_settable (P : Platform) :
  forallb settable envreader_test.tests = true.
Proof. vm_compute. reflexivity. Qed.

Lemma tests_pass_from_empty (P : Platform) :
  snd (envreader_test.runCases ∅ envreader_test.tests) = [].
Proof. destruct P as [[] tbl]; vm_compute; reflexivity. Qed.

(** X11.  The test of the repository passes.  On a platform of either
    width of [int] and from any environment of the process, no case of
    [TestReadEnv] reports a failure: every value and every error
    [ReadEnv] returns is the one its row expects. *)
Theorem TestReadEnv_passes `{Platform} (env : os.Environ) :
  snd (envreader_test.TestReadEnv env) = [].
Proof.
  rewrite TestReadEnv_unfold. cbn [snd].
  rewrite (runCases_isolated _ env ∅ (tests_settable H)).
  apply tests_pass_from_empty.
Qed.

Lemma tests_written (P : Platform) :
  forall cur,
    written "TEST_STRUCT" envreader_test.tests cur = Some "{}"
    /\ written "TEST_SLICE" envreader_test.tests cur = Some "1,2,3".
Proof. intros cur. vm_compute. split; reflexivity. Qed.

Lemma tests_unset (P : Platform) :
  forall cur k,
    k ∈ ["NON_EXISTENT_INT"; "NON_EXISTENT_INT64"; "NON_EXISTENT_STRING";
         "NON_EXISTENT_BOOL"; "NON_EXISTENT_FLOAT"] ->
    written k envreader_test.tests cur = None.
Proof.
  intros cur k Hk.
  repeat (apply elem_of_cons in Hk as [-> | Hk]; [vm_compute; reflexivity|]).
  apply elem_of_nil in Hk. contradiction.
Qed.

(** X12.  What the test leaves in the environment of the process.  The
    ten variables of its [t.Cleanup] and the five it only ever unsets
    are unset when it ends; [TEST_STRUCT] and [TEST_SLICE], which two
    cases set and the cleanup does not name, stay set to the values of
    those cases; every other variable is as it was. *)
Theorem TestReadEnv_final_environment `{Platform} (env : os.Environ) :
  let final := fst (envreader_test.TestReadEnv env) in
  (forall k, k ∈ envreader_test.cleaned -> final !! k = None)
  /\ (forall k,
        k ∈ ["NON_EXISTENT_INT"; "NON_EXISTENT_INT64"; "NON_EXISTENT_STRING";
             "NON_EXISTENT_BOOL"; "NON_EXISTENT_FLOAT"] ->
        final !! k = None)
  /\ final !! "TEST_STRUCT" = Some "{}"
  /\ final !! "TEST_SLICE" = Some "1,2,3"
  /\ (forall k,
        k ∉ envreader_test.cleaned ->
        k ∉ (envreader_test.envKey <$> envreader_test.tests) ->
        final !! k = env !! k).
Proof.
  cbv zeta. rewrite TestReadEnv_unfold. cbn [fst].
  split; [|split; [|split; [|split]]].
  - intros k Hk. rewrite cleanup_lookup.
    destruct (decide _) as [_|Hn]; [reflexivity|contradiction].
  - intros k Hk. rewrite cleanup_lookup.
    destruct (decide _) as [_|_]; [reflexivity|].
    rewrite (runCases_lookup _ _ _ (tests_settable H)).
    apply (tests_unset H). exact Hk.
  - rewrite cleanup_lookup.
    destruct (decide _) as [Hin|_].
    + exfalso. revert Hin. unfold envreader_test.cleaned.
      rewrite !elem_of_cons, elem_of_nil. intuition discriminate.
    + rewrite (runCases_lookup _ _ _ (tests_settable H)).
      apply (tests_written H).
  - rewrite cleanup_lookup.
    destruct (decide _) as [Hin|_].
    + exfalso. revert Hin. unfold envreader_test.cleaned.
      rewrite !elem_of_cons, elem_of_nil. intuition discriminate.
    + rewrite (runCases_lookup _ _ _ (tests_settable H)).
      apply (tests_written H).
  - intros k Hc Hk. rewrite cleanup_lookup.
    destruct (decide _) as [Hin|_]; [contradiction|].
    rewrite (runCases_lookup _ _ _ (tests_settable H)).
    apply written_untouched. exact Hk.
Qed.

Section CheckError.
Context `{Platform}.
Import envreader_test.

(** X13.  A case that expects a sentinel of [strconv] checks the cause
    with [errors.Is] and nothing else.  The check of the error gives the
    same verdict whatever message the case documents in
    [expectedErrString] and whatever message the error returned
    carries, and it passes exactly when the cause matches the
    sentinel. *)
Theorem checkError_sentinel_ignores_messages
    (tc : testCase) (sentinel : error) (documented msg msg' : string)
    (cause : error) :
  sentinel = ErrSyntax \/ sentinel = ErrRange ->
  expectedErr tc = Some sentinel ->
  let tc' := {| name := name tc; envKey := envKey tc;
                envValue := envValue tc; setEnv := setEnv tc;
                defaultValue := defaultValue tc;
                expectedVal := expectedVal tc;
                expectedErr := expectedErr tc;
                expectedErrString := documented |} in
  checkError tc' (Some (wrapError msg cause))
  = checkError tc (Some (wrapError msg' cause))
  /\ (checkError tc (Some (wrapError msg cause)) = []
      <-> errors.Is cause sentinel = true).
Proof.
  intros Hs He. cbv zeta. unfold checkError. cbn [expectedErr].
  rewrite He. destruct Hs as [-> | ->]; cbn [errors.Is errors.same orb];
    (split; [reflexivity|]);
    destruct (errors.Is cause _); cbn [negb]; split; congruence.
Qed.
End CheckError.

Lemma checkError_sentinel_ignores_messages_witness :
  envreader_test.expectedErr syntaxCase = Some ErrSyntax
  /\ errors.Is (strconv.syntaxError strconv.fnAtoi "abc") ErrSyntax = true
  /\ envreader_test.checkError (H := amd64) syntaxCase
       (Some (wrapError "any message"
                (strconv.syntaxError strconv.fnAtoi "abc")))
     = [].
Proof.
  assert (He : envreader_test.expectedErr syntaxCase = Some ErrSyntax)
    by reflexivity.
  assert (Hi : errors.Is (strconv.syntaxError strconv.fnAtoi "abc") ErrSyntax
               = true) by reflexivity.
  exact (conj He (conj Hi
    (proj2 (proj2
       (@checkError_sentinel_ignores_messages amd64 syntaxCase ErrSyntax
          "documented" "any message" "another"
          (strconv.syntaxError strconv.fnAtoi "abc")
          (or_introl eq_refl) He)) Hi))).
Defined.

(** ** No trimming *)

Lemma consumes_refl s : consumes s s.
Proof. intros Hr. exact Hr. Qed.

Lemma consumes_trans s t u : consumes s t -> consumes t u -> consumes s u.
Proof. unfold consumes. auto. Qed.

Lemma consumes_byte a s :
  fromPlus (byte a) = true -> consumes (String a s) s.
Proof. intros Ha Hs. cbn [allBytes]. rewrite Ha, Hs. reflexivity. Qed.

Lemma lower_fromPlus c l :
  strconv.lower c = l -> 0 <= c -> 75 <= l -> fromPlus c = true.
Proof.
  unfold strconv.lower, fromPlus, c_plus. intros Hl Hc Hlo.
  apply Z.leb_le.
  destruct (Z_lt_le_dec c 43) as [Hlt|Hge]; [|exact Hge].
  exfalso. assert (Hb : Z.lor c 32 < 64).
  { destruct (Z.eq_dec c 0) as [-> | Hnz]; [vm_compute; reflexivity|].
    apply Z.log2_lt_cancel. rewrite Z.log2_lor by lia.
    change (Z.log2 64) with 6. change (Z.log2 32) with 5.
    assert (Z.log2 c < 6) by (apply Z.log2_lt_pow2; lia). lia. }
  lia.
Qed.

Lemma digitsValue_fromPlus s : forall acc v,
  digitsValue acc s = Some v -> allBytes fromPlus s = true.
Proof.
  induction s as [|a s IH]; intros acc v; cbn [digitsValue allBytes];
    [reflexivity|].
  destruct (between c_0 c_9 (byte a)) eqn:Hd; [|discriminate].
  intros Hv. rewrite (IH _ _ Hv), andb_true_r.
  apply between_spec in Hd. apply Z.leb_le. unfold c_0, c_plus in *. lia.
Qed.

Lemma decimalValue_fromPlus s n :
  decimalValue s = Some n -> allBytes fromPlus s = true.
Proof.
  destruct s as [|a s]; [discriminate|]. unfold decimalValue.
  destruct (_ || _) eqn:Hsign.
  - destruct s as [|b s]; [discriminate|].
    destruct (digitsValue 0 (String b s)) as [u|] eqn:Hu; [|discriminate].
    intros _.
    change (fromPlus (byte a) && allBytes fromPlus (String b s) = true).
    rewrite (digitsValue_fromPlus _ _ _ Hu), andb_true_r.
    apply Z.leb_le. unfold c_plus, c_minus in *.
    apply orb_prop in Hsign as [E | E]; apply Z.eqb_eq in E; lia.
  - apply digitsValue_fromPlus.
Qed.

Lemma ParseBool_fromPlus s b :
  strconv.ParseBool s = (b, None) -> allBytes fromPlus s = true.
Proof.
  unfold strconv.ParseBool.
  destruct (decide _) as [Hin|_];
    [|destruct (decide _) as [Hin|_]; [|discriminate]]; intros _;
    repeat (apply elem_of_cons in Hin as [-> | Hin]; [reflexivity|]);
    apply elem_of_nil in Hin; contradiction.
Qed.

Lemma commonPrefix_fromPlus pre : forall s,
  allBytes (fun b => 97 <=? b) pre = true ->
  strconv.commonPrefixLenIgnoreCase s pre = len s ->
  allBytes fromPlus s = true.
Proof.
  induction pre as [|b pre IH]; intros [|a s] Hp;
    cbn [strconv.commonPrefixLenIgnoreCase allBytes]; try reflexivity.
  - unfold len. cbn [String.length]. lia.
  - cbn [allBytes] in Hp. apply andb_prop in Hp as [Hb Hp].
    apply Z.leb_le in Hb. pose proof (byte_range a) as Ha.
    assert (Hle : forall t, 0 <= strconv.commonPrefixLenIgnoreCase t pre <= len t).
    { clear. induction pre as [|b pre IH]; intros [|a t];
        cbn [strconv.commonPrefixLenIgnoreCase]; unfold len in *;
        cbn [String.length]; try lia.
      destruct (_ =? _); [|lia]. specialize (IH t). lia. }
    destruct (_ =? byte b) eqn:E.
    + intros Hn. apply Z.eqb_eq in E.
      replace (len (String a s)) with (1 + len s) in Hn
        by (unfold len; cbn [String.length]; lia).
      rewrite (IH s Hp) by lia. rewrite andb_true_r.
      apply Z.leb_le. unfold c_plus.
      destruct (between 65 90 (byte a)) eqn:Eb.
      * apply between_spec in Eb. lia.
      * lia.
    + unfold len. cbn [String.length]. lia.
Qed.

Lemma readMantissa_consumes hex s : forall m m' rest,
  strconv.readMantissa hex m s = (m', rest) -> consumes s rest.
Proof.
  induction s as [|a s IH]; intros m m' rest; cbn [strconv.readMantissa].
  - intros [= _ <-]. apply consumes_refl.
  - pose proof (byte_range a) as Ha.
    assert (Hstep : forall m1, strconv.readMantissa hex m1 s = (m', rest) ->
              fromPlus (byte a) = true -> consumes (String a s) rest).
    { intros m1 Hr Hb. eapply consumes_trans; [apply consumes_byte, Hb|].
      eapply IH, Hr. }
    repeat case_match; intros Hr;
      try (injection Hr as _ <-; apply consumes_refl);
      (eapply Hstep; [exact Hr|]); unfold fromPlus, c_plus;
      apply Z.leb_le;
      repeat match goal with
             | E : (_ =? _) = true |- _ => apply Z.eqb_eq in E
             | E : between _ _ _ = true |- _ => apply between_spec in E
             | E : _ && _ = true |- _ => apply andb_prop in E as [? ?]
             end;
      unfold c_underscore, c_dot, c_0, c_9, c_a, c_f in *; try lia.
    all: assert (Hl : fromPlus (byte a) = true)
           by (eapply (lower_fromPlus _ _ eq_refl); lia).
    all: apply Z.leb_le in Hl; exact Hl.
Qed.

Lemma readExponent_consumes s : forall e us e' us' rest,
  strconv.readExponent e us s = (e', us', rest) -> consumes s rest.
Proof.
  induction s as [|a s IH]; intros e us e' us' rest;
    cbn [strconv.readExponent].
  - intros [= _ _ <-]. apply consumes_refl.
  - repeat case_match; intros Hr;
      try (injection Hr as _ _ <-; apply consumes_refl);
      (eapply consumes_trans; [apply consumes_byte|eapply IH, Hr]);
      unfold fromPlus, c_plus; apply Z.leb_le;
      repeat match goal with
             | E : (_ =? _) = true |- _ => apply Z.eqb_eq in E
             | E : between _ _ _ = true |- _ => apply between_spec in E
             end;
      unfold c_underscore, c_0, c_9 in *; lia.
Qed.

Lemma commonPrefix_le pre : forall t,
  0 <= strconv.commonPrefixLenIgnoreCase t pre <= len t.
Proof.
  induction pre as [|b pre IH]; intros [|a t];
    cbn [strconv.commonPrefixLenIgnoreCase]; unfold len in *;
    cbn [String.length]; try lia.
  destruct (_ =? _); [|lia]. specialize (IH t). lia.
Qed.

Lemma len_cons a s : len (String a s) = 1 + len s.
Proof. unfold len. cbn [String.length]. lia. Qed.

Lemma len_zero s : len s = 0 -> s = EmptyString.
Proof. destruct s; [reflexivity|]. rewrite len_cons. unfold len. lia. Qed.

Lemma special_fromPlus s v n :
  strconv.special s = Some (v, n) -> n = len s -> allBytes fromPlus s = true.
Proof.
  destruct s as [|a s1]; [discriminate|]. unfold strconv.special.
  pose proof (byte_range a) as Ha.
  assert (Hinf : forall neg nsign t,
    (let n := strconv.commonPrefixLenIgnoreCase t "infinity" in
     let n := if (3 <? n) && (n <? 8) then 3 else n in
     if (n =? 3) || (n =? 8) then Some (strconv.Inf neg, nsign + n) else None)
    = Some (v, n) -> n = nsign + len t -> allBytes fromPlus t = true).
  { intros neg nsign t. cbn zeta.
    pose proof (commonPrefix_le "infinity" t) as Hle.
    destruct (_ && _) eqn:Hmid.
    - cbn [Z.eqb orb]. intros [= _ <-] Hn.
      apply andb_prop in Hmid as [H3 H8]. apply Z.ltb_lt in H3. lia.
    - destruct (_ || _); [|discriminate]. intros [= _ <-] Hn.
      apply (commonPrefix_fromPlus "infinity"); [reflexivity|lia]. }
  cbn zeta. destruct (_ || _) eqn:Hsign.
  - intros Hs Hn. rewrite len_cons in Hn.
    change (fromPlus (byte a) && allBytes fromPlus s1 = true).
    rewrite (Hinf _ _ _ Hs Hn), andb_true_r.
    apply Z.leb_le. unfold c_plus, c_minus in *.
    apply orb_prop in Hsign as [E | E]; apply Z.eqb_eq in E; lia.
  - destruct (_ =? 105).
    + intros Hs Hn. apply (Hinf _ _ _ Hs). lia.
    + destruct (_ =? 110); [|discriminate].
      destruct (_ =? 3) eqn:E; [|discriminate]. intros [= _ <-] Hn.
      apply Z.eqb_eq in E.
      apply (commonPrefix_fromPlus "nan"); [reflexivity|lia].
Qed.

Lemma readFloat_consumes s :
  exists rest, strconv.fl_n (strconv.readFloat s) = len s - len rest
               /\ consumes s rest.
Proof.
  unfold strconv.readFloat.
  destruct s as [|a0 s1].
  { exists EmptyString. split; [reflexivity|apply consumes_refl]. }
  set (s := String a0 s1).
  assert (Hsign : exists neg t,
    (if byte a0 =? c_plus then (false, s1)
     else if byte a0 =? c_minus then (true, s1) else (false, s)) = (neg, t)
    /\ consumes s t).
  { destruct (byte a0 =? c_plus) eqn:E1;
      [|destruct (byte a0 =? c_minus) eqn:E2];
      eexists _, _; (split; [reflexivity|]);
      try apply consumes_refl; apply consumes_byte, Z.leb_le;
      [apply Z.eqb_eq in E1|apply Z.eqb_eq in E2];
      unfold c_plus, c_minus in *; lia. }
  destruct Hsign as (neg & t & -> & Hc1).
  assert (Hhex : exists hex t',
    match t with
    | String z (String x (String y r)) =>
      if (byte z =? c_0) && (strconv.lower (byte x) =? c_x)
      then (true, String y r) else (false, t)
    | _ => (false, t)
    end = (hex, t') /\ consumes t t').
  { destruct t as [|z [|x [|y r]]];
      try (eexists _, _; split; [reflexivity|apply consumes_refl]).
    destruct (_ && _) eqn:E;
      eexists _, _; (split; [reflexivity|]); [|apply consumes_refl].
    apply andb_prop in E as [Ez Ex].
    apply Z.eqb_eq in Ez, Ex. pose proof (byte_range x).
    eapply consumes_trans; apply consumes_byte.
    - apply Z.leb_le. unfold c_0, c_plus in *. lia.
    - eapply lower_fromPlus; [exact Ex| |unfold c_x]; lia. }
  destruct Hhex as (hex & t' & -> & Hc2).
  match goal with
  | |- context [strconv.readMantissa hex ?m0 t'] =>
    destruct (strconv.readMantissa hex m0 t') as [m t2] eqn:Hm
  end.
  apply readMantissa_consumes in Hm.
  assert (Hc : consumes s t2)
    by (eapply consumes_trans; [exact Hc1|];
        eapply consumes_trans; [exact Hc2|exact Hm]).
  clear Hc1 Hc2 Hm.
  assert (Hfin : forall (fl : bool -> strconv.floatLit) (b : bool) rest,
    consumes s rest ->
    (forall ok, strconv.fl_n (fl ok) = len s - len rest) ->
    exists rest', strconv.fl_n (if b then fl false else fl true)
                  = len s - len rest' /\ consumes s rest').
  { intros fl b rest Hr Hn. exists rest. split; [|exact Hr].
    destruct b; apply Hn. }
  destruct (negb (strconv.m_sawdigits m)).
  { exists t2. split; [reflexivity|exact Hc]. }
  destruct (if hex then _ else _) as [dp nd].
  destruct t2 as [|ae t1].
  { destruct hex; [exists EmptyString; split; [reflexivity|exact Hc]|].
    eapply (Hfin (fun ok => strconv.Build_floatLit _ _ _ _ _ ok));
      [exact Hc|reflexivity]. }
  destruct (_ =? (if hex then c_p else c_e)) eqn:Ee.
  2:{ destruct hex; [exists (String ae t1); split; [reflexivity|exact Hc]|].
      eapply (Hfin (fun ok => strconv.Build_floatLit _ _ _ _ _ ok));
        [exact Hc|reflexivity]. }
  assert (Hc1 : consumes s t1).
  { eapply consumes_trans; [exact Hc|]. apply consumes_byte.
    apply Z.eqb_eq in Ee. pose proof (byte_range ae).
    eapply lower_fromPlus; [exact Ee|lia|].
    destruct hex; unfold c_p, c_e; lia. }
  destruct t1 as [|asgn t2].
  { exists EmptyString. split; [reflexivity|exact Hc1]. }
  assert (Hes : exists esign t3,
    (if byte asgn =? c_plus then (1, t2)
     else if byte asgn =? c_minus then (-1, t2)
     else (1, String asgn t2)) = (esign, t3) /\ consumes s t3).
  { destruct (byte asgn =? c_plus) eqn:E1;
      [|destruct (byte asgn =? c_minus) eqn:E2];
      eexists _, _; (split; [reflexivity|]); try exact Hc1;
      (eapply consumes_trans; [exact Hc1|]);
      apply consumes_byte, Z.leb_le;
      [apply Z.eqb_eq in E1|apply Z.eqb_eq in E2];
      unfold c_plus, c_minus in *; lia. }
  destruct Hes as (esign & t3 & -> & Hc3).
  destruct t3 as [|d t4].
  { exists EmptyString. split; [reflexivity|exact Hc3]. }
  destruct (between c_0 c_9 (byte d)).
  2:{ exists (String d t4). split; [reflexivity|exact Hc3]. }
  match goal with
  | |- context [strconv.readExponent 0 ?u ?t] =>
    destruct (strconv.readExponent 0 u t) as [[e us] t5] eqn:He
  end.
  apply readExponent_consumes in He.
  eapply (Hfin (fun ok => strconv.Build_floatLit _ _ _ _ _ ok));
    [eapply consumes_trans; [exact Hc3|exact He]|reflexivity].
Qed.

Lemma ParseFloat_fromPlus s f :
  strconv.ParseFloat s 64 = (f, None) -> allBytes fromPlus s = true.
Proof.
  unfold strconv.ParseFloat. change (64 =? 32) with false. cbv iota.
  unfold strconv.atof.
  destruct (strconv.special s) as [[v n]|] eqn:Hsp.
  - destruct (n =? len s) eqn:En; [|discriminate]. intros _.
    apply Z.eqb_eq in En. eapply special_fromPlus; eassumption.
  - destruct (readFloat_consumes s) as (rest & Hn & Hc).
    destruct (negb (strconv.fl_ok _)).
    + destruct (negb _); discriminate.
    + destruct (strconv.isInf _).
      * destruct (negb _); discriminate.
      * destruct (strconv.fl_n _ =? len s) eqn:En; [|discriminate].
        intros _. apply Z.eqb_eq in En.
        assert (Hr : rest = EmptyString) by (apply len_zero; lia).
        subst rest. apply Hc. reflexivity.
Qed.

Section NoTrimming.
Context `{Platform}.

Lemma strconvParse_fromPlus T raw v :
  strconvParse T raw = Some (v, None) -> allBytes fromPlus raw = true.
Proof.
  destruct T; try discriminate; cbn [strconvParse].
  - destruct (strconv.Atoi raw) as [n [e|]] eqn:Hp; [discriminate|].
    intros _. apply Atoi_accepts in Hp as [Hd _].
    eapply decimalValue_fromPlus, Hd.
  - destruct (strconv.ParseInt raw 10 64) as [n [e|]] eqn:Hp; [discriminate|].
    intros _. apply ParseInt_accepts in Hp as [Hd _]; [|auto].
    eapply decimalValue_fromPlus, Hd.
  - destruct (strconv.ParseBool raw) as [b [e|]] eqn:Hp; [discriminate|].
    intros _. eapply ParseBool_fromPlus, Hp.
  - destruct (strconv.ParseFloat raw 64) as [f [e|]] eqn:Hp; [discriminate|].
    intros _. eapply ParseFloat_fromPlus, Hp.
Qed.

(** X14.  The raw value is parsed as it is: nothing is trimmed.  At the
    four types that are parsed, a raw value with a byte below [+] in it,
    such as a space, a tab, a line feed, a carriage return or a quote,
    before, after or inside the literal, is never read: [ReadEnv]
    returns the default and an error that wraps the error of
    [strconv]. *)
Theorem ReadEnv_no_trimming
    (env : os.Environ) (T : GoType) (key raw : string)
    (defaultValue : value) :
  os.LookupEnv env key = Some raw ->
  parseable T = true ->
  allBytes fromPlus raw = false ->
  exists cause,
    envreader.ReadEnv env T key defaultValue
    = (CallGetenv key :: strconvCall T raw,
       Some (defaultValue,
             Some (wrapError
                     (conversionMessage (strconv.Quote raw) (typeString T)
                        (fmt.Error cause)) cause)))
    /\ snd <$> strconvParse T raw = Some (Some cause).
Proof.
  intros HL HP Hb.
  assert (Hne : raw <> EmptyString) by (intros ->; discriminate Hb).
  destruct (strconvParse_parseable T raw HP) as (v & [cause|] & Hv).
  - exists cause. split; [|rewrite Hv; reflexivity].
    apply (ReadEnv_parse_failure env T key raw defaultValue v cause HL Hne Hv).
  - apply strconvParse_fromPlus in Hv. congruence.
Qed.
End NoTrimming.

Lemma ReadEnv_no_trimming_witness :
  os.LookupEnv {[ "TEST_INT" := " 42" ]} "TEST_INT" = Some " 42"
  /\ parseable TInt = true
  /\ allBytes fromPlus " 42" = false
  /\ exists cause,
       envreader.ReadEnv (H := amd64) {[ "TEST_INT" := " 42" ]} TInt
         "TEST_INT" (VInt 8080)
       = (CallGetenv "TEST_INT" :: strconvCall TInt " 42",
          Some (VInt 8080,
                Some (wrapError
                        (conversionMessage (strconv.Quote (H := amd64) " 42")
                           (typeString TInt) (fmt.Error (H := amd64) cause))
                        cause)))
       /\ snd <$> strconvParse (H := amd64) TInt " 42" = Some (Some cause).
Proof.
  assert (HL : os.LookupEnv {[ "TEST_INT" := " 42" ]} "TEST_INT"
               = Some " 42") by (vm_compute; reflexivity).
  assert (HP : parseable TInt = true) by reflexivity.
  assert (Hb : allBytes fromPlus " 42" = false) by reflexivity.
  exact (conj HL (conj HP (conj Hb
    (@ReadEnv_no_trimming amd64 {[ "TEST_INT" := " 42" ]} TInt "TEST_INT"
       " 42" (VInt 8080) HL HP Hb)))).
Defined.
